(** * MULTI/EXEC and WATCH of Redis 5.0.6 (multi.c): a shallow embedding

    The transaction file of the server is embedded function by function.
    Pointers to clients and to databases are addresses into two finite
    maps, the hash tables of dict.h are finite maps, the lists of adlist
    are lists.  Flag words are integers handled with the bit operations of
    the source. *)

From stdpp Require Import gmap strings list fin_maps.

(** ** Constants of server.h

    The values of the flag bits are declared in server.h, which is not
    among the sources; they are parameters of the development. *)
Class ServerH := {
  CLIENT_MASTER : Z;
  CLIENT_MULTI : Z;
  CLIENT_DIRTY_CAS : Z;
  CLIENT_DIRTY_EXEC : Z;
  CMD_WRITE : Z;
  CMD_READONLY : Z;
  CMD_ADMIN : Z;
  CMD_CALL_NONE : Z;
  CMD_CALL_FULL : Z;
  PROPAGATE_AOF : Z;
  PROPAGATE_REPL : Z
}.

(** The truth value C gives to [x & m]. *)
Definition has (x m : Z) : bool := negb (Z.land x m =? 0)%Z.

(** ** Data model *)

(** A string object: its address and the bytes it holds. *)
Record robj := { robj_addr : nat; ptr : string }.

(** A command descriptor; the procedure itself belongs to the executor. *)
Record redisCommand := { rc_name : string; rc_flags : Z }.

(** One queued command ([argc] is the length of [mc_argv]). *)
Record multiCmd := { mc_argv : list robj; mc_cmd : redisCommand }.

(** The queue of a client ([count] is the length of [commands]). *)
Record multiState := { commands : list multiCmd; cmd_flags : Z }.

Definition count (m : multiState) : nat := length (commands m).

(** A watched key: the key and the database (by address) it lives in. *)
Record watchedKey := { key : robj; wk_db : nat }.

(** The shared reply objects used by this file. *)
Inductive sharedObject := shared_ok | shared_execaborterr | shared_nullmultibulk.

(** What a client is sent. *)
Inductive replyItem :=
| Reply (o : sharedObject)
| ReplyError (msg : string)
| ReplyMultiBulkLen (n : nat).

(** A client: the database it is on (by address), the command being run
    ([argc] is the length of [argv]), its flag word, its queue, the keys it
    watches, and what it was sent. *)
Record client := {
  db : nat;
  argv : list robj;
  cmd : redisCommand;
  flags : Z;
  mstate : multiState;
  watched_keys : list watchedKey;
  reply_buf : list replyItem
}.

(** A database: its keyspace, the table from watched key bytes to the list of
    watching clients (by address), and its number. *)
Record redisDb := {
  dict : gmap string string;
  db_watched_keys : gmap string (list nat);
  id : Z
}.

(** A frame handed to [propagate]. *)
Record propagation := {
  p_cmd : redisCommand;
  p_dbid : Z;
  p_argv : list string;
  p_target : Z
}.

(** A frame handed to the monitors. *)
Record monitorFrame := { m_client : nat; m_dbid : Z; m_argv : list string }.

(** The server: the databases and the client objects by address, the list
    [server.clients], the fields of [server] this file reads or writes, and the
    two sinks ([propagate] and the monitors). The counter [dirty] is kept
    unbounded: its overflow is undefined in C. *)
Record redisServer := {
  server_db : gmap nat redisDb;
  client_heap : gmap nat client;
  clients : list nat;
  monitors : list nat;
  loading : bool;
  masterhost : option string;
  repl_slave_ro : bool;
  repl_backlog : option string;
  dirty : Z;
  server_multiCommand : redisCommand;
  propagated : list propagation;
  monitor_feed : list monitorFrame
}.

Definition empty_multiState : multiState := {| commands := []; cmd_flags := 0 |}.

Definition empty_client : client :=
  {| db := 0; argv := []; cmd := {| rc_name := ""; rc_flags := 0 |}; flags := 0;
     mstate := empty_multiState; watched_keys := []; reply_buf := [] |}.

Definition empty_db : redisDb := {| dict := ∅; db_watched_keys := ∅; id := 0 |}.

#[global] Instance client_inhabited : Inhabited client := populate empty_client.
#[global] Instance redisDb_inhabited : Inhabited redisDb := populate empty_db.
#[global] Instance robj_eq_dec : EqDecision robj.
Proof. solve_decision. Defined.
#[global] Instance watchedKey_eq_dec : EqDecision watchedKey.
Proof. solve_decision. Defined.

(** ** Field updates *)

Definition set_flags (f : Z) (c : client) : client :=
  {| db := db c; argv := argv c; cmd := cmd c; flags := f; mstate := mstate c;
     watched_keys := watched_keys c; reply_buf := reply_buf c |}.

Definition set_mstate (m : multiState) (c : client) : client :=
  {| db := db c; argv := argv c; cmd := cmd c; flags := flags c; mstate := m;
     watched_keys := watched_keys c; reply_buf := reply_buf c |}.

Definition set_watched_keys (l : list watchedKey) (c : client) : client :=
  {| db := db c; argv := argv c; cmd := cmd c; flags := flags c; mstate := mstate c;
     watched_keys := l; reply_buf := reply_buf c |}.

Definition set_command (a : list robj) (d : redisCommand) (c : client) : client :=
  {| db := db c; argv := a; cmd := d; flags := flags c; mstate := mstate c;
     watched_keys := watched_keys c; reply_buf := reply_buf c |}.

Definition push_reply (r : replyItem) (c : client) : client :=
  {| db := db c; argv := argv c; cmd := cmd c; flags := flags c; mstate := mstate c;
     watched_keys := watched_keys c; reply_buf := reply_buf c ++ [r] |}.

Definition set_db_watched_keys (w : gmap string (list nat)) (d : redisDb) : redisDb :=
  {| dict := dict d; db_watched_keys := w; id := id d |}.

Definition set_client_heap (h : gmap nat client) (s : redisServer) : redisServer :=
  {| server_db := server_db s; client_heap := h; clients := clients s;
     monitors := monitors s; loading := loading s; masterhost := masterhost s;
     repl_slave_ro := repl_slave_ro s; repl_backlog := repl_backlog s;
     dirty := dirty s; server_multiCommand := server_multiCommand s;
     propagated := propagated s; monitor_feed := monitor_feed s |}.

Definition set_server_db (d : gmap nat redisDb) (s : redisServer) : redisServer :=
  {| server_db := d; client_heap := client_heap s; clients := clients s;
     monitors := monitors s; loading := loading s; masterhost := masterhost s;
     repl_slave_ro := repl_slave_ro s; repl_backlog := repl_backlog s;
     dirty := dirty s; server_multiCommand := server_multiCommand s;
     propagated := propagated s; monitor_feed := monitor_feed s |}.

Definition set_dirty (n : Z) (s : redisServer) : redisServer :=
  {| server_db := server_db s; client_heap := client_heap s; clients := clients s;
     monitors := monitors s; loading := loading s; masterhost := masterhost s;
     repl_slave_ro := repl_slave_ro s; repl_backlog := repl_backlog s;
     dirty := n; server_multiCommand := server_multiCommand s;
     propagated := propagated s; monitor_feed := monitor_feed s |}.

Definition set_repl_backlog (b : option string) (s : redisServer) : redisServer :=
  {| server_db := server_db s; client_heap := client_heap s; clients := clients s;
     monitors := monitors s; loading := loading s; masterhost := masterhost s;
     repl_slave_ro := repl_slave_ro s; repl_backlog := b;
     dirty := dirty s; server_multiCommand := server_multiCommand s;
     propagated := propagated s; monitor_feed := monitor_feed s |}.

Definition set_propagated (l : list propagation) (s : redisServer) : redisServer :=
  {| server_db := server_db s; client_heap := client_heap s; clients := clients s;
     monitors := monitors s; loading := loading s; masterhost := masterhost s;
     repl_slave_ro := repl_slave_ro s; repl_backlog := repl_backlog s;
     dirty := dirty s; server_multiCommand := server_multiCommand s;
     propagated := l; monitor_feed := monitor_feed s |}.

Definition set_monitor_feed (l : list monitorFrame) (s : redisServer) : redisServer :=
  {| server_db := server_db s; client_heap := client_heap s; clients := clients s;
     monitors := monitors s; loading := loading s; masterhost := masterhost s;
     repl_slave_ro := repl_slave_ro s; repl_backlog := repl_backlog s;
     dirty := dirty s; server_multiCommand := server_multiCommand s;
     propagated := propagated s; monitor_feed := l |}.

(** Dereferencing a client or a database pointer. *)
Definition the_client (s : redisServer) (c : nat) : client := client_heap s !!! c.
Definition the_db (s : redisServer) (d : nat) : redisDb := server_db s !!! d.

(** Writing through a client or a database pointer. *)
Definition on_client (c : nat) (f : client → client) (s : redisServer) : redisServer :=
  set_client_heap (<[c := f (the_client s c)]> (client_heap s)) s.

Definition on_db (d : nat) (f : redisDb → redisDb) (s : redisServer) : redisServer :=
  set_server_db (<[d := f (the_db s d)]> (server_db s)) s.

(** ** Collaborators outside multi.c *)

(** Modelled from the spec: [addReply] of networking.c is not among the
    sources; a reply is appended to what the client is sent. *)
Definition addReply (c : nat) (o : sharedObject) (s : redisServer) : redisServer :=
  on_client c (push_reply (Reply o)) s.

(** Modelled from the spec: [addReplyError] of networking.c is not among the
    sources; the error string is appended to what the client is sent. *)
Definition addReplyError (c : nat) (msg : string) (s : redisServer) : redisServer :=
  on_client c (push_reply (ReplyError msg)) s.

(** Modelled from the spec: [addReplyMultiBulkLen] of networking.c is not
    among the sources; the announced length is appended to what the client is
    sent. *)
Definition addReplyMultiBulkLen (c : nat) (n : nat) (s : redisServer) : redisServer :=
  on_client c (push_reply (ReplyMultiBulkLen n)) s.

(** Modelled from the spec: [propagate] of server.c is not among the
    sources; the sink is the sequence of the frames it was handed. *)
Definition propagate (d : redisCommand) (dbid : Z) (a : list robj) (target : Z)
    (s : redisServer) : redisServer :=
  set_propagated
    (propagated s ++ [{| p_cmd := d; p_dbid := dbid; p_argv := ptr <$> a; p_target := target |}]) s.

(** Modelled from the spec: [feedReplicationBacklog] of replication.c is not
    among the sources; the bytes are appended to the backlog byte stream. *)
Definition feedReplicationBacklog (bytes : string) (s : redisServer) : redisServer :=
  match repl_backlog s with
  | Some b => set_repl_backlog (Some (b +:+ bytes)) s
  | None => s
  end.

(** Modelled from the spec: [replicationFeedMonitors] of replication.c is not
    among the sources; the observers are delivered the argument vector. *)
Definition replicationFeedMonitors (c : nat) (dbid : Z) (a : list robj)
    (s : redisServer) : redisServer :=
  set_monitor_feed
    (monitor_feed s ++ [{| m_client := c; m_dbid := dbid; m_argv := ptr <$> a |}]) s.

(** Modelled from the spec: [equalStringObjects] of object.c is not among the
    sources; two keys are equal when their bytes are. *)
Definition equalStringObjects (a b : robj) : bool := bool_decide (ptr a = ptr b).

(** Modelled from the spec: [listSearchKey] and [listDelNode] of adlist.c are
    not among the sources; the first node holding [c] is unlinked. *)
Fixpoint list_del_first (c : nat) (l : list nat) : list nat :=
  match l with
  | [] => []
  | x :: l' => if decide (x = c) then l' else x :: list_del_first c l'
  end.

Definition CRLF : string :=
  String (Ascii.ascii_of_nat 13) (String (Ascii.ascii_of_nat 10) EmptyString).

(** The bytes ["*1\r\n$4\r\nEXEC\r\n"]. *)
Definition execcmd : string := "*1" +:+ CRLF +:+ "$4" +:+ CRLF +:+ "EXEC" +:+ CRLF.

(** ** multi.c *)

Section Multi.
Context `{ServerH}.

(** The executor [call] of server.c runs the command installed on the client;
    it is a parameter. *)
Variable call : nat → Z → redisServer → redisServer.

Definition initClientMultiState (c : nat) (s : redisServer) : redisServer :=
  on_client c (set_mstate {| commands := []; cmd_flags := 0 |}) s.

(** Reference counts and allocation are not part of the state. *)
Definition freeClientMultiState (c : nat) (s : redisServer) : redisServer := s.

Definition queueMultiCommand (c : nat) (s : redisServer) : redisServer :=
  on_client c (λ x,
    set_mstate
      {| commands := commands (mstate x) ++ [{| mc_argv := argv x; mc_cmd := cmd x |}];
         cmd_flags := Z.lor (cmd_flags (mstate x)) (rc_flags (cmd x)) |} x) s.

(** ** WATCH *)

Definition already_watched (x : client) (k : robj) : bool :=
  existsb (λ wk, bool_decide (wk_db wk = db x) && equalStringObjects k (key wk))
    (watched_keys x).

Definition watchForKey (c : nat) (k : robj) (s : redisServer) : redisServer :=
  let x := the_client s c in
  if already_watched x k then s
  else
    let w := db_watched_keys (the_db s (db x)) in
    let cl := default [] (w !! ptr k) in
    let s1 := on_db (db x) (set_db_watched_keys (<[ptr k := cl ++ [c]]> w)) s in
    on_client c
      (λ y, set_watched_keys (watched_keys y ++ [{| key := k; wk_db := db x |}]) y) s1.

(** The table of watched keys once client [c] is unlinked from the list [cl]
    found under [k]: the entry goes when the list is left empty. *)
Definition unlinked (c : nat) (k : string) (cl : list nat)
    (w : gmap string (list nat)) : gmap string (list nat) :=
  if decide (length (list_del_first c cl) = 0) then delete k w
  else <[k := list_del_first c cl]> w.

(** The loop of [unwatchAllKeys] over the nodes [wks] that are still linked.
    [None] is the failed assertion, or the unlinking of a node that was not
    found. *)
Fixpoint unwatch_keys (c : nat) (wks : list watchedKey) (s : redisServer)
    : option redisServer :=
  match wks with
  | [] => Some s
  | wk :: rest =>
      let w := db_watched_keys (the_db s (wk_db wk)) in
      match w !! ptr (key wk) with
      | None => None
      | Some cl =>
          if decide (c ∈ cl) then
            unwatch_keys c rest
              (on_client c (set_watched_keys rest)
                 (on_db (wk_db wk)
                    (set_db_watched_keys (unlinked c (ptr (key wk)) cl w)) s))
          else None
      end
  end.

Definition unwatchAllKeys (c : nat) (s : redisServer) : option redisServer :=
  if decide (length (watched_keys (the_client s c)) = 0) then Some s
  else unwatch_keys c (watched_keys (the_client s c)) s.

Definition set_dirty_cas (x : client) : client :=
  set_flags (Z.lor (flags x) CLIENT_DIRTY_CAS) x.

Definition touchWatchedKey (d : nat) (k : robj) (s : redisServer) : redisServer :=
  if decide (size (db_watched_keys (the_db s d)) = 0) then s
  else
    match db_watched_keys (the_db s d) !! ptr k with
    | None => s
    | Some cl => foldl (λ s' c, on_client c set_dirty_cas s') s cl
    end.

(** The test made on one watched key by [touchWatchedKeysOnFlush]. *)
Definition flush_hits (dbid : Z) (s : redisServer) (wk : watchedKey) : bool :=
  ((dbid =? -1)%Z || (id (the_db s (wk_db wk)) =? dbid)%Z)
  && bool_decide (is_Some (dict (the_db s (wk_db wk)) !! ptr (key wk))).

Definition touch_client_on_flush (dbid : Z) (s : redisServer) (c : nat) : redisServer :=
  foldl (λ s' wk, if flush_hits dbid s' wk then on_client c set_dirty_cas s' else s')
    s (watched_keys (the_client s c)).

Definition touchWatchedKeysOnFlush (dbid : Z) (s : redisServer) : redisServer :=
  foldl (touch_client_on_flush dbid) s (clients s).

Definition watchCommand (c : nat) (s : redisServer) : redisServer :=
  if has (flags (the_client s c)) CLIENT_MULTI then
    addReplyError c "WATCH inside MULTI is not allowed" s
  else
    addReply c shared_ok
      (foldl (λ s' k, watchForKey c k s') s (drop 1 (argv (the_client s c)))).

Definition unwatchCommand (c : nat) (s : redisServer) : option redisServer :=
  s1 ← unwatchAllKeys c s;
  Some (addReply c shared_ok
          (on_client c (λ x, set_flags (Z.land (flags x) (Z.lnot CLIENT_DIRTY_CAS)) x) s1)).

(** ** MULTI, DISCARD, EXEC *)

Definition discardTransaction (c : nat) (s : redisServer) : option redisServer :=
  let s1 := initClientMultiState c (freeClientMultiState c s) in
  let s2 :=
    on_client c (λ x,
      set_flags
        (Z.land (flags x)
           (Z.lnot (Z.lor (Z.lor CLIENT_MULTI CLIENT_DIRTY_CAS) CLIENT_DIRTY_EXEC))) x) s1 in
  unwatchAllKeys c s2.

Definition flagTransaction (c : nat) (s : redisServer) : redisServer :=
  if has (flags (the_client s c)) CLIENT_MULTI then
    on_client c (λ x, set_flags (Z.lor (flags x) CLIENT_DIRTY_EXEC) x) s
  else s.

Definition multiCommand (c : nat) (s : redisServer) : redisServer :=
  if has (flags (the_client s c)) CLIENT_MULTI then
    addReplyError c "MULTI calls can not be nested" s
  else
    addReply c shared_ok
      (on_client c (λ x, set_flags (Z.lor (flags x) CLIENT_MULTI) x) s).

Definition discardCommand (c : nat) (s : redisServer) : option redisServer :=
  if negb (has (flags (the_client s c)) CLIENT_MULTI) then
    Some (addReplyError c "DISCARD without MULTI" s)
  else
    s1 ← discardTransaction c s;
    Some (addReply c shared_ok s1).

Definition execCommandPropagateMulti (c : nat) (s : redisServer) : redisServer :=
  let multistring := {| robj_addr := 0; ptr := "MULTI" |} in
  propagate (server_multiCommand s) (id (the_db s (db (the_client s c))))
    [multistring] (Z.lor PROPAGATE_AOF PROPAGATE_REPL) s.

(** One turn of the loop of [execCommand], at index [j]. *)
Definition exec_step (c j : nat) (must_propagate : bool) (s : redisServer)
    : option (redisServer * bool) :=
  match commands (mstate (the_client s c)) !! j with
  | None => None
  | Some mc =>
      let s1 := on_client c (set_command (mc_argv mc) (mc_cmd mc)) s in
      let '(s2, mp) :=
        if negb must_propagate
           && negb (has (rc_flags (cmd (the_client s1 c))) (Z.lor CMD_READONLY CMD_ADMIN))
        then (execCommandPropagateMulti c s1, true)
        else (s1, must_propagate) in
      let s3 := call c (if loading s2 then CMD_CALL_NONE else CMD_CALL_FULL) s2 in
      if decide (j < count (mstate (the_client s3 c))) then
        Some (on_client c (λ x,
                set_mstate
                  {| commands :=
                       <[j := {| mc_argv := argv x; mc_cmd := cmd x |}]> (commands (mstate x));
                     cmd_flags := cmd_flags (mstate x) |} x) s3, mp)
      else None
  end.

(** The loop of [execCommand]: the bound is read again at every turn. *)
Fixpoint exec_loop (fuel : nat) (c j : nat) (must_propagate : bool) (s : redisServer)
    : option (redisServer * bool) :=
  if decide (j < count (mstate (the_client s c))) then
    match fuel with
    | O => None
    | S fuel' =>
        match exec_step c j must_propagate s with
        | None => None
        | Some (s', mp) => exec_loop fuel' c (S j) mp s'
        end
    end
  else Some (s, must_propagate).

(** A turn of the loop without its test on [must_propagate]: the entry is
    installed on the client, executed, and written back. *)
Definition run_entry (c j : nat) (s : redisServer) : option redisServer :=
  match commands (mstate (the_client s c)) !! j with
  | None => None
  | Some mc =>
      let s1 := on_client c (set_command (mc_argv mc) (mc_cmd mc)) s in
      let s3 := call c (if loading s1 then CMD_CALL_NONE else CMD_CALL_FULL) s1 in
      if decide (j < count (mstate (the_client s3 c))) then
        Some (on_client c (λ x,
                set_mstate
                  {| commands :=
                       <[j := {| mc_argv := argv x; mc_cmd := cmd x |}]> (commands (mstate x));
                     cmd_flags := cmd_flags (mstate x) |} x) s3)
      else None
  end.


Definition handle_monitor (c : nat) (s : redisServer) : redisServer :=
  if negb (length (monitors s) =? 0) && negb (loading s) then
    replicationFeedMonitors c (id (the_db s (db (the_client s c))))
      (argv (the_client s c)) s
  else s.

(** The gate on a read-only slave. *)
Definition readonly_slave_gate (c : nat) (s : redisServer) : bool :=
  negb (loading s) && bool_decide (is_Some (masterhost s)) && repl_slave_ro s
  && negb (has (flags (the_client s c)) CLIENT_MASTER)
  && has (cmd_flags (mstate (the_client s c))) CMD_WRITE.

(** What [execCommand] does after the loop once the batch was propagated. *)
Definition exec_finish (was_master : bool) (s : redisServer) : redisServer :=
  let is_master := bool_decide (masterhost s = None) in
  let s1 := set_dirty (dirty s + 1) s in
  if bool_decide (is_Some (repl_backlog s1)) && was_master && negb is_master then
    feedReplicationBacklog execcmd s1
  else s1.

Definition execCommand (fuel : nat) (c : nat) (s : redisServer) : option redisServer :=
  let was_master := bool_decide (masterhost s = None) in
  if negb (has (flags (the_client s c)) CLIENT_MULTI) then
    Some (addReplyError c "EXEC without MULTI" s)
  else if has (flags (the_client s c)) (Z.lor CLIENT_DIRTY_CAS CLIENT_DIRTY_EXEC) then
    s1 ← discardTransaction c
           (addReply c
              (if has (flags (the_client s c)) CLIENT_DIRTY_EXEC
               then shared_execaborterr else shared_nullmultibulk) s);
    Some (handle_monitor c s1)
  else if readonly_slave_gate c s then
    s1 ← discardTransaction c
           (addReplyError c
              "Transaction contains write commands but instance is now a read-only slave. EXEC aborted."
              s);
    Some (handle_monitor c s1)
  else
    s1 ← unwatchAllKeys c s;
    let orig_argv := argv (the_client s1 c) in
    let orig_cmd := cmd (the_client s1 c) in
    let s2 := addReplyMultiBulkLen c (count (mstate (the_client s1 c))) s1 in
    match exec_loop fuel c 0 false s2 with
    | None => None
    | Some (s3, must_propagate) =>
        let s4 := on_client c (set_command orig_argv orig_cmd) s3 in
        s5 ← discardTransaction c s4;
        Some (handle_monitor c
                (if must_propagate then exec_finish was_master s5 else s5))
    end.

End Multi.

(** ** The watch index seen from both sides *)

(** The clients listed under key bytes [k] in the index of database [d]. *)
Definition watchers (s : redisServer) (d : nat) (k : string) : list nat :=
  default [] (db_watched_keys (the_db s d) !! k).

(** What identifies a watched key: its database and its bytes. *)
Definition wk_id (wk : watchedKey) : nat * string := (wk_db wk, ptr (key wk)).

(** The pairs a client watches. *)
Definition watched_ids (s : redisServer) (c : nat) : list (nat * string) :=
  wk_id <$> watched_keys (the_client s c).

(** BI-1: a client is listed under a key exactly when it watches the key. *)
Definition bidirectional (s : redisServer) : Prop :=
  ∀ c d k, c ∈ watchers s d k ↔ (d, k) ∈ watched_ids s c.

(** The well-formed index: BI-1, and no list names anything twice. *)
Definition index_ok (s : redisServer) : Prop :=
  bidirectional s
  ∧ (∀ d k, NoDup (watchers s d k))
  ∧ (∀ c, NoDup (watched_ids s c)).

(** Two states with the same index, on both sides. *)
Definition same_index (s s' : redisServer) : Prop :=
  (∀ d, db_watched_keys (the_db s' d) = db_watched_keys (the_db s d))
  ∧ ∀ c, watched_keys (the_client s' c) = watched_keys (the_client s c).

(** What lies outside the client objects and the databases. *)
Definition frame (s : redisServer) :=
  (clients s, monitors s, loading s, masterhost s, repl_slave_ro s, repl_backlog s,
   dirty s, server_multiCommand s, propagated s, monitor_feed s).

(** The content and the number of a database. *)
Definition store (s : redisServer) (d : nat) : gmap string string * Z :=
  (dict (the_db s d), id (the_db s d)).

(** Nothing was executed for client [c] between [s] and [s']: no frame was
    propagated, the counter, the role, the backlog and the databases are as
    they were, and no other client was written to. *)
Definition nothing_ran (c : nat) (s s' : redisServer) : Prop :=
  propagated s' = propagated s
  ∧ dirty s' = dirty s
  ∧ repl_backlog s' = repl_backlog s
  ∧ masterhost s' = masterhost s
  ∧ (∀ d, store s' d = store s d)
  ∧ (∀ c', c' ≠ c → the_client s' c' = the_client s c').

(** BI-6: the flags of the queue are the bitwise OR of the flags of the
    queued descriptors. *)
Definition flags_of_queue (q : list multiCmd) : Z :=
  foldl (λ acc mc, Z.lor acc (rc_flags (mc_cmd mc))) 0%Z q.

Definition queue_flags_ok (x : client) : Prop :=
  cmd_flags (mstate x) = flags_of_queue (commands (mstate x)).

(** A server in which nothing is watched. *)
Definition no_watch (s : redisServer) : Prop :=
  (∀ d, db_watched_keys (the_db s d) = ∅)
  ∧ (∀ c, watched_keys (the_client s c) = []).

(** A server with no client, no database content and no watch. *)
Definition init_server (multi : redisCommand) : redisServer :=
  {| server_db := ∅; client_heap := ∅; clients := []; monitors := [];
     loading := false; masterhost := None; repl_slave_ro := true;
     repl_backlog := None; dirty := 0; server_multiCommand := multi;
     propagated := []; monitor_feed := [] |}.

(** ** The points between two commands

    What happens to the state between two commands: the entry points of
    multi.c, and around them the dispatcher installing a command on a client
    or selecting a database, the store replacing the content of a database,
    and a client being linked into [server.clients]. *)
Inductive event :=
| EvInstall (c : nat) (a : list robj) (d : redisCommand)
| EvSelect (c : nat) (d : nat)
| EvStore (d : nat) (m : gmap string string)
| EvLink (c : nat)
| EvWatchKey (c : nat) (k : robj)
| EvWatch (c : nat)
| EvUnwatchAll (c : nat)
| EvUnwatch (c : nat)
| EvTouch (d : nat) (k : robj)
| EvTouchOnFlush (dbid : Z)
| EvMulti (c : nat)
| EvQueue (c : nat)
| EvFlag (c : nat)
| EvDiscard (c : nat)
| EvExec (fuel : nat) (c : nat).

Definition set_client_db (d : nat) (c : client) : client :=
  {| db := d; argv := argv c; cmd := cmd c; flags := flags c; mstate := mstate c;
     watched_keys := watched_keys c; reply_buf := reply_buf c |}.

Definition set_dict (m : gmap string string) (d : redisDb) : redisDb :=
  {| dict := m; db_watched_keys := db_watched_keys d; id := id d |}.

Definition set_clients (l : list nat) (s : redisServer) : redisServer :=
  {| server_db := server_db s; client_heap := client_heap s; clients := l;
     monitors := monitors s; loading := loading s; masterhost := masterhost s;
     repl_slave_ro := repl_slave_ro s; repl_backlog := repl_backlog s;
     dirty := dirty s; server_multiCommand := server_multiCommand s;
     propagated := propagated s; monitor_feed := monitor_feed s |}.

Definition set_masterhost (h : option string) (s : redisServer) : redisServer :=
  {| server_db := server_db s; client_heap := client_heap s; clients := clients s;
     monitors := monitors s; loading := loading s; masterhost := h;
     repl_slave_ro := repl_slave_ro s; repl_backlog := repl_backlog s;
     dirty := dirty s; server_multiCommand := server_multiCommand s;
     propagated := propagated s; monitor_feed := monitor_feed s |}.

Section Run.
Context `{ServerH}.
Variable call : nat → Z → redisServer → redisServer.

(** What is asked of the executor: it leaves the queue of the client it runs
    a command for as it is, and it keeps the watch index well formed. *)
Definition keeps_queue : Prop :=
  ∀ c fl s,
    commands (mstate (the_client (call c fl s) c)) = commands (mstate (the_client s c)).

Definition keeps_index : Prop :=
  ∀ c fl s, index_ok s → index_ok (call c fl s).

(** The executor propagates nothing for a command that is read-only or
    administrative. *)
Definition quiet_on_reads : Prop :=
  ∀ c fl s,
    has (rc_flags (cmd (the_client s c))) (Z.lor CMD_READONLY CMD_ADMIN) = true →
    propagated (call c fl s) = propagated s.

(** The state after an event; [None] when the server stops on it. *)
Definition run (e : event) (s : redisServer) : option redisServer :=
  match e with
  | EvInstall c a d => Some (on_client c (set_command a d) s)
  | EvSelect c d => Some (on_client c (set_client_db d) s)
  | EvStore d m => Some (on_db d (set_dict m) s)
  | EvLink c => Some (set_clients (clients s ++ [c]) s)
  | EvWatchKey c k => Some (watchForKey c k s)
  | EvWatch c => Some (watchCommand c s)
  | EvUnwatchAll c => unwatchAllKeys c s
  | EvUnwatch c => unwatchCommand c s
  | EvTouch d k => Some (touchWatchedKey d k s)
  | EvTouchOnFlush dbid => Some (touchWatchedKeysOnFlush dbid s)
  | EvMulti c => Some (multiCommand c s)
  | EvQueue c => Some (queueMultiCommand c s)
  | EvFlag c => Some (flagTransaction c s)
  | EvDiscard c => discardCommand c s
  | EvExec fuel c => execCommand call fuel c s
  end.

(** The stable points: the states the server is in between two commands,
    starting from a server in which nothing is watched yet. *)
Inductive stable : redisServer → Prop :=
| stable_start s : no_watch s → stable s
| stable_run e s s' : stable s → run e s = Some s' → stable s'.

End Run.

Section Idle.
Context `{ServerH}.

(** The client is out of any transaction: IDLE, with an empty queue, clean
    flags and nothing watched, on its side and on the side of the databases. *)
Definition idle_clean (s : redisServer) (c : nat) : Prop :=
  has (flags (the_client s c)) CLIENT_MULTI = false
  ∧ has (flags (the_client s c)) CLIENT_DIRTY_CAS = false
  ∧ has (flags (the_client s c)) CLIENT_DIRTY_EXEC = false
  ∧ mstate (the_client s c) = {| commands := []; cmd_flags := 0 |}
  ∧ watched_keys (the_client s c) = []
  ∧ (∀ d k, c ∉ watchers s d k).

(** The flag bits of a client that this file reads are bits of their own. *)
Definition distinct_flag_bits : Prop :=
  CLIENT_MULTI ≠ 0%Z
  ∧ CLIENT_DIRTY_CAS ≠ 0%Z
  ∧ Z.land CLIENT_DIRTY_CAS CLIENT_MULTI = 0%Z
  ∧ Z.land CLIENT_MULTI CLIENT_DIRTY_EXEC = 0%Z
  ∧ Z.land CLIENT_DIRTY_CAS CLIENT_DIRTY_EXEC = 0%Z.

End Idle.

(** The events that end what client [c] watches: its own UNWATCH, DISCARD
    and EXEC. *)
Definition ends_watch (c : nat) (e : event) : bool :=
  match e with
  | EvUnwatch c' | EvDiscard c' | EvExec _ c' => bool_decide (c' = c)
  | _ => false
  end.

(** The events that hand commands to the executor. *)
Definition runs_executor (e : event) : bool :=
  match e with
  | EvExec _ _ => true
  | _ => false
  end.

(** The executor, running a command for another client, leaves a set
    [CLIENT_DIRTY_CAS] of client [c] set. *)
Definition keeps_dirty_cas_of `{ServerH}
    (call : nat → Z → redisServer → redisServer) (c : nat) : Prop :=
  ∀ c0 fl s,
    c0 ≠ c →
    has (flags (the_client s c)) CLIENT_DIRTY_CAS = true →
    has (flags (the_client (call c0 fl s) c)) CLIENT_DIRTY_CAS = true.

(** The dispatcher queues a command for a client in MULTI: the command is
    installed on the client, then [queueMultiCommand] is called. *)
Definition queue_all `{ServerH} (c : nat) (l : list (list robj * redisCommand))
    (s : redisServer) : redisServer :=
  foldl (λ s' e, queueMultiCommand c (on_client c (set_command e.1 e.2) s')) s l.

(** ** A server to run the embedding on *)

(** A choice of the constants, each flag a bit of its own. *)
Definition sample_constants : ServerH :=
  {| CLIENT_MASTER := 2; CLIENT_MULTI := 8; CLIENT_DIRTY_CAS := 32;
     CLIENT_DIRTY_EXEC := 4096; CMD_WRITE := 1; CMD_READONLY := 2; CMD_ADMIN := 16;
     CMD_CALL_NONE := 0; CMD_CALL_FULL := 15; PROPAGATE_AOF := 1; PROPAGATE_REPL := 2 |}.

(** A small executor: a command that is read-only or administrative writes
    nothing, but for [slaveof], which gives the server a master host; any other
    command counts one change and is propagated. *)
Definition sample_call (c : nat) (fl : Z) (s : redisServer) : redisServer :=
  let x := the_client s c in
  if has (rc_flags (cmd x)) (Z.lor 2 16) then
    if String.eqb (rc_name (cmd x)) "slaveof"
    then set_masterhost (Some "10.0.0.2") s else s
  else
    propagate (cmd x) (id (the_db s (db x))) (argv x) 3 (set_dirty (dirty s + 1) s).

Definition multi_desc : redisCommand := {| rc_name := "multi"; rc_flags := 0 |}.
Definition watch_desc : redisCommand := {| rc_name := "watch"; rc_flags := 0 |}.
Definition get_desc : redisCommand := {| rc_name := "get"; rc_flags := 2 |}.
Definition set_desc : redisCommand := {| rc_name := "set"; rc_flags := 1 |}.
Definition slaveof_desc : redisCommand := {| rc_name := "slaveof"; rc_flags := 16 |}.

Definition str (a : nat) (bytes : string) : robj := {| robj_addr := a; ptr := bytes |}.

Definition sample_start : redisServer := init_server multi_desc.

(** Client 1 has sent [WATCH a]. *)
Definition sample_watch_sent : redisServer :=
  on_client 1 (set_command [str 10 "WATCH"; str 11 "a"] watch_desc) sample_start.

(** Client 1 watches key [a] of database 0. *)
Definition sample_watching : redisServer := watchForKey 1 (str 11 "a") sample_start.

(** Client 1 is linked, watches [a], and [a] is a key of database 0. *)
Definition sample_present : redisServer :=
  on_db 0 (set_dict {["a" := "1"]})
    (set_clients [1] sample_watching).

(** Client 1 is in MULTI with [CLIENT_DIRTY_CAS] set. *)
Definition sample_dirty : redisServer :=
  on_client 1 (set_flags (Z.lor 8 32)) sample_start.

(** Client 1 is in MULTI with an empty queue. *)
Definition sample_multi : redisServer := on_client 1 (set_flags 8) sample_start.

(** Client 1 is in MULTI and has queued [GET a], [SET a 1], [SLAVEOF h p]; the
    server has no master host and no replication backlog. *)
Definition sample_queued : redisServer :=
  on_client 1
    (λ x, set_mstate
            {| commands :=
                 [{| mc_argv := [str 20 "GET"; str 21 "a"]; mc_cmd := get_desc |};
                  {| mc_argv := [str 22 "SET"; str 23 "a"; str 24 "1"]; mc_cmd := set_desc |};
                  {| mc_argv := [str 25 "SLAVEOF"; str 26 "h"; str 27 "p"];
                     mc_cmd := slaveof_desc |}];
               cmd_flags := 19 |} x)
    sample_multi.

(** The same with an empty replication backlog in place. *)
Definition sample_backlog : redisServer := set_repl_backlog (Some "") sample_queued.

(** The same on a read-only slave. *)
Definition sample_slave : redisServer := set_masterhost (Some "10.0.0.2") sample_queued.

(** Client 1 is dirty in MULTI, and client 2 is in MULTI with [SET a 1]
    queued. *)
Definition sample_two_clients : redisServer :=
  on_client 2
    (λ x, set_mstate
            {| commands :=
                 [{| mc_argv := [str 22 "SET"; str 23 "a"; str 24 "1"]; mc_cmd := set_desc |}];
               cmd_flags := 1 |} (set_flags 8 x))
    sample_dirty.

(** The same with [CLIENT_DIRTY_CAS] set on the client. *)
Definition sample_slave_dirty : redisServer :=
  on_client 1 (set_flags (Z.lor 8 32)) sample_slave.

(** ** Further invariants *)

(** BI-3: no key of a table of watched keys is left with an empty list. *)
Definition pruned (s : redisServer) : Prop :=
  ∀ d k cl, db_watched_keys (the_db s d) !! k = Some cl → cl ≠ [].

(** The executor leaves no key with an empty list of watchers. *)
Definition keeps_pruned (call : nat → Z → redisServer → redisServer) : Prop :=
  ∀ c fl s, pruned s → pruned (call c fl s).

(** Between [s] and [s'] client [c] was sent [r] and nothing else happened. *)
Definition only_replied (c : nat) (r : replyItem) (s s' : redisServer) : Prop :=
  the_client s' c = push_reply r (the_client s c)
  ∧ (∀ c', c' ≠ c → the_client s' c' = the_client s c')
  ∧ server_db s' = server_db s
  ∧ frame s' = frame s.

(** The queue entry the dispatcher makes of a command. *)
Definition queued_entry (e : list robj * redisCommand) : multiCmd :=
  {| mc_argv := e.1; mc_cmd := e.2 |}.

(** Client 1 has sent a WATCH of two keys, the second twice. *)
Definition sample_watch_two : redisServer :=
  on_client 1
    (set_command [str 10 "WATCH"; str 11 "a"; str 12 "b"; str 13 "b"] watch_desc)
    sample_start.

(** Client 2 watches [a] as well, before client 1. *)
Definition sample_shared : redisServer :=
  watchForKey 1 (str 11 "a") (watchForKey 2 (str 14 "a") sample_start).

(** Monitors are attached to the server where client 1 is dirty. *)
Definition sample_monitored : redisServer :=
  {| server_db := server_db sample_dirty; client_heap := client_heap sample_dirty;
     clients := clients sample_dirty; monitors := [9];
     loading := loading sample_dirty; masterhost := masterhost sample_dirty;
     repl_slave_ro := repl_slave_ro sample_dirty;
     repl_backlog := repl_backlog sample_dirty; dirty := dirty sample_dirty;
     server_multiCommand := server_multiCommand sample_dirty;
     propagated := propagated sample_dirty; monitor_feed := monitor_feed sample_dirty |}.

(** * Properties *)

(** ** Flag words *)

Lemma has_true (x m : Z) : has x m = true ↔ Z.land x m ≠ 0%Z.
Proof.
  unfold has. rewrite negb_true_iff, Z.eqb_neq. done.
Qed.

Lemma has_false (x m : Z) : has x m = false ↔ Z.land x m = 0%Z.
Proof.
  unfold has. rewrite negb_false_iff, Z.eqb_eq. done.
Qed.

Lemma land_lor_self (x m : Z) : Z.land (Z.lor x m) m = m.
Proof.
  apply Z.bits_inj'. intros n Hn.
  rewrite Z.land_spec, Z.lor_spec.
  destruct (Z.testbit x n), (Z.testbit m n); done.
Qed.

Lemma has_set (x m : Z) : m ≠ 0%Z → has (Z.lor x m) m = true.
Proof.
  intros Hm. apply has_true. by rewrite land_lor_self.
Qed.

Lemma has_lor_keep (x m m' : Z) : has x m = true → has (Z.lor x m') m = true.
Proof.
  rewrite !has_true. intros Hx Hz. apply Hx.
  rewrite Z.land_lor_distr_l in Hz. apply Z.lor_eq_0_iff in Hz. tauto.
Qed.

Lemma has_lor_other (x m m' : Z) :
  Z.land m' m = 0%Z → has (Z.lor x m') m = has x m.
Proof.
  intros Hd. unfold has. by rewrite Z.land_lor_distr_l, Hd, Z.lor_0_r.
Qed.

Lemma has_lor_mask (x a b : Z) : has x (Z.lor a b) = has x a || has x b.
Proof.
  unfold has. rewrite Z.land_lor_distr_r.
  destruct (Z.eqb_spec (Z.land x a) 0) as [Ha|Ha], (Z.eqb_spec (Z.land x b) 0) as [Hb|Hb];
    simpl; rewrite ?negb_true_iff, ?negb_false_iff, ?Z.eqb_eq, ?Z.eqb_neq;
    rewrite Z.lor_eq_0_iff; tauto.
Qed.

(** Clearing a mask clears every bit the mask holds. *)
Lemma has_cleared (x mask m : Z) :
  Z.land mask m = m → has (Z.land x (Z.lnot mask)) m = false.
Proof.
  intros Hsub. apply has_false. apply Z.bits_inj'. intros n Hn.
  rewrite !Z.land_spec, Z.bits_0, Z.lnot_spec by done.
  assert (Hb : Z.testbit (Z.land mask m) n = Z.testbit m n) by by rewrite Hsub.
  rewrite Z.land_spec in Hb.
  destruct (Z.testbit x n), (Z.testbit mask n), (Z.testbit m n); done.
Qed.

Lemma land_lor_l (a b : Z) : Z.land (Z.lor a b) a = a.
Proof.
  rewrite Z.lor_comm. apply land_lor_self.
Qed.

Lemma lor_lor_self (x m : Z) : Z.lor (Z.lor x m) m = Z.lor x m.
Proof.
  by rewrite <- Z.lor_assoc, Z.lor_diag.
Qed.

(** ** Reading a state after a write *)

Lemma the_client_on_client (c : nat) (f : client → client) (s : redisServer) :
  the_client (on_client c f s) c = f (the_client s c).
Proof.
  unfold the_client, on_client. simpl. apply lookup_total_insert_eq.
Qed.

Lemma the_client_on_client_ne (c c' : nat) (f : client → client) (s : redisServer) :
  c ≠ c' → the_client (on_client c f s) c' = the_client s c'.
Proof.
  intros Hne. unfold the_client, on_client. simpl. by apply lookup_total_insert_ne.
Qed.

Lemma the_client_on_client_case (c c' : nat) (f : client → client) (s : redisServer) :
  the_client (on_client c f s) c'
  = if decide (c = c') then f (the_client s c') else the_client s c'.
Proof.
  case_decide as Hc.
  - subst. apply the_client_on_client.
  - by apply the_client_on_client_ne.
Qed.

Lemma the_db_on_client (c d : nat) (f : client → client) (s : redisServer) :
  the_db (on_client c f s) d = the_db s d.
Proof. done. Qed.

Lemma the_db_on_db (d : nat) (f : redisDb → redisDb) (s : redisServer) :
  the_db (on_db d f s) d = f (the_db s d).
Proof.
  unfold the_db, on_db. simpl. apply lookup_total_insert_eq.
Qed.

Lemma the_db_on_db_ne (d d' : nat) (f : redisDb → redisDb) (s : redisServer) :
  d ≠ d' → the_db (on_db d f s) d' = the_db s d'.
Proof.
  intros Hne. unfold the_db, on_db. simpl. by apply lookup_total_insert_ne.
Qed.

Lemma the_client_on_db (d c : nat) (f : redisDb → redisDb) (s : redisServer) :
  the_client (on_db d f s) c = the_client s c.
Proof. done. Qed.

(** The clients listed under a key after the table of one database was
    replaced. *)
Lemma watchers_on_db (d d' : nat) (w : gmap string (list nat)) (k : string)
    (s : redisServer) :
  watchers (on_db d (set_db_watched_keys w) s) d' k
  = if decide (d = d') then default [] (w !! k) else watchers s d' k.
Proof.
  unfold watchers. case_decide as Hd.
  - subst. by rewrite the_db_on_db.
  - by rewrite the_db_on_db_ne.
Qed.

Lemma watchers_on_client (c d : nat) (f : client → client) (k : string)
    (s : redisServer) :
  watchers (on_client c f s) d k = watchers s d k.
Proof. done. Qed.

Lemma watched_ids_on_db (d c : nat) (f : redisDb → redisDb) (s : redisServer) :
  watched_ids (on_db d f s) c = watched_ids s c.
Proof. done. Qed.

Lemma watched_ids_on_client (c c' : nat) (f : client → client) (s : redisServer) :
  watched_ids (on_client c f s) c'
  = if decide (c = c') then wk_id <$> watched_keys (f (the_client s c'))
    else watched_ids s c'.
Proof.
  unfold watched_ids. rewrite the_client_on_client_case. by case_decide.
Qed.

(** ** States with the same index *)

Lemma same_index_refl (s : redisServer) : same_index s s.
Proof. by split. Qed.

Lemma same_index_trans (s1 s2 s3 : redisServer) :
  same_index s1 s2 → same_index s2 s3 → same_index s1 s3.
Proof.
  intros [Hd1 Hw1] [Hd2 Hw2]. split.
  - intros d. by rewrite Hd2.
  - intros c. by rewrite Hw2.
Qed.

Lemma same_index_watchers (s s' : redisServer) (d : nat) (k : string) :
  same_index s s' → watchers s' d k = watchers s d k.
Proof.
  intros [Hd _]. unfold watchers. by rewrite Hd.
Qed.

Lemma same_index_watched_ids (s s' : redisServer) (c : nat) :
  same_index s s' → watched_ids s' c = watched_ids s c.
Proof.
  intros [_ Hw]. unfold watched_ids. by rewrite Hw.
Qed.

Lemma same_index_ok (s s' : redisServer) :
  same_index s s' → index_ok s → index_ok s'.
Proof.
  intros Hs (Hbi & Hnd & Hnw). repeat split.
  - rewrite (same_index_watchers s s'), (same_index_watched_ids s s') by done.
    apply Hbi.
  - rewrite (same_index_watchers s s'), (same_index_watched_ids s s') by done.
    apply Hbi.
  - intros d k. by rewrite (same_index_watchers s s').
  - intros c. by rewrite (same_index_watched_ids s s').
Qed.

(** A write to a client that keeps its list of watched keys. *)
Lemma same_index_on_client (c : nat) (f : client → client) (s : redisServer) :
  (∀ x, watched_keys (f x) = watched_keys x) → same_index s (on_client c f s).
Proof.
  intros Hf. split; [done|]. intros c'.
  rewrite the_client_on_client_case. case_decide; [apply Hf | done].
Qed.

Lemma on_client_index_ok (c : nat) (f : client → client) (s : redisServer) :
  (∀ x, watched_keys (f x) = watched_keys x) → index_ok s → index_ok (on_client c f s).
Proof.
  intros Hf. apply same_index_ok. by apply same_index_on_client.
Qed.

Lemma no_watch_index_ok (s : redisServer) : no_watch s → index_ok s.
Proof.
  intros [Hd Hc]. repeat split.
  - unfold watchers. rewrite Hd, lookup_empty. simpl. by intros ?%elem_of_nil.
  - unfold watched_ids. rewrite Hc. simpl. by intros ?%elem_of_nil.
  - intros d k. unfold watchers. rewrite Hd, lookup_empty. apply NoDup_nil_2.
  - intros c. unfold watched_ids. rewrite Hc. apply NoDup_nil_2.
Qed.

(** ** WATCH keeps the index well formed *)

Lemma already_watched_spec (x : client) (k : robj) :
  already_watched x k = true ↔ (db x, ptr k) ∈ wk_id <$> watched_keys x.
Proof.
  unfold already_watched. induction (watched_keys x) as [|wk l IH]; simpl.
  - split; [done | by intros ?%elem_of_nil].
  - rewrite orb_true_iff, IH, elem_of_cons, andb_true_iff.
    unfold equalStringObjects. rewrite !bool_decide_eq_true.
    split.
    + intros [[Hd Hk] | Hin]; [left; unfold wk_id; congruence | by right].
    + intros [Heq | Hin]; [left; unfold wk_id in Heq; by simplify_eq | by right].
Qed.

Lemma already_watched_not (x : client) (k : robj) :
  already_watched x k = false ↔ (db x, ptr k) ∉ wk_id <$> watched_keys x.
Proof.
  rewrite <- already_watched_spec. by destruct (already_watched x k).
Qed.

(** What a new watch leaves on the side of the databases. *)
Lemma watchForKey_watchers (c : nat) (k : robj) (s : redisServer) (d : nat)
    (k' : string) :
  already_watched (the_client s c) k = false →
  watchers (watchForKey c k s) d k'
  = if decide ((d, k') = (db (the_client s c), ptr k))
    then watchers s d k' ++ [c] else watchers s d k'.
Proof.
  intros Hnew. unfold watchForKey. rewrite Hnew.
  rewrite watchers_on_client, watchers_on_db.
  destruct (decide (db (the_client s c) = d)) as [<-|Hd].
  - destruct (decide (k' = ptr k)) as [->|Hk].
    + rewrite decide_True by done. by rewrite lookup_insert_eq.
    + rewrite decide_False by congruence. by rewrite lookup_insert_ne.
  - rewrite decide_False by congruence. done.
Qed.

(** What a new watch leaves on the side of the clients. *)
Lemma watchForKey_watched_ids (c : nat) (k : robj) (s : redisServer) (c' : nat) :
  already_watched (the_client s c) k = false →
  watched_ids (watchForKey c k s) c'
  = if decide (c = c') then watched_ids s c' ++ [(db (the_client s c), ptr k)]
    else watched_ids s c'.
Proof.
  intros Hnew. unfold watchForKey. rewrite Hnew.
  rewrite watched_ids_on_client. case_decide as Hc; [|done].
  subst c'. rewrite the_client_on_db. simpl. by rewrite fmap_app.
Qed.

Lemma watchForKey_index_ok (c : nat) (k : robj) (s : redisServer) :
  index_ok s → index_ok (watchForKey c k s).
Proof.
  intros (Hbi & Hnd & Hnw).
  destruct (already_watched (the_client s c) k) eqn:Hw.
  { unfold watchForKey. rewrite Hw. done. }
  pose proof Hw as Hnot. apply already_watched_not in Hnot.
  fold (watched_ids s c) in Hnot.
  unfold bidirectional in Hbi.
  assert (Hc : c ∉ watchers s (db (the_client s c)) (ptr k)) by by rewrite Hbi.
  split_and!.
  - intros c' d k'.
    rewrite watchForKey_watchers, watchForKey_watched_ids by done.
    destruct (decide ((d, k') = (db (the_client s c), ptr k))) as [Hk|Hk],
      (decide (c = c')) as [Hc'|Hc'];
      rewrite ?elem_of_app, ?list_elem_of_singleton, <- ?(Hbi c' d k').
    + split; intros _; by right.
    + split; [intros [?|?]; [done | congruence] | by left].
    + split; [by left | intros [?|?]; [done | congruence]].
    + done.
  - intros d k'. rewrite watchForKey_watchers by done. case_decide; simplify_eq; [|done].
    apply NoDup_app. split_and!; [done | | apply NoDup_singleton].
    intros x Hx ->%list_elem_of_singleton. done.
  - intros c'. rewrite watchForKey_watched_ids by done. case_decide; simplify_eq; [|done].
    apply NoDup_app. split_and!; [done | | apply NoDup_singleton].
    intros x Hx ->%list_elem_of_singleton. done.
Qed.

(** ** UNWATCH keeps the index well formed *)

Lemma list_del_first_other (c c' : nat) (l : list nat) :
  c' ≠ c → c' ∈ list_del_first c l ↔ c' ∈ l.
Proof.
  intros Hne. induction l as [|x l IH]; simpl; [done|].
  case_decide as Hx.
  - subst x. rewrite elem_of_cons. split; [by right | by intros [?|?]].
  - rewrite !elem_of_cons, IH. done.
Qed.

Lemma list_del_first_subseteq (c : nat) (l : list nat) : list_del_first c l ⊆ l.
Proof.
  induction l as [|x l IH]; simpl; [done|].
  case_decide; intros y Hy.
  - by apply list_elem_of_further.
  - apply elem_of_cons in Hy as [->|Hy]; [apply list_elem_of_here|].
    by apply list_elem_of_further, IH.
Qed.

Lemma list_del_first_gone (c : nat) (l : list nat) :
  NoDup l → c ∉ list_del_first c l.
Proof.
  induction 1 as [|x l Hx Hl IH]; simpl; [by intros ?%elem_of_nil|].
  case_decide as Hc.
  - by subst x.
  - rewrite elem_of_cons. intros [?|?]; [congruence | by apply IH].
Qed.

Lemma list_del_first_NoDup (c : nat) (l : list nat) :
  NoDup l → NoDup (list_del_first c l).
Proof.
  induction 1 as [|x l Hx Hl IH]; simpl; [apply NoDup_nil_2|].
  case_decide; [done|]. apply NoDup_cons. split; [|done].
  intros Hin. apply Hx. by apply (list_del_first_subseteq c).
Qed.

Lemma unlinked_lookup (c : nat) (k k' : string) (cl : list nat)
    (w : gmap string (list nat)) :
  default [] (unlinked c k cl w !! k')
  = if decide (k = k') then list_del_first c cl else default [] (w !! k').
Proof.
  unfold unlinked. destruct (decide (k = k')) as [<-|Hk].
  - case_decide as Hl.
    + rewrite lookup_delete_eq. simpl. symmetry. by apply nil_length_inv.
    + by rewrite lookup_insert_eq.
  - case_decide; by rewrite ?lookup_delete_ne, ?lookup_insert_ne.
Qed.

(** One turn of the loop of [unwatchAllKeys] on a well-formed index: the
    assertion holds, the node is found, and the index stays well formed. *)
Lemma unwatch_turn_ok (c : nat) (wk : watchedKey) (rest : list watchedKey)
    (s : redisServer) :
  index_ok s →
  watched_keys (the_client s c) = wk :: rest →
  ∃ cl, db_watched_keys (the_db s (wk_db wk)) !! ptr (key wk) = Some cl
    ∧ c ∈ cl
    ∧ index_ok
        (on_client c (set_watched_keys rest)
           (on_db (wk_db wk)
              (set_db_watched_keys
                 (unlinked c (ptr (key wk)) cl (db_watched_keys (the_db s (wk_db wk))))) s)).
Proof.
  intros (Hbi & Hnd & Hnw) Hwks. unfold bidirectional in Hbi.
  assert (Hids : watched_ids s c = wk_id wk :: (wk_id <$> rest)).
  { unfold watched_ids. by rewrite Hwks. }
  assert (Hin : c ∈ watchers s (wk_db wk) (ptr (key wk))).
  { apply Hbi. rewrite Hids. apply elem_of_cons. by left. }
  pose proof (Hnd (wk_db wk) (ptr (key wk))) as Hndk.
  pose proof (Hnw c) as Hnwc. rewrite Hids in Hnwc. apply NoDup_cons in Hnwc as [Hhd Hrest].
  unfold watchers in Hin, Hndk.
  destruct (db_watched_keys (the_db s (wk_db wk)) !! ptr (key wk)) as [cl|] eqn:Hcl;
    simpl in Hin, Hndk; [|by apply elem_of_nil in Hin].
  exists cl. split_and!; [done | done |].
  set (s1 := on_client c _ _).
  assert (Hw1 : ∀ d k, watchers s1 d k
     = if decide ((wk_db wk, ptr (key wk)) = (d, k)) then list_del_first c cl
       else watchers s d k).
  { intros d k. unfold s1. rewrite watchers_on_client, watchers_on_db.
    destruct (decide (wk_db wk = d)) as [<-|Hd].
    - rewrite unlinked_lookup. destruct (decide (ptr (key wk) = k)) as [<-|Hk].
      + by rewrite decide_True.
      + by rewrite decide_False by congruence.
    - by rewrite decide_False by congruence. }
  assert (Hi1 : ∀ c', watched_ids s1 c'
     = if decide (c = c') then wk_id <$> rest else watched_ids s c').
  { intros c'. unfold s1. rewrite watched_ids_on_client. by case_decide. }
  split_and!.
  - intros c' d k. rewrite Hw1, Hi1.
    destruct (decide ((wk_db wk, ptr (key wk)) = (d, k))) as [Hk|Hk],
      (decide (c = c')) as [Hc|Hc].
    + subst c'. rewrite <- Hk. split; [|done].
      intros Hc. by apply list_del_first_gone in Hc.
    + rewrite list_del_first_other by done. rewrite <- Hbi. unfold watchers.
      injection Hk as <- <-. by rewrite Hcl.
    + subst c'. rewrite Hbi, Hids, elem_of_cons. unfold wk_id at 1.
      split; [intros [?|?]; [congruence | done] | by right].
    + apply Hbi.
  - intros d k. rewrite Hw1. case_decide; [by apply list_del_first_NoDup | apply Hnd].
  - intros c'. rewrite Hi1. case_decide; [done | apply Hnw].
Qed.

Lemma set_watched_keys_twice (l l' : list watchedKey) (x : client) :
  set_watched_keys l (set_watched_keys l' x) = set_watched_keys l x.
Proof. done. Qed.

Lemma set_watched_keys_same (x : client) : set_watched_keys (watched_keys x) x = x.
Proof. by destruct x. Qed.

(** On a well-formed index the loop of [unwatchAllKeys] runs to its end; it
    empties the list of the client, keeps the index well formed and touches
    nothing else. *)
Lemma unwatch_keys_ok (c : nat) (wks : list watchedKey) (s : redisServer) :
  index_ok s →
  watched_keys (the_client s c) = wks →
  ∃ s', unwatch_keys c wks s = Some s'
    ∧ index_ok s'
    ∧ frame s' = frame s
    ∧ (∀ d, store s' d = store s d)
    ∧ the_client s' c = set_watched_keys [] (the_client s c)
    ∧ (∀ c', c' ≠ c → the_client s' c' = the_client s c').
Proof.
  revert s. induction wks as [|wk rest IH]; intros s Hok Hwks.
  - exists s. split_and!; try done.
    by rewrite <- Hwks, set_watched_keys_same.
  - destruct (unwatch_turn_ok c wk rest s Hok Hwks) as (cl & Hcl & Hin & Hok1).
    simpl. rewrite Hcl, decide_True by done.
    set (s1 := on_client c _ _) in *.
    destruct (IH s1 Hok1) as (s' & Hrun & Hok' & Hfr & Hst & Hc & Hother).
    { unfold s1. by rewrite the_client_on_client. }
    exists s'. split_and!; try done.
    + intros d. rewrite Hst. unfold s1, store. rewrite !the_db_on_client.
      destruct (decide (wk_db wk = d)) as [<-|Hd].
      * by rewrite the_db_on_db.
      * by rewrite the_db_on_db_ne.
    + rewrite Hc. unfold s1. by rewrite the_client_on_client, the_client_on_db.
    + intros c' Hc'. rewrite Hother by done. unfold s1.
      by rewrite the_client_on_client_ne.
Qed.

Lemma unwatchAllKeys_ok (c : nat) (s : redisServer) :
  index_ok s →
  ∃ s', unwatchAllKeys c s = Some s'
    ∧ index_ok s'
    ∧ frame s' = frame s
    ∧ (∀ d, store s' d = store s d)
    ∧ the_client s' c = set_watched_keys [] (the_client s c)
    ∧ (∀ c', c' ≠ c → the_client s' c' = the_client s c').
Proof.
  intros Hok. unfold unwatchAllKeys. case_decide as Hlen.
  - exists s. split_and!; try done.
    apply nil_length_inv in Hlen. by rewrite <- Hlen, set_watched_keys_same.
  - by apply unwatch_keys_ok.
Qed.

(** After [unwatchAllKeys] the client is listed under no key. *)
Lemma unwatched_nowhere (c : nat) (s : redisServer) :
  index_ok s → watched_keys (the_client s c) = [] → ∀ d k, c ∉ watchers s d k.
Proof.
  intros (Hbi & _) Hnil d k Hin. apply Hbi in Hin.
  unfold watched_ids in Hin. rewrite Hnil in Hin. by apply elem_of_nil in Hin.
Qed.

(** ** Touching watched keys *)

Lemma on_client_idem (c : nat) (f : client → client) (s : redisServer) :
  (∀ x, f (f x) = f x) → on_client c f (on_client c f s) = on_client c f s.
Proof.
  intros Hf. unfold on_client at 1. rewrite the_client_on_client, Hf.
  unfold on_client. simpl. by rewrite insert_insert_eq.
Qed.

(** The same idempotent write made to each client of a list. *)
Lemma foldl_on_client (f : client → client) (cl : list nat) (s : redisServer) :
  (∀ x, f (f x) = f x) →
  let s' := foldl (λ s0 c, on_client c f s0) s cl in
  (∀ c, the_client s' c = if decide (c ∈ cl) then f (the_client s c) else the_client s c)
  ∧ server_db s' = server_db s
  ∧ frame s' = frame s.
Proof.
  intros Hf. revert s. induction cl as [|a cl IH]; intros s; simpl.
  - split_and!; try done; intros c; by rewrite decide_False by apply not_elem_of_nil.
  - destruct (IH (on_client a f s)) as (Hc & Hdb & Hfr). split_and!; try done.
    intros c. rewrite Hc, the_client_on_client_case.
    destruct (decide (a = c)) as [->|Hac].
    + rewrite (decide_True (P := c ∈ c :: cl)) by apply list_elem_of_here.
      by case_decide.
    + destruct (decide (c ∈ cl)) as [Hin|Hin].
      * by rewrite decide_True by by apply list_elem_of_further.
      * rewrite decide_False; [done|]. rewrite elem_of_cons.
        intros [?|?]; [congruence | done].
Qed.

Section Touch.
Context `{ServerH}.

Lemma set_dirty_cas_twice (x : client) : set_dirty_cas (set_dirty_cas x) = set_dirty_cas x.
Proof.
  unfold set_dirty_cas, set_flags. simpl. by rewrite lor_lor_self.
Qed.

Lemma set_dirty_cas_watched_keys (x : client) :
  watched_keys (set_dirty_cas x) = watched_keys x.
Proof. done. Qed.

Lemma has_set_dirty_cas (x : client) :
  CLIENT_DIRTY_CAS ≠ 0%Z → has (flags (set_dirty_cas x)) CLIENT_DIRTY_CAS = true.
Proof.
  intros Hne. simpl. by apply has_set.
Qed.

(** [touchWatchedKey] read from the side of the databases: the clients
    listed under the key get the flag, nothing else is written. *)
Lemma touchWatchedKey_clients (d : nat) (k : robj) (s : redisServer) :
  let s' := touchWatchedKey d k s in
  (∀ c, the_client s' c
        = if decide (c ∈ watchers s d (ptr k)) then set_dirty_cas (the_client s c)
          else the_client s c)
  ∧ server_db s' = server_db s
  ∧ frame s' = frame s.
Proof.
  unfold touchWatchedKey, watchers. case_decide as Hsize.
  - apply map_size_empty_iff in Hsize. rewrite Hsize, lookup_empty. simpl.
    split_and!; try done; intros c; by rewrite decide_False by apply not_elem_of_nil.
  - destruct (db_watched_keys (the_db s d) !! ptr k) as [cl|]; simpl.
    + apply (foldl_on_client set_dirty_cas cl s), set_dirty_cas_twice.
    + split_and!; try done; intros c; by rewrite decide_False by apply not_elem_of_nil.
Qed.

Lemma touchWatchedKey_same_index (d : nat) (k : robj) (s : redisServer) :
  same_index s (touchWatchedKey d k s).
Proof.
  destruct (touchWatchedKey_clients d k s) as (Hc & Hdb & _). split.
  - intros d'. unfold the_db. by rewrite Hdb.
  - intros c. rewrite Hc. by case_decide.
Qed.

(** The test of [touchWatchedKeysOnFlush] only reads the databases. *)
Lemma flush_hits_ext (dbid : Z) (s s' : redisServer) (wk : watchedKey) :
  server_db s' = server_db s → flush_hits dbid s' wk = flush_hits dbid s wk.
Proof.
  intros Hdb. unfold flush_hits, the_db. by rewrite Hdb.
Qed.

(** The inner loop of [touchWatchedKeysOnFlush]: one hit is enough. *)
Lemma touch_client_on_flush_eq (dbid : Z) (s : redisServer) (c : nat) :
  touch_client_on_flush dbid s c
  = if existsb (flush_hits dbid s) (watched_keys (the_client s c))
    then on_client c set_dirty_cas s else s.
Proof.
  unfold touch_client_on_flush.
  generalize (watched_keys (the_client s c)) as wks.
  assert (Hdone : ∀ wks,
    foldl (λ s' wk, if flush_hits dbid s' wk then on_client c set_dirty_cas s' else s')
      (on_client c set_dirty_cas s) wks = on_client c set_dirty_cas s).
  { induction wks as [|wk wks IH]; simpl; [done|].
    destruct (flush_hits dbid (on_client c set_dirty_cas s) wk); [|done].
    rewrite on_client_idem by apply set_dirty_cas_twice. apply IH. }
  induction wks as [|wk wks IH]; simpl; [done|].
  destruct (flush_hits dbid s wk); simpl; [apply Hdone | apply IH].
Qed.
End Touch.

Section Flush.
Context `{ServerH}.

Lemma existsb_flush_hits_ext (dbid : Z) (s s' : redisServer) (l : list watchedKey) :
  server_db s' = server_db s →
  existsb (flush_hits dbid s') l = existsb (flush_hits dbid s) l.
Proof.
  intros Hdb. induction l as [|wk l IH]; simpl; [done|].
  by rewrite IH, (flush_hits_ext dbid s s').
Qed.

Lemma touch_client_on_flush_client (dbid : Z) (s : redisServer) (a c : nat) :
  the_client (touch_client_on_flush dbid s a) c
  = if decide (a = c)
    then (if existsb (flush_hits dbid s) (watched_keys (the_client s c))
          then set_dirty_cas (the_client s c) else the_client s c)
    else the_client s c.
Proof.
  rewrite touch_client_on_flush_eq. case_decide as Hac.
  - subst a. destruct (existsb _ _); [apply the_client_on_client | done].
  - destruct (existsb _ _); [by apply the_client_on_client_ne | done].
Qed.

Lemma touch_client_on_flush_frame (dbid : Z) (s : redisServer) (a : nat) :
  server_db (touch_client_on_flush dbid s a) = server_db s
  ∧ frame (touch_client_on_flush dbid s a) = frame s.
Proof.
  rewrite touch_client_on_flush_eq. by destruct (existsb _ _).
Qed.

(** The outer loop of [touchWatchedKeysOnFlush] over a list of clients. *)
Lemma flush_loop_clients (dbid : Z) (l : list nat) (s : redisServer) :
  let s' := foldl (touch_client_on_flush dbid) s l in
  (∀ c, the_client s' c
        = if bool_decide (c ∈ l)
             && existsb (flush_hits dbid s) (watched_keys (the_client s c))
          then set_dirty_cas (the_client s c) else the_client s c)
  ∧ server_db s' = server_db s
  ∧ frame s' = frame s.
Proof.
  revert s. induction l as [|a l IH]; intros s; simpl.
  - split_and!; done.
  - destruct (IH (touch_client_on_flush dbid s a)) as (Hc & Hdb & Hfr).
    destruct (touch_client_on_flush_frame dbid s a) as (Hdb1 & Hfr1).
    split_and!; [|congruence|congruence].
    intros c. rewrite Hc, (existsb_flush_hits_ext dbid s) by done.
    rewrite !touch_client_on_flush_client.
    destruct (decide (a = c)) as [->|Hac].
    + rewrite (bool_decide_eq_true_2 (c ∈ c :: l)) by apply list_elem_of_here.
      destruct (existsb (flush_hits dbid s) (watched_keys (the_client s c))) eqn:Hex.
      * simpl. rewrite Hex, set_dirty_cas_twice. by destruct (bool_decide _).
      * rewrite Hex. by rewrite andb_false_r.
    + assert (Hl : bool_decide (c ∈ a :: l) = bool_decide (c ∈ l)).
      { apply bool_decide_ext. rewrite elem_of_cons.
        split; [intros [?|?]; [congruence | done] | by right]. }
      by rewrite Hl.
Qed.

Lemma touchWatchedKeysOnFlush_clients (dbid : Z) (s : redisServer) :
  let s' := touchWatchedKeysOnFlush dbid s in
  (∀ c, the_client s' c
        = if bool_decide (c ∈ clients s)
             && existsb (flush_hits dbid s) (watched_keys (the_client s c))
          then set_dirty_cas (the_client s c) else the_client s c)
  ∧ server_db s' = server_db s
  ∧ frame s' = frame s.
Proof. apply flush_loop_clients. Qed.

Lemma touchWatchedKeysOnFlush_same_index (dbid : Z) (s : redisServer) :
  same_index s (touchWatchedKeysOnFlush dbid s).
Proof.
  destruct (touchWatchedKeysOnFlush_clients dbid s) as (Hc & Hdb & _). split.
  - intros d. unfold the_db. by rewrite Hdb.
  - intros c. rewrite Hc. by destruct (_ && _).
Qed.

(** The test on one watched key, in words. *)
Lemma flush_hits_spec (dbid : Z) (s : redisServer) (wk : watchedKey) :
  flush_hits dbid s wk = true
  ↔ (dbid = (-1)%Z ∨ id (the_db s (wk_db wk)) = dbid)
    ∧ is_Some (dict (the_db s (wk_db wk)) !! ptr (key wk)).
Proof.
  unfold flush_hits.
  rewrite andb_true_iff, orb_true_iff, !Z.eqb_eq, bool_decide_eq_true. done.
Qed.

Lemma existsb_flush_hits_spec (dbid : Z) (s : redisServer) (l : list watchedKey) :
  existsb (flush_hits dbid s) l = true
  ↔ ∃ wk, wk ∈ l
      ∧ (dbid = (-1)%Z ∨ id (the_db s (wk_db wk)) = dbid)
      ∧ is_Some (dict (the_db s (wk_db wk)) !! ptr (key wk)).
Proof.
  induction l as [|wk l IH]; simpl.
  - split; [done|]. intros (wk & Hin & _). by apply elem_of_nil in Hin.
  - rewrite orb_true_iff, IH, flush_hits_spec. split.
    + intros [Hhit | (wk' & Hin & Hhit)].
      * exists wk. split; [apply list_elem_of_here | done].
      * exists wk'. split; [by apply list_elem_of_further | done].
    + intros (wk' & Hin & Hhit). apply elem_of_cons in Hin as [->|Hin].
      * by left.
      * right. by exists wk'.
Qed.
End Flush.

(** ** Ending a transaction *)

Lemma mask3_1 (a b c : Z) : Z.land (Z.lor (Z.lor a b) c) a = a.
Proof.
  apply Z.bits_inj'. intros n Hn. rewrite Z.land_spec, !Z.lor_spec.
  by destruct (Z.testbit a n), (Z.testbit b n), (Z.testbit c n).
Qed.

Lemma mask3_2 (a b c : Z) : Z.land (Z.lor (Z.lor a b) c) b = b.
Proof.
  apply Z.bits_inj'. intros n Hn. rewrite Z.land_spec, !Z.lor_spec.
  by destruct (Z.testbit a n), (Z.testbit b n), (Z.testbit c n).
Qed.

Lemma mask3_3 (a b c : Z) : Z.land (Z.lor (Z.lor a b) c) c = c.
Proof.
  apply Z.bits_inj'. intros n Hn. rewrite Z.land_spec, !Z.lor_spec.
  by destruct (Z.testbit a n), (Z.testbit b n), (Z.testbit c n).
Qed.

Section Discard.
Context `{ServerH}.

(** [discardTransaction] on a well-formed index: it returns, the queue is
    empty, the three flags are cleared, nothing is watched any more, and
    nothing else is written. *)
Lemma discardTransaction_ok (c : nat) (s : redisServer) :
  index_ok s →
  ∃ s', discardTransaction c s = Some s'
    ∧ index_ok s'
    ∧ frame s' = frame s
    ∧ (∀ d, store s' d = store s d)
    ∧ (∀ c', c' ≠ c → the_client s' c' = the_client s c')
    ∧ db (the_client s' c) = db (the_client s c)
    ∧ argv (the_client s' c) = argv (the_client s c)
    ∧ cmd (the_client s' c) = cmd (the_client s c)
    ∧ reply_buf (the_client s' c) = reply_buf (the_client s c)
    ∧ mstate (the_client s' c) = {| commands := []; cmd_flags := 0 |}
    ∧ watched_keys (the_client s' c) = []
    ∧ (∀ d k, c ∉ watchers s' d k)
    ∧ has (flags (the_client s' c)) CLIENT_MULTI = false
    ∧ has (flags (the_client s' c)) CLIENT_DIRTY_CAS = false
    ∧ has (flags (the_client s' c)) CLIENT_DIRTY_EXEC = false.
Proof.
  intros Hok. unfold discardTransaction, initClientMultiState, freeClientMultiState.
  set (s1 := on_client c (set_mstate _) s).
  set (s2 := on_client c _ s1).
  assert (Hok2 : index_ok s2).
  { apply (same_index_ok s1); [by apply same_index_on_client|].
    apply (same_index_ok s); [by apply same_index_on_client | done]. }
  destruct (unwatchAllKeys_ok c s2 Hok2) as (s' & Hrun & Hok' & Hfr & Hst & Hc & Hother).
  assert (Hc2 : the_client s2 c
    = set_flags
        (Z.land (flags (the_client s c))
           (Z.lnot (Z.lor (Z.lor CLIENT_MULTI CLIENT_DIRTY_CAS) CLIENT_DIRTY_EXEC)))
        (set_mstate {| commands := []; cmd_flags := 0 |} (the_client s c))).
  { unfold s2, s1. by rewrite !the_client_on_client. }
  exists s'. rewrite Hc, Hc2. simpl. split_and!; try done.
  - intros c' Hc'. rewrite Hother by done. unfold s2, s1.
    by rewrite !the_client_on_client_ne.
  - apply unwatched_nowhere; [done|]. by rewrite Hc.
  - apply has_cleared, mask3_1.
  - apply has_cleared, mask3_2.
  - apply has_cleared, mask3_3.
Qed.

(** What [handle_monitor] writes: the feed of the monitors only. *)
Lemma handle_monitor_same_index (c : nat) (s : redisServer) :
  same_index s (handle_monitor c s).
Proof.
  unfold handle_monitor. by destruct (_ && _).
Qed.

Lemma handle_monitor_client (c c' : nat) (s : redisServer) :
  the_client (handle_monitor c s) c' = the_client s c'.
Proof.
  unfold handle_monitor. by destruct (_ && _).
Qed.

Lemma handle_monitor_watchers (c : nat) (s : redisServer) (d : nat) (k : string) :
  watchers (handle_monitor c s) d k = watchers s d k.
Proof.
  unfold handle_monitor. by destruct (_ && _).
Qed.

Lemma handle_monitor_store (c : nat) (s : redisServer) (d : nat) :
  store (handle_monitor c s) d = store s d.
Proof.
  unfold handle_monitor. by destruct (_ && _).
Qed.

(** Everything but the feed of the monitors. *)
Lemma handle_monitor_rest (c : nat) (s : redisServer) :
  propagated (handle_monitor c s) = propagated s
  ∧ dirty (handle_monitor c s) = dirty s
  ∧ repl_backlog (handle_monitor c s) = repl_backlog s
  ∧ masterhost (handle_monitor c s) = masterhost s.
Proof.
  unfold handle_monitor. by destruct (_ && _).
Qed.

Lemma frame_fields (s s' : redisServer) :
  frame s' = frame s →
  propagated s' = propagated s ∧ dirty s' = dirty s
  ∧ repl_backlog s' = repl_backlog s ∧ masterhost s' = masterhost s
  ∧ loading s' = loading s ∧ monitors s' = monitors s ∧ clients s' = clients s.
Proof.
  unfold frame. intros [= ? ? ? ? ? ? ? ? ? ?]. done.
Qed.
End Discard.

(** ** EXEC that does not run the queue *)

Section Abort.
Context `{ServerH}.

(** The common end of the two refusals of [execCommand]: a reply, then
    [discardTransaction], then the monitors. *)
Lemma refuse_ok (c : nat) (r : replyItem) (s : redisServer) :
  index_ok s →
  ∃ s1, discardTransaction c (on_client c (push_reply r) s) = Some s1
    ∧ reply_buf (the_client (handle_monitor c s1) c) = reply_buf (the_client s c) ++ [r]
    ∧ idle_clean (handle_monitor c s1) c
    ∧ nothing_ran c s (handle_monitor c s1)
    ∧ index_ok (handle_monitor c s1).
Proof.
  intros Hok.
  set (s0 := on_client c (push_reply r) s).
  assert (Hok0 : index_ok s0).
  { apply (same_index_ok s); [by apply same_index_on_client | done]. }
  destruct (discardTransaction_ok c s0 Hok0)
    as (s1 & Hrun & Hok1 & Hfr & Hst & Hother & _ & _ & _ & Hrep & Hms & Hwk & Hno
        & Hm & Hcas & Hexec).
  destruct (frame_fields _ _ Hfr) as (Hp & Hd & Hb & Hmh & _).
  destruct (handle_monitor_rest c s1) as (Hp' & Hd' & Hb' & Hmh').
  exists s1. split_and!; [done | | | |].
  - rewrite handle_monitor_client, Hrep. unfold s0. by rewrite the_client_on_client.
  - unfold idle_clean. rewrite !handle_monitor_client. split_and!; try done.
    intros d k. rewrite handle_monitor_watchers. apply Hno.
  - unfold nothing_ran. rewrite Hp', Hd', Hb', Hmh', Hp, Hd, Hb, Hmh.
    split_and!; try done.
    + intros d. by rewrite handle_monitor_store, Hst.
    + intros c' Hc'. rewrite handle_monitor_client, Hother by done.
      unfold s0. by rewrite the_client_on_client_ne.
  - apply (same_index_ok s1); [apply handle_monitor_same_index | done].
Qed.

(** EXEC on a dirty transaction. *)
Lemma exec_dirty_ok (call call' : nat → Z → redisServer → redisServer)
    (fuel fuel' c : nat) (s : redisServer) :
  index_ok s →
  has (flags (the_client s c)) CLIENT_MULTI = true →
  has (flags (the_client s c)) CLIENT_DIRTY_EXEC = true
  ∨ has (flags (the_client s c)) CLIENT_DIRTY_CAS = true →
  ∃ s', execCommand call fuel c s = Some s'
    ∧ execCommand call' fuel' c s = Some s'
    ∧ reply_buf (the_client s' c)
      = reply_buf (the_client s c)
        ++ [Reply (if has (flags (the_client s c)) CLIENT_DIRTY_EXEC
                   then shared_execaborterr else shared_nullmultibulk)]
    ∧ idle_clean s' c
    ∧ nothing_ran c s s'
    ∧ index_ok s'.
Proof.
  intros Hok Hmulti Hdirty.
  assert (Hany : has (flags (the_client s c)) (Z.lor CLIENT_DIRTY_CAS CLIENT_DIRTY_EXEC) = true).
  { rewrite has_lor_mask. destruct Hdirty as [-> | ->]; [apply orb_true_r | done]. }
  destruct (refuse_ok c
    (Reply (if has (flags (the_client s c)) CLIENT_DIRTY_EXEC
            then shared_execaborterr else shared_nullmultibulk)) s Hok)
    as (s1 & Hrun & Hrep & Hidle & Hquiet & Hok').
  exists (handle_monitor c s1).
  unfold execCommand, addReply. rewrite Hmulti, Hany. simpl. rewrite Hrun. simpl.
  done.
Qed.

(** C1. For a client in MULTI, EXEC with [CLIENT_DIRTY_EXEC] set replies the
    abort error, and otherwise with [CLIENT_DIRTY_CAS] set replies the null
    multi bulk. In both cases the result does not depend on the executor (no
    queued command runs), nothing is propagated, the queue and the three flags
    are cleared, every watch of the client is removed and the client is IDLE. *)
Theorem exec_dirty_aborts (call call' : nat → Z → redisServer → redisServer)
    (fuel fuel' c : nat) (s : redisServer) :
  index_ok s →
  has (flags (the_client s c)) CLIENT_MULTI = true →
  has (flags (the_client s c)) CLIENT_DIRTY_EXEC = true
  ∨ has (flags (the_client s c)) CLIENT_DIRTY_CAS = true →
  ∃ s', execCommand call fuel c s = Some s'
    ∧ execCommand call' fuel' c s = Some s'
    ∧ reply_buf (the_client s' c)
      = reply_buf (the_client s c)
        ++ [Reply (if has (flags (the_client s c)) CLIENT_DIRTY_EXEC
                   then shared_execaborterr else shared_nullmultibulk)]
    ∧ idle_clean s' c
    ∧ nothing_ran c s s'
    ∧ index_ok s'.
Proof. apply exec_dirty_ok. Qed.

(** C7, as the code has it. For a client in MULTI whose two dirty flags are
    clear (the check of the dirty flags comes first), on a read-only
    slave (not loading, a master host set, slave writes disabled), when the
    client is not the master link and the flags of the queue hold the write
    bit: EXEC replies the read-only slave error; the result does not depend on
    the executor (no queued command runs), and the transaction is ended as by
    a discard. *)
Theorem exec_readonly_slave_refuses (call call' : nat → Z → redisServer → redisServer)
    (fuel fuel' c : nat) (s : redisServer) (host : string) :
  index_ok s →
  has (flags (the_client s c)) CLIENT_MULTI = true →
  has (flags (the_client s c)) CLIENT_DIRTY_CAS = false →
  has (flags (the_client s c)) CLIENT_DIRTY_EXEC = false →
  loading s = false →
  masterhost s = Some host →
  repl_slave_ro s = true →
  has (flags (the_client s c)) CLIENT_MASTER = false →
  has (cmd_flags (mstate (the_client s c))) CMD_WRITE = true →
  ∃ s', execCommand call fuel c s = Some s'
    ∧ execCommand call' fuel' c s = Some s'
    ∧ reply_buf (the_client s' c)
      = reply_buf (the_client s c)
        ++ [ReplyError
              "Transaction contains write commands but instance is now a read-only slave. EXEC aborted."]
    ∧ idle_clean s' c
    ∧ nothing_ran c s s'
    ∧ index_ok s'.
Proof.
  intros Hok Hmulti Hcas Hexec Hload Hhost Hro Hmaster Hwrite.
  assert (Hany : has (flags (the_client s c)) (Z.lor CLIENT_DIRTY_CAS CLIENT_DIRTY_EXEC) = false).
  { by rewrite has_lor_mask, Hcas, Hexec. }
  assert (Hgate : readonly_slave_gate c s = true).
  { unfold readonly_slave_gate. rewrite Hload, Hhost, Hro, Hmaster, Hwrite. done. }
  destruct (refuse_ok c
    (ReplyError
       "Transaction contains write commands but instance is now a read-only slave. EXEC aborted.")
    s Hok) as (s1 & Hrun & Hrep & Hidle & Hquiet & Hok').
  exists (handle_monitor c s1).
  unfold execCommand, addReplyError. rewrite Hmulti, Hany, Hgate. simpl. rewrite Hrun. simpl.
  done.
Qed.
End Abort.

(** ** The empty batch *)

Section EmptyBatch.
Context `{ServerH}.

Lemma has_zero (m : Z) : has 0 m = false.
Proof. apply has_false, Z.land_0_l. Qed.

(** BI-6 is set up by [initClientMultiState] and kept by
    [queueMultiCommand]. *)
Lemma initClientMultiState_queue_flags (c : nat) (s : redisServer) :
  queue_flags_ok (the_client (initClientMultiState c s) c).
Proof.
  unfold initClientMultiState. by rewrite the_client_on_client.
Qed.

Lemma queueMultiCommand_queue_flags (c : nat) (s : redisServer) :
  queue_flags_ok (the_client s c) →
  queue_flags_ok (the_client (queueMultiCommand c s) c).
Proof.
  unfold queueMultiCommand, queue_flags_ok, flags_of_queue. intros Hq.
  rewrite the_client_on_client. simpl. by rewrite foldl_app, <- Hq.
Qed.

(** C10. For a client in MULTI with an empty queue and both dirty flags
    clear, EXEC returns and replies a multi bulk of length 0. The loop leaves
    [must_propagate] false without a turn, the result does not depend on the
    executor, nothing is propagated, the dirty counter is unchanged, and the
    client is IDLE with an empty queue, nothing watched and clean flags. *)
Theorem exec_empty_batch (call call' : nat → Z → redisServer → redisServer)
    (fuel fuel' c : nat) (s : redisServer) :
  index_ok s →
  queue_flags_ok (the_client s c) →
  has (flags (the_client s c)) CLIENT_MULTI = true →
  has (flags (the_client s c)) CLIENT_DIRTY_CAS = false →
  has (flags (the_client s c)) CLIENT_DIRTY_EXEC = false →
  commands (mstate (the_client s c)) = [] →
  ∃ s1 s',
    unwatchAllKeys c s = Some s1
    ∧ exec_loop call fuel c 0 false (addReplyMultiBulkLen c 0 s1)
      = Some (addReplyMultiBulkLen c 0 s1, false)
    ∧ execCommand call fuel c s = Some s'
    ∧ execCommand call' fuel' c s = Some s'
    ∧ reply_buf (the_client s' c) = reply_buf (the_client s c) ++ [ReplyMultiBulkLen 0]
    ∧ idle_clean s' c
    ∧ nothing_ran c s s'
    ∧ index_ok s'.
Proof.
  intros Hok Hq Hmulti Hcas Hexec Hempty.
  assert (Hany : has (flags (the_client s c)) (Z.lor CLIENT_DIRTY_CAS CLIENT_DIRTY_EXEC) = false).
  { by rewrite has_lor_mask, Hcas, Hexec. }
  assert (Hgate : readonly_slave_gate c s = false).
  { unfold readonly_slave_gate. rewrite Hq, Hempty. simpl. rewrite has_zero.
    apply andb_false_r. }
  destruct (unwatchAllKeys_ok c s Hok) as (s1 & Hrun1 & Hok1 & Hfr1 & Hst1 & Hc1 & Hother1).
  assert (Hcount : count (mstate (the_client s1 c)) = 0).
  { rewrite Hc1. unfold count. simpl. by rewrite Hempty. }
  set (s2 := addReplyMultiBulkLen c 0 s1).
  assert (Hloop : ∀ ex n, exec_loop ex n c 0 false s2 = Some (s2, false)).
  { intros ex n. assert (Hc2 : count (mstate (the_client s2 c)) = 0).
    { unfold s2, addReplyMultiBulkLen. by rewrite the_client_on_client. }
    destruct n; simpl; rewrite Hc2; by rewrite decide_False by lia. }
  set (s4 := on_client c (set_command (argv (the_client s1 c)) (cmd (the_client s1 c))) s2).
  assert (Hok4 : index_ok s4).
  { apply (same_index_ok s2); [by apply same_index_on_client|].
    apply (same_index_ok s1); [by apply same_index_on_client | done]. }
  destruct (discardTransaction_ok c s4 Hok4)
    as (s5 & Hrun5 & Hok5 & Hfr5 & Hst5 & Hother5 & _ & _ & _ & Hrep5 & Hms5 & Hwk5 & Hno5
        & Hm5 & Hcas5 & Hexec5).
  destruct (frame_fields _ _ Hfr1) as (Hp1 & Hd1 & Hb1 & Hmh1 & _).
  destruct (frame_fields _ _ Hfr5) as (Hp5 & Hd5 & Hb5 & Hmh5 & _).
  destruct (handle_monitor_rest c s5) as (Hp' & Hd' & Hb' & Hmh').
  exists s1, (handle_monitor c s5). split_and!.
  - done.
  - apply Hloop.
  - unfold execCommand. rewrite Hmulti, Hany, Hgate. simpl. rewrite Hrun1. simpl.
    rewrite Hcount. fold s2. rewrite Hloop. fold s4. rewrite Hrun5. done.
  - unfold execCommand. rewrite Hmulti, Hany, Hgate. simpl. rewrite Hrun1. simpl.
    rewrite Hcount. fold s2. rewrite Hloop. fold s4. rewrite Hrun5. done.
  - rewrite handle_monitor_client, Hrep5. unfold s4, s2, addReplyMultiBulkLen.
    rewrite !the_client_on_client, Hc1. done.
  - unfold idle_clean. rewrite !handle_monitor_client. split_and!; try done.
    intros d k. rewrite handle_monitor_watchers. apply Hno5.
  - unfold nothing_ran. rewrite Hp', Hd', Hb', Hmh', Hp5, Hd5, Hb5, Hmh5.
    split_and!; try done.
    + intros d. by rewrite handle_monitor_store, Hst5, <- Hst1.
    + intros c' Hc'. rewrite handle_monitor_client, Hother5 by done.
      unfold s4, s2, addReplyMultiBulkLen. rewrite !the_client_on_client_ne by done.
      by apply Hother1.
  - apply (same_index_ok s5); [apply handle_monitor_same_index | done].
Qed.
End EmptyBatch.

(** ** The loop of EXEC *)

Section Loop.
Context `{ServerH}.
Variable call : nat → Z → redisServer → redisServer.

Lemma execCommandPropagateMulti_same_index (c : nat) (s : redisServer) :
  same_index s (execCommandPropagateMulti c s).
Proof. by split. Qed.

Lemma execCommandPropagateMulti_client (c c' : nat) (s : redisServer) :
  the_client (execCommandPropagateMulti c s) c' = the_client s c'.
Proof. done. Qed.

(** The frame goes out with the number of the database the client is on. *)
Lemma execCommandPropagateMulti_frame (c : nat) (s : redisServer) :
  propagated (execCommandPropagateMulti c s)
  = propagated s
    ++ [{| p_cmd := server_multiCommand s;
           p_dbid := id (the_db s (db (the_client s c)));
           p_argv := ["MULTI"];
           p_target := Z.lor PROPAGATE_AOF PROPAGATE_REPL |}].
Proof. done. Qed.

Lemma install_propagate_commute (c : nat) (a : list robj) (d : redisCommand)
    (s : redisServer) :
  on_client c (set_command a d) (execCommandPropagateMulti c s)
  = execCommandPropagateMulti c (on_client c (set_command a d) s).
Proof.
  unfold execCommandPropagateMulti, propagate. rewrite the_client_on_client. done.
Qed.

(** A turn of the loop is a plain turn, after the MULTI frame when the flag
    is not set yet and the entry is neither read-only nor administrative. *)
Lemma exec_step_eq (c j : nat) (mp : bool) (s : redisServer) :
  exec_step call c j mp s
  = match commands (mstate (the_client s c)) !! j with
    | None => None
    | Some mc =>
        if negb mp && negb (has (rc_flags (mc_cmd mc)) (Z.lor CMD_READONLY CMD_ADMIN))
        then (λ s', (s', true)) <$> run_entry call c j (execCommandPropagateMulti c s)
        else (λ s', (s', mp)) <$> run_entry call c j s
    end.
Proof.
  unfold exec_step, run_entry.
  change (the_client (execCommandPropagateMulti c s) c) with (the_client s c).
  destruct (commands (mstate (the_client s c)) !! j) as [mc|]; [|done].
  rewrite the_client_on_client. simpl.
  destruct (negb mp && negb (has (rc_flags (mc_cmd mc)) (Z.lor CMD_READONLY CMD_ADMIN))).
  - rewrite install_propagate_commute.
    change (loading (execCommandPropagateMulti c
              (on_client c (set_command (mc_argv mc) (mc_cmd mc)) s)))
      with (loading s).
    by case_decide.
  - change (loading (on_client c (set_command (mc_argv mc) (mc_cmd mc)) s))
      with (loading s).
    by case_decide.
Qed.

(** A plain turn under an executor that leaves the queue alone: it returns,
    and only entry [j] of the queue is rewritten. *)
Lemma run_entry_ok (c j : nat) (s : redisServer) (mc : multiCmd) :
  keeps_queue call →
  commands (mstate (the_client s c)) !! j = Some mc →
  ∃ s' mc',
    run_entry call c j s = Some s'
    ∧ commands (mstate (the_client s' c)) = <[j := mc']> (commands (mstate (the_client s c)))
    ∧ (keeps_index call → index_ok s → index_ok s')
    ∧ (quiet_on_reads call →
       has (rc_flags (mc_cmd mc)) (Z.lor CMD_READONLY CMD_ADMIN) = true →
       propagated s' = propagated s).
Proof.
  intros Hq Hmc. unfold run_entry. rewrite Hmc.
  set (s1 := on_client c (set_command (mc_argv mc) (mc_cmd mc)) s).
  set (s3 := call c _ s1).
  assert (Hq3 : commands (mstate (the_client s3 c)) = commands (mstate (the_client s c))).
  { unfold s3. rewrite Hq. unfold s1. by rewrite the_client_on_client. }
  assert (Hlt : j < count (mstate (the_client s3 c))).
  { unfold count. rewrite Hq3. by apply lookup_lt_Some in Hmc. }
  rewrite decide_True by done.
  eexists _, _. split_and!; [done | | |].
  - rewrite the_client_on_client. simpl. by rewrite Hq3.
  - intros Hi Hok. apply (same_index_ok s3); [by apply same_index_on_client|].
    apply Hi. apply (same_index_ok s); [by apply same_index_on_client | done].
  - intros Hquiet Hro. simpl. unfold s3. rewrite Hquiet; [done|].
    unfold s1. by rewrite the_client_on_client.
Qed.



End Loop.

Section Exec.
Context `{ServerH}.
Variable call : nat → Z → redisServer → redisServer.

(** With fuel for every entry the loop returns, whatever the flag. *)
Lemma exec_loop_total (c : nat) (k : nat) :
  keeps_queue call →
  ∀ fuel j mp s,
    length (commands (mstate (the_client s c))) - j = k →
    k ≤ fuel →
    ∃ s_b mp', exec_loop call fuel c j mp s = Some (s_b, mp')
      ∧ (keeps_index call → index_ok s → index_ok s_b).
Proof.
  intros Hq. induction k as [|k IH]; intros fuel j mp s Hk Hfuel.
  - exists s, mp. split; [|done].
    destruct fuel; simpl; unfold count; by rewrite decide_False by lia.
  - destruct fuel as [|fuel]; [lia|].
    assert (Hj : j < length (commands (mstate (the_client s c)))) by lia.
    destruct (lookup_lt_is_Some_2 _ _ Hj) as [mc Hmc].
    simpl. unfold count. rewrite decide_True by done. rewrite exec_step_eq, Hmc.
    destruct (negb mp && negb (has (rc_flags (mc_cmd mc)) (Z.lor CMD_READONLY CMD_ADMIN))).
    + destruct (run_entry_ok call c j (execCommandPropagateMulti c s) mc Hq Hmc)
        as (s' & mc' & Hrun & Hcmds & Hidx & _).
      rewrite Hrun. simpl.
      destruct (IH fuel (S j) true s') as (s_b & mp' & Hloop & Hidx').
      { rewrite Hcmds, length_insert.
        change (the_client (execCommandPropagateMulti c s) c) with (the_client s c). lia. }
      { lia. }
      exists s_b, mp'. split; [done|]. intros Hi Hok. apply Hidx'; [done|].
      apply Hidx; [done|].
      by apply (same_index_ok s); [apply execCommandPropagateMulti_same_index|].
    + destruct (run_entry_ok call c j s mc Hq Hmc) as (s' & mc' & Hrun & Hcmds & Hidx & _).
      rewrite Hrun. simpl.
      destruct (IH fuel (S j) mp s') as (s_b & mp' & Hloop & Hidx').
      { rewrite Hcmds, length_insert. lia. }
      { lia. }
      exists s_b, mp'. split; [done|]. intros Hi Hok. apply Hidx'; [done|].
      by apply Hidx.
Qed.


Lemma exec_finish_dirty (w : bool) (s : redisServer) :
  dirty (exec_finish w s) = (dirty s + 1)%Z.
Proof.
  unfold exec_finish, feedReplicationBacklog. simpl.
  destruct (_ && _); [|done]. by destruct (repl_backlog s).
Qed.

Lemma exec_finish_backlog (w : bool) (s : redisServer) :
  repl_backlog (exec_finish w s)
  = if w && negb (bool_decide (masterhost s = None))
    then (λ b, b +:+ execcmd) <$> repl_backlog s else repl_backlog s.
Proof.
  unfold exec_finish, feedReplicationBacklog. simpl.
  destruct (repl_backlog s) as [b|] eqn:Hb; simpl.
  - by destruct (w && negb (bool_decide (masterhost s = None))).
  - by destruct (w && negb (bool_decide (masterhost s = None))).
Qed.

(** C9, as the code has it. For a client in MULTI that passes the two
    refusals, under an executor that leaves the queue alone and keeps the
    index well formed, with fuel for every entry: EXEC returns; the dirty
    counter is one more than after the loop exactly when [must_propagate]
    ended true; and the bytes of EXEC are appended to the replication backlog
    exactly when moreover the server had no master host on entry, has one
    after the loop, and a backlog exists. Without a backlog nothing is
    appended. *)
Theorem exec_finish_propagation (fuel c : nat) (s : redisServer) :
  keeps_queue call →
  keeps_index call →
  index_ok s →
  has (flags (the_client s c)) CLIENT_MULTI = true →
  has (flags (the_client s c)) CLIENT_DIRTY_CAS = false →
  has (flags (the_client s c)) CLIENT_DIRTY_EXEC = false →
  readonly_slave_gate c s = false →
  length (commands (mstate (the_client s c))) ≤ fuel →
  ∃ s1 s3 mp s',
    unwatchAllKeys c s = Some s1
    ∧ exec_loop call fuel c 0 false
        (addReplyMultiBulkLen c (count (mstate (the_client s1 c))) s1) = Some (s3, mp)
    ∧ execCommand call fuel c s = Some s'
    ∧ dirty s' = (if mp then dirty s3 + 1 else dirty s3)%Z
    ∧ repl_backlog s'
      = (if mp && bool_decide (masterhost s = None)
            && negb (bool_decide (masterhost s3 = None))
         then (λ b, b +:+ execcmd) <$> repl_backlog s3
         else repl_backlog s3).
Proof.
  intros Hq Hi Hok Hmulti Hcas Hexec Hgate Hfuel.
  assert (Hany : has (flags (the_client s c)) (Z.lor CLIENT_DIRTY_CAS CLIENT_DIRTY_EXEC) = false).
  { by rewrite has_lor_mask, Hcas, Hexec. }
  destruct (unwatchAllKeys_ok c s Hok) as (s1 & Hrun1 & Hok1 & Hfr1 & Hst1 & Hc1 & Hother1).
  set (s2 := addReplyMultiBulkLen c (count (mstate (the_client s1 c))) s1).
  assert (Hok2 : index_ok s2).
  { apply (same_index_ok s1); [by apply same_index_on_client | done]. }
  assert (Hlen2 : length (commands (mstate (the_client s2 c)))
                  = length (commands (mstate (the_client s c)))).
  { unfold s2, addReplyMultiBulkLen. by rewrite the_client_on_client, Hc1. }
  destruct (exec_loop_total c (length (commands (mstate (the_client s2 c)))) Hq
              fuel 0 false s2) as (s3 & mp & Hloop & Hidx3); [lia | lia |].
  set (s4 := on_client c (set_command (argv (the_client s1 c)) (cmd (the_client s1 c))) s3).
  assert (Hok4 : index_ok s4).
  { apply (same_index_ok s3); [by apply same_index_on_client | by apply Hidx3]. }
  destruct (discardTransaction_ok c s4 Hok4) as (s5 & Hrun5 & Hok5 & Hfr5 & _).
  destruct (frame_fields _ _ Hfr5) as (_ & Hd5 & Hb5 & Hmh5 & _).
  change (dirty s4) with (dirty s3) in Hd5.
  change (repl_backlog s4) with (repl_backlog s3) in Hb5.
  change (masterhost s4) with (masterhost s3) in Hmh5.
  exists s1, s3, mp,
    (handle_monitor c
       (if mp then exec_finish (bool_decide (masterhost s = None)) s5 else s5)).
  split_and!; [done | done | | |].
  - unfold execCommand. rewrite Hmulti, Hany, Hgate. simpl. rewrite Hrun1. simpl.
    fold s2. rewrite Hloop. fold s4. rewrite Hrun5. done.
  - destruct (handle_monitor_rest c
      (if mp then exec_finish (bool_decide (masterhost s = None)) s5 else s5))
      as (_ & -> & _). destruct mp; [by rewrite exec_finish_dirty, Hd5 | done].
  - destruct (handle_monitor_rest c
      (if mp then exec_finish (bool_decide (masterhost s = None)) s5 else s5))
      as (_ & _ & -> & _). destruct mp; simpl; [|done].
    by rewrite exec_finish_backlog, Hb5, Hmh5.
Qed.
End Exec.

(** ** The watch index at the stable points *)

Section Stable.
Context `{ServerH}.
Variable call : nat → Z → redisServer → redisServer.

Lemma watch_loop_index_ok (c : nat) (keys : list robj) (s : redisServer) :
  index_ok s → index_ok (foldl (λ s' k, watchForKey c k s') s keys).
Proof.
  revert s. induction keys as [|k keys IH]; intros s Hok; simpl; [done|].
  apply IH. by apply watchForKey_index_ok.
Qed.

Lemma watchCommand_index_ok (c : nat) (s : redisServer) :
  index_ok s → index_ok (watchCommand c s).
Proof.
  intros Hok. unfold watchCommand, addReply, addReplyError.
  destruct (has _ _).
  - apply (same_index_ok s); [by apply same_index_on_client | done].
  - apply (same_index_ok (foldl (λ s' k, watchForKey c k s') s
                            (drop 1 (argv (the_client s c)))));
      [by apply same_index_on_client | by apply watch_loop_index_ok].
Qed.

Lemma unwatchAllKeys_index_ok (c : nat) (s s' : redisServer) :
  index_ok s → unwatchAllKeys c s = Some s' → index_ok s'.
Proof.
  intros Hok Hrun. destruct (unwatchAllKeys_ok c s Hok) as (s1 & Hrun1 & Hok1 & _).
  congruence.
Qed.

Lemma unwatchCommand_index_ok (c : nat) (s s' : redisServer) :
  index_ok s → unwatchCommand c s = Some s' → index_ok s'.
Proof.
  intros Hok. unfold unwatchCommand.
  destruct (unwatchAllKeys c s) as [s1|] eqn:Hrun; simpl; [|done].
  intros [= <-]. unfold addReply.
  apply on_client_index_ok; [done|]. apply on_client_index_ok; [done|].
  by apply (unwatchAllKeys_index_ok c s).
Qed.

Lemma discardTransaction_index_ok (c : nat) (s s' : redisServer) :
  index_ok s → discardTransaction c s = Some s' → index_ok s'.
Proof.
  intros Hok Hrun. destruct (discardTransaction_ok c s Hok) as (s1 & Hrun1 & Hok1 & _).
  congruence.
Qed.

Lemma discardCommand_index_ok (c : nat) (s s' : redisServer) :
  index_ok s → discardCommand c s = Some s' → index_ok s'.
Proof.
  intros Hok. unfold discardCommand, addReplyError, addReply. destruct (negb _).
  - intros [= <-]. apply (same_index_ok s); [by apply same_index_on_client | done].
  - destruct (discardTransaction c s) as [s1|] eqn:Hrun; simpl; [|done].
    intros [= <-]. apply (same_index_ok s1); [by apply same_index_on_client|].
    by apply (discardTransaction_index_ok c s).
Qed.

Lemma exec_step_index_ok (c j : nat) (mp mp' : bool) (s s' : redisServer) :
  keeps_index call → index_ok s → exec_step call c j mp s = Some (s', mp') → index_ok s'.
Proof.
  intros Hi Hok. unfold exec_step.
  destruct (commands (mstate (the_client s c)) !! j) as [mc|]; [|done].
  set (s1 := on_client c (set_command (mc_argv mc) (mc_cmd mc)) s).
  assert (Hok1 : index_ok s1).
  { apply (same_index_ok s); [by apply same_index_on_client | done]. }
  destruct (negb mp && negb _).
  - case_decide; [|done]. intros [= <- _].
    apply on_client_index_ok; [done|].
    apply Hi. by apply (same_index_ok s1); [apply execCommandPropagateMulti_same_index|].
  - case_decide; [|done]. intros [= <- _].
    apply on_client_index_ok; [done|].
    by apply Hi.
Qed.

Lemma exec_loop_index_ok (fuel c : nat) :
  keeps_index call →
  ∀ j mp s s' mp', index_ok s → exec_loop call fuel c j mp s = Some (s', mp') → index_ok s'.
Proof.
  intros Hi. induction fuel as [|fuel IH]; intros j mp s s' mp' Hok; simpl.
  - case_decide; [done|]. by intros [= <- _].
  - case_decide; [|by intros [= <- _]].
    destruct (exec_step call c j mp s) as [[s1 mp1]|] eqn:Hstep; [|done].
    apply IH. by apply (exec_step_index_ok c j mp mp1 s s1).
Qed.

Lemma exec_finish_same_index (w : bool) (s : redisServer) :
  same_index s (exec_finish w s).
Proof.
  unfold exec_finish, feedReplicationBacklog. simpl.
  destruct (_ && _); [|done]. by destruct (repl_backlog s).
Qed.

Lemma execCommand_index_ok (fuel c : nat) (s s' : redisServer) :
  keeps_index call → index_ok s → execCommand call fuel c s = Some s' → index_ok s'.
Proof.
  intros Hi Hok. unfold execCommand, addReplyError, addReply, addReplyMultiBulkLen.
  destruct (negb _).
  { intros [= <-]. apply (same_index_ok s); [by apply same_index_on_client | done]. }
  destruct (has _ (Z.lor _ _)).
  { destruct (discardTransaction c _) as [s1|] eqn:Hrun; simpl; [|done].
    intros [= <-]. apply (same_index_ok s1); [apply handle_monitor_same_index|].
    eapply discardTransaction_index_ok; [|exact Hrun].
    by apply on_client_index_ok. }
  destruct (readonly_slave_gate c s).
  { destruct (discardTransaction c _) as [s1|] eqn:Hrun; simpl; [|done].
    intros [= <-]. apply (same_index_ok s1); [apply handle_monitor_same_index|].
    eapply discardTransaction_index_ok; [|exact Hrun].
    by apply on_client_index_ok. }
  destruct (unwatchAllKeys c s) as [s1|] eqn:Hrun1; simpl; [|done].
  destruct (exec_loop call fuel c 0 false _) as [[s3 mp]|] eqn:Hloop; [|done].
  destruct (discardTransaction c _) as [s5|] eqn:Hrun5; simpl; [|done].
  intros [= <-].
  assert (Hok5 : index_ok s5).
  { eapply discardTransaction_index_ok; [|exact Hrun5].
    apply on_client_index_ok; [done|].
    eapply (exec_loop_index_ok fuel c Hi); [|exact Hloop].
    apply on_client_index_ok; [done|].
    by apply (unwatchAllKeys_index_ok c s). }
  apply (same_index_ok _ _ (handle_monitor_same_index c _)).
  destruct mp; [|done]. by apply (same_index_ok s5); [apply exec_finish_same_index|].
Qed.

(** Every event keeps the index well formed. *)
Lemma run_index_ok (e : event) (s s' : redisServer) :
  keeps_index call → index_ok s → run call e s = Some s' → index_ok s'.
Proof.
  intros Hi Hok. destruct e; simpl.
  - intros [= <-]. apply (same_index_ok s); [by apply same_index_on_client | done].
  - intros [= <-]. apply (same_index_ok s); [by apply same_index_on_client | done].
  - intros [= <-]. apply (same_index_ok s); [|done]. split; [|done].
    intros d'. destruct (decide (d = d')) as [<-|Hd].
    + by rewrite the_db_on_db.
    + by rewrite the_db_on_db_ne.
  - intros [= <-]. by apply (same_index_ok s).
  - intros [= <-]. by apply watchForKey_index_ok.
  - intros [= <-]. by apply watchCommand_index_ok.
  - by apply unwatchAllKeys_index_ok.
  - by apply unwatchCommand_index_ok.
  - intros [= <-]. by apply (same_index_ok s); [apply touchWatchedKey_same_index|].
  - intros [= <-]. by apply (same_index_ok s); [apply touchWatchedKeysOnFlush_same_index|].
  - intros [= <-]. unfold multiCommand, addReplyError, addReply. destruct (has _ _).
    + apply (same_index_ok s); [by apply same_index_on_client | done].
    + apply on_client_index_ok; [done|]. by apply on_client_index_ok.
  - intros [= <-]. apply (same_index_ok s); [by apply same_index_on_client | done].
  - intros [= <-]. unfold flagTransaction. destruct (has _ _); [|done].
    apply (same_index_ok s); [by apply same_index_on_client | done].
  - by apply discardCommand_index_ok.
  - by apply execCommand_index_ok.
Qed.

Lemma stable_index_ok (s : redisServer) :
  keeps_index call → stable call s → index_ok s.
Proof.
  intros Hi. induction 1 as [s Hno | e s s' _ IH Hrun].
  - by apply no_watch_index_ok.
  - by apply (run_index_ok e s s').
Qed.

(** C2. At every stable point, under an executor that keeps the index well
    formed, a client is listed under a key of a database exactly when the
    pair is in its list of watched keys; and this still holds after
    [watchForKey], [unwatchAllKeys] (which returns), [touchWatchedKey] and
    [touchWatchedKeysOnFlush]. *)
Theorem watch_index_bidirectional (s : redisServer) :
  keeps_index call →
  stable call s →
  bidirectional s
  ∧ (∀ c k, bidirectional (watchForKey c k s))
  ∧ (∀ c, ∃ s', unwatchAllKeys c s = Some s' ∧ bidirectional s')
  ∧ (∀ d k, bidirectional (touchWatchedKey d k s))
  ∧ (∀ dbid, bidirectional (touchWatchedKeysOnFlush dbid s)).
Proof.
  intros Hi Hst. pose proof (stable_index_ok s Hi Hst) as Hok. split_and!.
  - apply Hok.
  - intros c k. by apply watchForKey_index_ok.
  - intros c. destruct (unwatchAllKeys_ok c s Hok) as (s' & Hrun & Hok' & _).
    exists s'. split; [done | apply Hok'].
  - intros d k. by apply (same_index_ok s _ (touchWatchedKey_same_index d k s)).
  - intros dbid. by apply (same_index_ok s _ (touchWatchedKeysOnFlush_same_index dbid s)).
Qed.
End Stable.

(** ** The claims on WATCH and on touching *)

Section Watching.
Context `{ServerH}.

(** C4. On an index where BI-1 holds, [touchWatchedKey] sets
    [CLIENT_DIRTY_CAS] (and nothing else) on every client that watches the key
    in the database, leaves every other client as it is, and changes neither
    the tables of the databases nor the list of watched keys of any client. *)
Theorem touchWatchedKey_marks_watchers (d : nat) (k : robj) (s : redisServer) :
  bidirectional s →
  CLIENT_DIRTY_CAS ≠ 0%Z →
  (∀ c, (d, ptr k) ∈ watched_ids s c →
     the_client (touchWatchedKey d k s) c = set_dirty_cas (the_client s c)
     ∧ has (flags (the_client (touchWatchedKey d k s) c)) CLIENT_DIRTY_CAS = true)
  ∧ (∀ c, (d, ptr k) ∉ watched_ids s c →
     the_client (touchWatchedKey d k s) c = the_client s c)
  ∧ server_db (touchWatchedKey d k s) = server_db s
  ∧ (∀ c, watched_keys (the_client (touchWatchedKey d k s) c)
          = watched_keys (the_client s c))
  ∧ frame (touchWatchedKey d k s) = frame s.
Proof.
  intros Hbi Hcas. unfold bidirectional in Hbi.
  destruct (touchWatchedKey_clients d k s) as (Hc & Hdb & Hfr).
  split_and!; [| | done | | done].
  - intros c Hin. apply Hbi in Hin. rewrite Hc, decide_True by done.
    split; [done | by apply has_set_dirty_cas].
  - intros c Hnot. rewrite Hc, decide_False; [done|]. by rewrite Hbi.
  - intros c. rewrite Hc. by case_decide.
Qed.

(** C5. [touchWatchedKeysOnFlush] sets [CLIENT_DIRTY_CAS] (and nothing else)
    on exactly the clients of [server.clients] that have a watched key whose
    database has the number asked for (any database when the number is -1)
    and whose bytes are a key of that database at the time of the call. A
    client whose watched keys are all absent from the store, or in other
    databases, is left as it is, and so is everything else. *)
Theorem touchWatchedKeysOnFlush_marks_present (dbid : Z) (s : redisServer) :
  CLIENT_DIRTY_CAS ≠ 0%Z →
  (∀ c wk,
     c ∈ clients s →
     wk ∈ watched_keys (the_client s c) →
     dbid = (-1)%Z ∨ id (the_db s (wk_db wk)) = dbid →
     is_Some (dict (the_db s (wk_db wk)) !! ptr (key wk)) →
     the_client (touchWatchedKeysOnFlush dbid s) c = set_dirty_cas (the_client s c)
     ∧ has (flags (the_client (touchWatchedKeysOnFlush dbid s) c)) CLIENT_DIRTY_CAS = true)
  ∧ (∀ c,
       (∀ wk, wk ∈ watched_keys (the_client s c) →
          dbid = (-1)%Z ∨ id (the_db s (wk_db wk)) = dbid →
          dict (the_db s (wk_db wk)) !! ptr (key wk) = None) →
       the_client (touchWatchedKeysOnFlush dbid s) c = the_client s c)
  ∧ (∀ c, c ∉ clients s → the_client (touchWatchedKeysOnFlush dbid s) c = the_client s c)
  ∧ server_db (touchWatchedKeysOnFlush dbid s) = server_db s
  ∧ frame (touchWatchedKeysOnFlush dbid s) = frame s.
Proof.
  intros Hcas. destruct (touchWatchedKeysOnFlush_clients dbid s) as (Hc & Hdb & Hfr).
  split_and!; [| | | done | done].
  - intros c wk Hin Hwk Hid Hkey.
    assert (Hex : existsb (flush_hits dbid s) (watched_keys (the_client s c)) = true).
    { apply existsb_flush_hits_spec. by exists wk. }
    rewrite Hc, Hex, bool_decide_eq_true_2 by done. simpl.
    split; [done | by apply has_set_dirty_cas].
  - intros c Habsent.
    assert (Hex : existsb (flush_hits dbid s) (watched_keys (the_client s c)) = false).
    { apply not_true_is_false. intros Hex. apply existsb_flush_hits_spec in Hex.
      destruct Hex as (wk & Hwk & Hid & Hkey). rewrite (Habsent wk Hwk Hid) in Hkey.
      by apply is_Some_None in Hkey. }
    by rewrite Hc, Hex, andb_false_r.
  - intros c Hnot. by rewrite Hc, bool_decide_eq_false_2.
Qed.

Lemma watchForKey_noop (c : nat) (k : robj) (s : redisServer) :
  (db (the_client s c), ptr k) ∈ watched_ids s c → watchForKey c k s = s.
Proof.
  intros Hin. apply already_watched_spec in Hin. unfold watchForKey. by rewrite Hin.
Qed.

(** After [watchForKey] the key is watched in the database of the client. *)
Lemma watchForKey_watched (c : nat) (k : robj) (s : redisServer) :
  (db (the_client s c), ptr k) ∈ watched_ids (watchForKey c k s) c.
Proof.
  destruct (already_watched (the_client s c) k) eqn:Hw.
  - unfold watchForKey. rewrite Hw. by apply already_watched_spec.
  - rewrite watchForKey_watched_ids, decide_True by done.
    apply elem_of_app. right. by apply list_elem_of_singleton.
Qed.

(** [watchForKey] writes the list of watched keys of the client, nothing else
    of any client. *)
Lemma watchForKey_client (c c' : nat) (k : robj) (s : redisServer) :
  ∃ l, the_client (watchForKey c k s) c' = set_watched_keys l (the_client s c').
Proof.
  unfold watchForKey. destruct (already_watched _ _).
  - exists (watched_keys (the_client s c')). by rewrite set_watched_keys_same.
  - rewrite the_client_on_client_case. case_decide as Hc.
    + subst c'. rewrite the_client_on_db. by eexists.
    + rewrite the_client_on_db. exists (watched_keys (the_client s c')).
      by rewrite set_watched_keys_same.
Qed.

(** C8. [watchForKey] on a key the client already watches in its database,
    found by the bytes of the key whatever the object that carries them, gives
    back the state it was given: neither the list of the client nor the list
    of clients under the key changes. Hence watching the same bytes twice is
    watching them once, and a list of watched keys without a repeated pair
    stays so. *)
Theorem watchForKey_idempotent (c : nat) (k k' : robj) (s : redisServer) :
  (∀ wk, wk ∈ watched_keys (the_client s c) →
     wk_db wk = db (the_client s c) → ptr (key wk) = ptr k →
     watchForKey c k s = s)
  ∧ (ptr k' = ptr k → watchForKey c k' (watchForKey c k s) = watchForKey c k s)
  ∧ (NoDup (watched_ids s c) → NoDup (watched_ids (watchForKey c k s) c)).
Proof.
  split_and!.
  - intros wk Hin Hdb Hptr. apply watchForKey_noop.
    unfold watched_ids. apply list_elem_of_fmap. exists wk. split; [|done].
    unfold wk_id. by rewrite Hdb, Hptr.
  - intros Hptr. apply watchForKey_noop. rewrite Hptr.
    destruct (watchForKey_client c c k s) as [l Hl].
    replace (db (the_client (watchForKey c k s) c)) with (db (the_client s c))
      by by rewrite Hl.
    apply watchForKey_watched.
  - intros Hnd. destruct (already_watched (the_client s c) k) eqn:Hw.
    + unfold watchForKey. by rewrite Hw.
    + rewrite watchForKey_watched_ids, decide_True by done.
      apply NoDup_app. split_and!; [done | | apply NoDup_singleton].
      intros x Hx ->%list_elem_of_singleton. by apply already_watched_not in Hw.
Qed.
End Watching.

(** ** The life of CLIENT_DIRTY_CAS *)

Section DirtyCas.
Context `{ServerH}.

(** When the loop of [unwatchAllKeys] returns, only lists of watched keys
    were written on the side of the clients. *)
Lemma unwatch_keys_client (c : nat) (wks : list watchedKey) :
  ∀ s s' c', unwatch_keys c wks s = Some s' →
    ∃ l, the_client s' c' = set_watched_keys l (the_client s c').
Proof.
  induction wks as [|wk rest IH]; intros s s' c'; simpl.
  - intros [= <-]. exists (watched_keys (the_client s c')).
    by rewrite set_watched_keys_same.
  - destruct (db_watched_keys (the_db s (wk_db wk)) !! ptr (key wk)) as [cl|]; [|done].
    case_decide; [|done]. intros Hrun.
    destruct (IH _ _ c' Hrun) as [l Hl]. rewrite Hl.
    rewrite the_client_on_client_case, the_client_on_db. case_decide; by eexists.
Qed.

Lemma unwatchAllKeys_client (c c' : nat) (s s' : redisServer) :
  unwatchAllKeys c s = Some s' →
  ∃ l, the_client s' c' = set_watched_keys l (the_client s c').
Proof.
  unfold unwatchAllKeys. case_decide.
  - intros [= <-]. exists (watched_keys (the_client s c')).
    by rewrite set_watched_keys_same.
  - apply unwatch_keys_client.
Qed.

Lemma watch_loop_client (c c' : nat) (keys : list robj) :
  ∀ s, ∃ l, the_client (foldl (λ s' k, watchForKey c k s') s keys) c'
            = set_watched_keys l (the_client s c').
Proof.
  induction keys as [|k keys IH]; intros s; simpl.
  - exists (watched_keys (the_client s c')). by rewrite set_watched_keys_same.
  - destruct (IH (watchForKey c k s)) as [l Hl].
    destruct (watchForKey_client c c' k s) as [l1 Hl1].
    exists l. by rewrite Hl, Hl1.
Qed.

Lemma watchForKey_keeps (c : nat) (k : robj) (s : redisServer) (p : nat * string) :
  p ∈ watched_ids s c → p ∈ watched_ids (watchForKey c k s) c.
Proof.
  intros Hin. destruct (already_watched (the_client s c) k) eqn:Hw.
  - unfold watchForKey. by rewrite Hw.
  - rewrite watchForKey_watched_ids, decide_True by done. apply elem_of_app. by left.
Qed.

Lemma watch_loop_keeps (c : nat) (keys : list robj) (p : nat * string) :
  ∀ s, p ∈ watched_ids s c →
       p ∈ watched_ids (foldl (λ s' k, watchForKey c k s') s keys) c.
Proof.
  induction keys as [|k keys IH]; intros s Hin; simpl; [done|].
  apply IH. by apply watchForKey_keeps.
Qed.

(** Every key of a WATCH ends up watched in the database of the client. *)
Lemma watch_loop_watched (c : nat) (keys : list robj) (k : robj) :
  ∀ s, k ∈ keys →
       (db (the_client s c), ptr k)
       ∈ watched_ids (foldl (λ s' k, watchForKey c k s') s keys) c.
Proof.
  induction keys as [|k0 keys IH]; intros s Hin; simpl.
  - by apply elem_of_nil in Hin.
  - apply elem_of_cons in Hin as [->|Hin].
    + apply watch_loop_keeps, watchForKey_watched.
    + destruct (watchForKey_client c c k0 s) as [l Hl].
      replace (db (the_client s c)) with (db (the_client (watchForKey c k0 s) c))
        by by rewrite Hl.
      by apply IH.
Qed.

Lemma queue_all_client (c c' : nat) (l : list (list robj * redisCommand)) :
  ∀ s, flags (the_client (queue_all c l s) c') = flags (the_client s c')
       ∧ reply_buf (the_client (queue_all c l s) c') = reply_buf (the_client s c').
Proof.
  unfold queue_all. induction l as [|e l IH]; intros s; simpl; [done|].
  destruct (IH (queueMultiCommand c (on_client c (set_command e.1 e.2) s))) as [-> ->].
  unfold queueMultiCommand. rewrite !the_client_on_client_case. by case_decide.
Qed.

Lemma queue_all_index_ok (c : nat) (l : list (list robj * redisCommand)) :
  ∀ s, index_ok s → index_ok (queue_all c l s).
Proof.
  unfold queue_all. induction l as [|e l IH]; intros s Hok; simpl; [done|].
  apply IH. unfold queueMultiCommand. apply on_client_index_ok; [done|].
  by apply on_client_index_ok.
Qed.

Lemma discardTransaction_other (c0 c : nat) (s s' : redisServer) :
  c0 ≠ c → discardTransaction c0 s = Some s' →
  flags (the_client s' c) = flags (the_client s c).
Proof.
  intros Hne Hrun.
  unfold discardTransaction, initClientMultiState, freeClientMultiState in Hrun.
  destruct (unwatchAllKeys_client c0 c _ s' Hrun) as [l ->]. simpl.
  by rewrite !the_client_on_client_ne.
Qed.

Lemma exec_finish_client (w : bool) (s : redisServer) (c : nat) :
  the_client (exec_finish w s) c = the_client s c.
Proof.
  unfold exec_finish, feedReplicationBacklog. simpl.
  destruct (_ && _); [|done]. by destruct (repl_backlog s).
Qed.

(** The loop of the EXEC of another client, under an executor that leaves a
    set flag of [c] set. *)
Lemma exec_loop_keeps_dirty_cas (call : nat → Z → redisServer → redisServer)
    (c0 c fuel : nat) :
  c0 ≠ c →
  keeps_dirty_cas_of call c →
  ∀ j mp s s' mp',
    exec_loop call fuel c0 j mp s = Some (s', mp') →
    has (flags (the_client s c)) CLIENT_DIRTY_CAS = true →
    has (flags (the_client s' c)) CLIENT_DIRTY_CAS = true.
Proof.
  intros Hne Hcall. induction fuel as [|fuel IH]; intros j mp s s' mp'; simpl.
  - case_decide; [done|]. by intros [= <- _].
  - case_decide; [|by intros [= <- _]].
    destruct (exec_step call c0 j mp s) as [[s1 mp1]|] eqn:Hstep; [|done].
    intros Hloop Hset. apply (IH _ _ _ _ _ Hloop). revert Hstep. unfold exec_step.
    destruct (commands (mstate (the_client s c0)) !! j) as [mc|]; [|done].
    destruct (negb mp && negb _).
    + case_decide; [|done]. intros [= <- _].
      rewrite the_client_on_client_ne by done. apply Hcall; [done|].
      rewrite execCommandPropagateMulti_client. by rewrite the_client_on_client_ne.
    + case_decide; [|done]. intros [= <- _].
      rewrite the_client_on_client_ne by done. apply Hcall; [done|].
      by rewrite the_client_on_client_ne.
Qed.

(** The EXEC of another client leaves a set flag of [c] set. *)
Lemma execCommand_keeps_dirty_cas (call : nat → Z → redisServer → redisServer)
    (fuel c0 c : nat) (s s' : redisServer) :
  c0 ≠ c →
  keeps_dirty_cas_of call c →
  execCommand call fuel c0 s = Some s' →
  has (flags (the_client s c)) CLIENT_DIRTY_CAS = true →
  has (flags (the_client s' c)) CLIENT_DIRTY_CAS = true.
Proof.
  intros Hne Hcall. unfold execCommand, addReplyError, addReply, addReplyMultiBulkLen.
  destruct (negb _).
  { intros [= <-]. by rewrite the_client_on_client_ne. }
  destruct (has _ (Z.lor _ _)).
  { destruct (discardTransaction c0 _) as [s1|] eqn:Hrun; simpl; [|done].
    intros [= <-]. rewrite handle_monitor_client.
    rewrite (discardTransaction_other c0 c _ s1 Hne Hrun).
    by rewrite the_client_on_client_ne. }
  destruct (readonly_slave_gate c0 s).
  { destruct (discardTransaction c0 _) as [s1|] eqn:Hrun; simpl; [|done].
    intros [= <-]. rewrite handle_monitor_client.
    rewrite (discardTransaction_other c0 c _ s1 Hne Hrun).
    by rewrite the_client_on_client_ne. }
  destruct (unwatchAllKeys c0 s) as [s1|] eqn:Hrun1; simpl; [|done].
  destruct (exec_loop call fuel c0 0 false _) as [[s3 mp]|] eqn:Hloop; [|done].
  destruct (discardTransaction c0 _) as [s5|] eqn:Hrun5; simpl; [|done].
  intros [= <-] Hset. rewrite handle_monitor_client.
  assert (H5 : has (flags (the_client s5 c)) CLIENT_DIRTY_CAS = true).
  { rewrite (discardTransaction_other c0 c _ s5 Hne Hrun5).
    rewrite the_client_on_client_ne by done.
    apply (exec_loop_keeps_dirty_cas call c0 c fuel Hne Hcall _ _ _ _ _ Hloop).
    rewrite the_client_on_client_ne by done.
    destruct (unwatchAllKeys_client c0 c s s1 Hrun1) as [l ->]. done. }
  destruct mp; [by rewrite exec_finish_client | done].
Qed.

(** An event that does not end what [c] watches leaves a set
    [CLIENT_DIRTY_CAS] set; for the EXEC of another client this asks the
    executor to leave it set. *)
Lemma run_keeps_dirty_cas (call : nat → Z → redisServer → redisServer) (c : nat)
    (e : event) (s s' : redisServer) :
  ends_watch c e = false →
  (runs_executor e = true → keeps_dirty_cas_of call c) →
  run call e s = Some s' →
  has (flags (the_client s c)) CLIENT_DIRTY_CAS = true →
  has (flags (the_client s' c)) CLIENT_DIRTY_CAS = true.
Proof.
  intros Hend Hcall Hrun Hset. destruct e; simpl in Hend, Hcall, Hrun; try done.
  - injection Hrun as <-. rewrite the_client_on_client_case. by case_decide.
  - injection Hrun as <-. rewrite the_client_on_client_case. by case_decide.
  - by injection Hrun as <-.
  - by injection Hrun as <-.
  - injection Hrun as <-. destruct (watchForKey_client c0 c k s) as [l ->]. done.
  - injection Hrun as <-. unfold watchCommand, addReplyError, addReply.
    destruct (has _ CLIENT_MULTI).
    + rewrite the_client_on_client_case. by case_decide.
    + rewrite the_client_on_client_case.
      destruct (watch_loop_client c0 c (drop 1 (argv (the_client s c0))) s) as [l Hl].
      case_decide; simpl; by rewrite Hl.
  - destruct (unwatchAllKeys_client c0 c s s' Hrun) as [l ->]. done.
  - apply bool_decide_eq_false in Hend. unfold unwatchCommand in Hrun.
    destruct (unwatchAllKeys c0 s) as [s1|] eqn:Hrun1; simpl in Hrun; [|done].
    injection Hrun as <-. unfold addReply.
    rewrite !the_client_on_client_ne by done.
    destruct (unwatchAllKeys_client c0 c s s1 Hrun1) as [l ->]. done.
  - injection Hrun as <-. destruct (touchWatchedKey_clients d k s) as (Hc & _).
    rewrite Hc. case_decide; [|done]. simpl. by apply has_lor_keep.
  - injection Hrun as <-. destruct (touchWatchedKeysOnFlush_clients dbid s) as (Hc & _).
    rewrite Hc. destruct (_ && _); [|done]. simpl. by apply has_lor_keep.
  - injection Hrun as <-. unfold multiCommand, addReplyError, addReply.
    destruct (has _ CLIENT_MULTI); rewrite !the_client_on_client_case;
      repeat case_decide; simpl; try done; by apply has_lor_keep.
  - injection Hrun as <-. unfold queueMultiCommand.
    rewrite the_client_on_client_case. by case_decide.
  - injection Hrun as <-. unfold flagTransaction. destruct (has _ CLIENT_MULTI); [|done].
    rewrite the_client_on_client_case. case_decide; [|done]. simpl. by apply has_lor_keep.
  - apply bool_decide_eq_false in Hend. unfold discardCommand, addReplyError, addReply in Hrun.
    destruct (negb _).
    + injection Hrun as <-. by rewrite the_client_on_client_ne.
    + destruct (discardTransaction c0 s) as [s1|] eqn:Hrun1; simpl in Hrun; [|done].
      injection Hrun as <-. rewrite the_client_on_client_ne by done.
      unfold discardTransaction, initClientMultiState, freeClientMultiState in Hrun1.
      destruct (unwatchAllKeys_client c0 c _ s1 Hrun1) as [l ->]. simpl.
      by rewrite !the_client_on_client_ne.
  - apply bool_decide_eq_false in Hend.
    by apply (execCommand_keeps_dirty_cas call fuel c0 c s s' Hend (Hcall eq_refl)).
Qed.

(** C3. A set [CLIENT_DIRTY_CAS] of a client outlives every event but its own
    UNWATCH, DISCARD and EXEC: MULTI keeps it, and so does every command or
    hook of any client, the EXEC of another client included as long as the
    executor it hands commands to leaves the flag set. UNWATCH clears it, and
    so do DISCARD and EXEC for a client in MULTI. Hence, with flag bits of
    their own, a key touched between the WATCH of a client and its MULTI makes
    the EXEC that follows, whatever was queued, reply the null multi bulk. *)
Theorem dirty_cas_outlives_multi (call : nat → Z → redisServer → redisServer) (c : nat) :
  (∀ e s s',
     ends_watch c e = false →
     (runs_executor e = true → keeps_dirty_cas_of call c) →
     run call e s = Some s' →
     has (flags (the_client s c)) CLIENT_DIRTY_CAS = true →
     has (flags (the_client s' c)) CLIENT_DIRTY_CAS = true)
  ∧ (∀ s, has (flags (the_client s c)) CLIENT_DIRTY_CAS = true →
          has (flags (the_client (multiCommand c s) c)) CLIENT_DIRTY_CAS = true)
  ∧ (∀ s, index_ok s →
          ∃ s', unwatchCommand c s = Some s'
            ∧ has (flags (the_client s' c)) CLIENT_DIRTY_CAS = false)
  ∧ (∀ s, index_ok s → has (flags (the_client s c)) CLIENT_MULTI = true →
          ∃ s', discardCommand c s = Some s'
            ∧ has (flags (the_client s' c)) CLIENT_DIRTY_CAS = false)
  ∧ (∀ fuel s, index_ok s → has (flags (the_client s c)) CLIENT_MULTI = true →
          has (flags (the_client s c)) CLIENT_DIRTY_CAS = true →
          ∃ s', execCommand call fuel c s = Some s'
            ∧ has (flags (the_client s' c)) CLIENT_DIRTY_CAS = false)
  ∧ (∀ fuel s k k' queued,
       distinct_flag_bits → index_ok s →
       has (flags (the_client s c)) CLIENT_MULTI = false →
       has (flags (the_client s c)) CLIENT_DIRTY_EXEC = false →
       k ∈ drop 1 (argv (the_client s c)) →
       ptr k' = ptr k →
       ∃ s',
         execCommand call fuel c
           (queue_all c queued
              (multiCommand c
                 (touchWatchedKey (db (the_client s c)) k' (watchCommand c s)))) = Some s'
         ∧ reply_buf (the_client s' c)
           = reply_buf (the_client s c)
             ++ [Reply shared_ok; Reply shared_ok; Reply shared_nullmultibulk]).
Proof.
  split_and!.
  - apply run_keeps_dirty_cas.
  - intros s. by apply (run_keeps_dirty_cas call c (EvMulti c) s).
  - intros s Hok. destruct (unwatchAllKeys_ok c s Hok) as (s1 & Hrun & _).
    unfold unwatchCommand. rewrite Hrun. simpl. eexists. split; [done|].
    unfold addReply. rewrite the_client_on_client. simpl. rewrite the_client_on_client.
    simpl. apply has_cleared, Z.land_diag.
  - intros s Hok Hm.
    destruct (discardTransaction_ok c s Hok)
      as (s1 & Hrun & _ & _ & _ & _ & _ & _ & _ & _ & _ & _ & _ & _ & Hcas & _).
    unfold discardCommand. rewrite Hm, Hrun. simpl. eexists. split; [done|].
    unfold addReply. by rewrite the_client_on_client.
  - intros fuel s Hok Hm Hcas.
    destruct (exec_dirty_ok call call fuel fuel c s Hok Hm (or_intror Hcas))
      as (s' & Hrun & _ & _ & (_ & Hclean & _) & _).
    by exists s'.
  - intros fuel s k k' queued (Hm0 & Hc0 & Hcm & Hme & Hce) Hok Hidle Hexec Hk Hptr.
    set (x := the_client s c) in *.
    (* WATCH *)
    set (s0 := foldl (λ s' k0, watchForKey c k0 s') s (drop 1 (argv x))).
    assert (Hw : watchCommand c s = addReply c shared_ok s0).
    { unfold watchCommand. fold x. by rewrite Hidle. }
    destruct (watch_loop_client c c (drop 1 (argv x)) s) as [l Hl]. fold s0 x in Hl.
    set (s1 := addReply c shared_ok s0).
    assert (Hok1 : index_ok s1).
    { apply on_client_index_ok; [done|]. by apply watch_loop_index_ok. }
    assert (Hx1 : the_client s1 c = push_reply (Reply shared_ok) (set_watched_keys l x)).
    { unfold s1, addReply. by rewrite the_client_on_client, Hl. }
    assert (Hin1 : c ∈ watchers s1 (db x) (ptr k')).
    { apply Hok1. rewrite Hptr. unfold watched_ids. rewrite Hx1. simpl.
      pose proof (watch_loop_watched c (drop 1 (argv x)) k s Hk) as Hin.
      unfold watched_ids in Hin. fold s0 in Hin. rewrite Hl in Hin. exact Hin. }
    (* the touch *)
    set (s2 := touchWatchedKey (db x) k' s1).
    destruct (touchWatchedKey_clients (db x) k' s1) as (Hc2 & _). fold s2 in Hc2.
    assert (Hx2 : the_client s2 c = set_dirty_cas (the_client s1 c)).
    { by rewrite Hc2, decide_True. }
    assert (Hok2 : index_ok s2).
    { by apply (same_index_ok s1); [apply touchWatchedKey_same_index|]. }
    (* MULTI *)
    assert (Hidle2 : has (flags (the_client s2 c)) CLIENT_MULTI = false).
    { rewrite Hx2, Hx1. simpl. by rewrite has_lor_other. }
    set (s3 := multiCommand c s2).
    assert (Hx3 : the_client s3 c
      = push_reply (Reply shared_ok)
          (set_flags (Z.lor (flags (the_client s2 c)) CLIENT_MULTI) (the_client s2 c))).
    { unfold s3, multiCommand, addReply. rewrite Hidle2.
      by rewrite !the_client_on_client. }
    assert (Hok3 : index_ok s3).
    { unfold s3, multiCommand, addReply. rewrite Hidle2.
      apply on_client_index_ok; [done|]. by apply on_client_index_ok. }
    (* the queue *)
    set (s4 := queue_all c queued s3).
    destruct (queue_all_client c c queued s3) as [Hf4 Hr4]. fold s4 in Hf4, Hr4.
    assert (Hok4 : index_ok s4) by by apply queue_all_index_ok.
    assert (Hflags : flags (the_client s4 c)
      = Z.lor (Z.lor (flags x) CLIENT_DIRTY_CAS) CLIENT_MULTI).
    { rewrite Hf4, Hx3. simpl. by rewrite Hx2, Hx1. }
    (* EXEC *)
    assert (Hm4 : has (flags (the_client s4 c)) CLIENT_MULTI = true).
    { rewrite Hflags. by apply has_set. }
    assert (Hc4 : has (flags (the_client s4 c)) CLIENT_DIRTY_CAS = true).
    { rewrite Hflags. by apply has_lor_keep, has_set. }
    assert (He4 : has (flags (the_client s4 c)) CLIENT_DIRTY_EXEC = false).
    { rewrite Hflags, !has_lor_other by done. done. }
    destruct (exec_dirty_ok call call fuel fuel c s4 Hok4 Hm4 (or_intror Hc4))
      as (s' & Hrun & _ & Hrep & _).
    exists s'. rewrite Hw. fold s1 s2 s3 s4. split; [done|].
    rewrite Hrep, He4, Hr4, Hx3. simpl. rewrite Hx2. simpl. rewrite Hx1. simpl.
    by rewrite <- !app_assoc.
Qed.
End DirtyCas.

(** ** The embedding run on a small server *)

Lemma init_server_no_watch (multi : redisCommand) : no_watch (init_server multi).
Proof.
  split.
  - intros d. unfold the_db. simpl. by rewrite lookup_total_empty.
  - intros c. unfold the_client. simpl. by rewrite lookup_total_empty.
Qed.

Lemma sample_start_index_ok : index_ok sample_start.
Proof. apply no_watch_index_ok, init_server_no_watch. Qed.

Lemma sample_watching_index_ok : index_ok sample_watching.
Proof. apply watchForKey_index_ok, sample_start_index_ok. Qed.

Lemma sample_present_index_ok : index_ok sample_present.
Proof.
  apply (same_index_ok sample_watching); [|apply sample_watching_index_ok].
  split; [|done]. intros d. unfold sample_present.
  destruct (decide (0 = d)) as [<-|Hd].
  - by rewrite the_db_on_db.
  - by rewrite the_db_on_db_ne.
Qed.

Lemma sample_dirty_index_ok : index_ok sample_dirty.
Proof. apply on_client_index_ok; [done | apply sample_start_index_ok]. Qed.

Lemma sample_multi_index_ok : index_ok sample_multi.
Proof. apply on_client_index_ok; [done | apply sample_start_index_ok]. Qed.

Lemma sample_queued_index_ok : index_ok sample_queued.
Proof. apply on_client_index_ok; [done | apply sample_multi_index_ok]. Qed.

Lemma sample_backlog_index_ok : index_ok sample_backlog.
Proof. by apply (same_index_ok sample_queued); [|apply sample_queued_index_ok]. Qed.

Lemma sample_slave_index_ok : index_ok sample_slave.
Proof. by apply (same_index_ok sample_queued); [|apply sample_queued_index_ok]. Qed.

Lemma sample_watch_sent_index_ok : index_ok sample_watch_sent.
Proof. apply on_client_index_ok; [done | apply sample_start_index_ok]. Qed.

Lemma sample_call_same_index (c : nat) (fl : Z) (s : redisServer) :
  same_index s (sample_call c fl s).
Proof.
  unfold sample_call. destruct (has _ _); [|done]. by destruct (String.eqb _ _).
Qed.

Lemma sample_call_keeps_index : keeps_index sample_call.
Proof.
  intros c fl s. apply same_index_ok, sample_call_same_index.
Qed.

Lemma sample_call_keeps_queue : keeps_queue sample_call.
Proof.
  intros c fl s. unfold sample_call. destruct (has _ _); [|done].
  by destruct (String.eqb _ _).
Qed.

Lemma sample_call_quiet : @quiet_on_reads sample_constants sample_call.
Proof.
  intros c fl s Hro. unfold sample_call.
  change (@CMD_READONLY sample_constants) with 2%Z in Hro.
  change (@CMD_ADMIN sample_constants) with 16%Z in Hro.
  rewrite Hro. by destruct (String.eqb _ _).
Qed.

Lemma sample_distinct_flag_bits : @distinct_flag_bits sample_constants.
Proof. by repeat split. Qed.

Lemma sample_watching_stable : @stable sample_constants sample_call sample_watching.
Proof.
  apply (stable_run sample_call (EvWatchKey 1 (str 11 "a")) sample_start); [|done].
  apply stable_start, init_server_no_watch.
Qed.

Lemma exec_dirty_aborts_witness :
  ∃ s', @execCommand sample_constants sample_call 0 1 sample_dirty = Some s'
    ∧ reply_buf (the_client s' 1) = [Reply shared_nullmultibulk]
    ∧ @idle_clean sample_constants s' 1.
Proof.
  destruct (@exec_dirty_aborts sample_constants sample_call sample_call 0 0 1 sample_dirty
              sample_dirty_index_ok eq_refl (or_intror eq_refl))
    as (s' & Hrun & _ & Hrep & Hidle & _).
  exists s'. split_and!; [exact Hrun | exact Hrep | exact Hidle].
Defined.

Lemma watch_index_bidirectional_witness :
  bidirectional sample_watching
  ∧ (∀ c k, bidirectional (watchForKey c k sample_watching))
  ∧ (∀ c, ∃ s', unwatchAllKeys c sample_watching = Some s' ∧ bidirectional s')
  ∧ (∀ d k, bidirectional (@touchWatchedKey sample_constants d k sample_watching))
  ∧ (∀ dbid, bidirectional (@touchWatchedKeysOnFlush sample_constants dbid sample_watching)).
Proof.
  exact (@watch_index_bidirectional sample_constants sample_call sample_watching
           sample_call_keeps_index sample_watching_stable).
Defined.

Lemma sample_call_keeps_dirty_cas (c : nat) :
  @keeps_dirty_cas_of sample_constants sample_call c.
Proof.
  intros c0 fl s _ Hset. unfold sample_call. destruct (has _ (Z.lor 2 16)); [|done].
  by destruct (String.eqb _ _).
Qed.

Lemma dirty_cas_outlives_multi_witness :
  (∃ s',
     @execCommand sample_constants sample_call 0 1
       (@queue_all sample_constants 1 [([str 30 "INCR"; str 31 "a"], set_desc)]
          (@multiCommand sample_constants 1
             (@touchWatchedKey sample_constants 0 (str 40 "a")
                (@watchCommand sample_constants 1 sample_watch_sent)))) = Some s'
     ∧ reply_buf (the_client s' 1)
       = [Reply shared_ok; Reply shared_ok; Reply shared_nullmultibulk])
  ∧ (∃ s', @execCommand sample_constants sample_call 1 2 sample_two_clients = Some s'
       ∧ reply_buf (the_client s' 2) = [ReplyMultiBulkLen 1]
       ∧ has (flags (the_client s' 1)) 32 = true).
Proof.
  destruct (@dirty_cas_outlives_multi sample_constants sample_call 1)
    as (Hkeeps & _ & _ & _ & _ & Hscenario).
  split.
  - apply (Hscenario 0 sample_watch_sent (str 11 "a") (str 40 "a")
             [([str 30 "INCR"; str 31 "a"], set_desc)]
             sample_distinct_flag_bits sample_watch_sent_index_ok eq_refl eq_refl).
    + apply list_elem_of_here.
    + reflexivity.
  - assert (Hrun : ∃ s', @execCommand sample_constants sample_call 1 2 sample_two_clients
                         = Some s') by (eexists; by vm_compute).
    destruct Hrun as [s' Hrun]. exists s'. split_and!; [exact Hrun | |].
    + vm_compute in Hrun. injection Hrun as <-. by vm_compute.
    + apply (Hkeeps (EvExec 1 2) sample_two_clients s' eq_refl
               (λ _, sample_call_keeps_dirty_cas 1) Hrun eq_refl).
Defined.

Lemma touchWatchedKey_marks_watchers_witness :
  the_client (@touchWatchedKey sample_constants 0 (str 40 "a") sample_watching) 1
  = @set_dirty_cas sample_constants (the_client sample_watching 1)
  ∧ the_client (@touchWatchedKey sample_constants 0 (str 40 "a") sample_watching) 2
    = the_client sample_watching 2
  ∧ server_db (@touchWatchedKey sample_constants 0 (str 40 "a") sample_watching)
    = server_db sample_watching.
Proof.
  destruct (@touchWatchedKey_marks_watchers sample_constants 0 (str 40 "a") sample_watching)
    as (Hin & Hout & Hdb & _).
  - apply sample_watching_index_ok.
  - done.
  - split_and!; [| | exact Hdb].
    + apply Hin. vm_compute. apply list_elem_of_here.
    + apply Hout. vm_compute. apply not_elem_of_nil.
Defined.

Lemma touchWatchedKeysOnFlush_marks_present_witness :
  has (flags (the_client (@touchWatchedKeysOnFlush sample_constants 0 sample_present) 1)) 32
  = true
  ∧ the_client (@touchWatchedKeysOnFlush sample_constants 0 sample_watching) 1
    = the_client sample_watching 1.
Proof.
  split.
  - destruct (@touchWatchedKeysOnFlush_marks_present sample_constants 0 sample_present)
      as (Hhit & _); [done|].
    apply (Hhit 1 {| key := str 11 "a"; wk_db := 0 |}).
    + apply list_elem_of_here.
    + vm_compute. apply list_elem_of_here.
    + by right.
    + vm_compute. by eexists.
  - destruct (@touchWatchedKeysOnFlush_marks_present sample_constants 0 sample_watching)
      as (_ & Hmiss & _); [done|].
    apply Hmiss. intros wk Hwk _.
    replace (watched_keys (the_client sample_watching 1))
      with [{| key := str 11 "a"; wk_db := 0 |}] in Hwk by (by vm_compute).
    apply list_elem_of_singleton in Hwk. subst wk. by vm_compute.
Defined.


Lemma exec_readonly_slave_refuses_witness :
  ∃ s', @execCommand sample_constants sample_call 0 1 sample_slave = Some s'
    ∧ reply_buf (the_client s' 1)
      = [ReplyError
           "Transaction contains write commands but instance is now a read-only slave. EXEC aborted."]
    ∧ @idle_clean sample_constants s' 1.
Proof.
  destruct (@exec_readonly_slave_refuses sample_constants sample_call sample_call 0 0 1
              sample_slave "10.0.0.2" sample_slave_index_ok
              eq_refl eq_refl eq_refl eq_refl eq_refl eq_refl eq_refl eq_refl)
    as (s' & Hrun & _ & Hrep & Hidle & _).
  exists s'. split_and!; [exact Hrun | exact Hrep | exact Hidle].
Defined.

Lemma watchForKey_idempotent_witness :
  watchForKey 1 (str 50 "a") sample_watching = sample_watching
  ∧ watchForKey 1 (str 50 "a") (watchForKey 1 (str 11 "a") sample_start)
    = watchForKey 1 (str 11 "a") sample_start
  ∧ NoDup (watched_ids (watchForKey 1 (str 51 "b") sample_watching) 1).
Proof.
  destruct (watchForKey_idempotent 1 (str 50 "a") (str 50 "a") sample_watching)
    as (Hnoop & _ & _).
  destruct (watchForKey_idempotent 1 (str 11 "a") (str 50 "a") sample_start)
    as (_ & Htwice & _).
  destruct (watchForKey_idempotent 1 (str 51 "b") (str 51 "b") sample_watching)
    as (_ & _ & Hnodup).
  split_and!.
  - apply (Hnoop {| key := str 11 "a"; wk_db := 0 |}); [|done|done].
    vm_compute. apply list_elem_of_here.
  - by apply Htwice.
  - apply Hnodup. apply sample_watching_index_ok.
Defined.

Lemma exec_finish_propagation_witness :
  ∃ s3 s',
    @exec_loop sample_constants sample_call 3 1 0 false
      (addReplyMultiBulkLen 1 3 sample_backlog) = Some (s3, true)
    ∧ @execCommand sample_constants sample_call 3 1 sample_backlog = Some s'
    ∧ dirty s' = (dirty s3 + 1)%Z
    ∧ repl_backlog s3 = Some ""
    ∧ repl_backlog s' = Some execcmd.
Proof.
  destruct (@exec_finish_propagation sample_constants sample_call 3 1 sample_backlog
              sample_call_keeps_queue sample_call_keeps_index sample_backlog_index_ok
              eq_refl eq_refl eq_refl eq_refl)
    as (s1 & s3 & mp & s' & Hrun1 & Hloop & Hrun & Hdirty & Hbacklog).
  - vm_compute. lia.
  - vm_compute in Hrun1. injection Hrun1 as <-.
    assert (Hmp : mp = true).
    { vm_compute in Hloop. by injection Hloop as _ <-. }
    subst mp. exists s3, s'.
    split_and!; [exact Hloop | exact Hrun | exact Hdirty | |].
    + vm_compute in Hloop. injection Hloop as <-. by vm_compute.
    + rewrite Hbacklog. vm_compute in Hloop. injection Hloop as <-. by vm_compute.
Defined.

(** C9, counterexample to the wording that leaves the backlog out: the server
    had no master host on entry and no replication backlog, the batch was
    propagated, [SLAVEOF] in the batch gave the server a master host, and no
    byte of EXEC reaches a backlog. *)
Lemma exec_backlog_counterexample :
  masterhost sample_queued = None
  ∧ (∃ s3,
       @exec_loop sample_constants sample_call 3 1 0 false
         (addReplyMultiBulkLen 1 3 sample_queued) = Some (s3, true)
       ∧ masterhost s3 = Some "10.0.0.2")
  ∧ (repl_backlog <$> @execCommand sample_constants sample_call 3 1 sample_queued)
    = Some None.
Proof.
  split_and!.
  - reflexivity.
  - eexists. split; [by vm_compute | by vm_compute].
  - by vm_compute.
Qed.

Lemma exec_empty_batch_witness :
  ∃ s', @execCommand sample_constants sample_call 0 1 sample_multi = Some s'
    ∧ reply_buf (the_client s' 1) = [ReplyMultiBulkLen 0]
    ∧ @idle_clean sample_constants s' 1
    ∧ nothing_ran 1 sample_multi s'.
Proof.
  destruct (@exec_empty_batch sample_constants sample_call sample_call 0 0 1 sample_multi
              sample_multi_index_ok eq_refl eq_refl eq_refl eq_refl eq_refl)
    as (s1 & s' & _ & _ & Hrun & _ & Hrep & Hidle & Hran & _).
  exists s'. split_and!; [exact Hrun | exact Hrep | exact Hidle | exact Hran].
Defined.

(** C7, counterexample to the wording that leaves the dirty flags out: on a
    read-only slave, for a client in MULTI that is not the master link and has
    queued a write, EXEC with [CLIENT_DIRTY_CAS] set replies the null multi
    bulk, as the check of the dirty flags comes first. *)
Lemma exec_readonly_slave_counterexample :
  loading sample_slave_dirty = false
  ∧ masterhost sample_slave_dirty = Some "10.0.0.2"
  ∧ repl_slave_ro sample_slave_dirty = true
  ∧ has (flags (the_client sample_slave_dirty 1)) (@CLIENT_MASTER sample_constants) = false
  ∧ has (cmd_flags (mstate (the_client sample_slave_dirty 1))) (@CMD_WRITE sample_constants)
    = true
  ∧ has (flags (the_client sample_slave_dirty 1)) (@CLIENT_MULTI sample_constants) = true
  ∧ ((λ s', reply_buf (the_client s' 1))
       <$> @execCommand sample_constants sample_call 3 1 sample_slave_dirty)
    = Some [Reply shared_nullmultibulk].
Proof.
  split_and!; by vm_compute.
Qed.

(** * More of multi.c *)

(** ** What UNWATCH removes *)

Lemma filter_del_first (c : nat) (l : list nat) :
  filter (λ x, x ≠ c) (list_del_first c l) = filter (λ x, x ≠ c) l.
Proof.
  induction l as [|x l IH]; simpl; [done|].
  case_decide as Hx.
  - subst x. by rewrite filter_cons_False by (by intros ?).
  - by rewrite !filter_cons_True, IH by done.
Qed.

Lemma filter_absent (c : nat) (l : list nat) :
  c ∉ l → filter (λ x, x ≠ c) l = l.
Proof.
  induction l as [|x l IH]; intros Hc; [done|].
  apply not_elem_of_cons in Hc as [Hx Hl].
  rewrite filter_cons_True by congruence. by rewrite IH.
Qed.

(** The lists of watchers after one turn of the loop of [unwatchAllKeys]. *)
Lemma unwatch_turn_watchers (c : nat) (wk : watchedKey) (rest : list watchedKey)
    (cl : list nat) (s : redisServer) (d : nat) (k : string) :
  db_watched_keys (the_db s (wk_db wk)) !! ptr (key wk) = Some cl →
  watchers
    (on_client c (set_watched_keys rest)
       (on_db (wk_db wk)
          (set_db_watched_keys
             (unlinked c (ptr (key wk)) cl (db_watched_keys (the_db s (wk_db wk))))) s)) d k
  = if decide (wk_id wk = (d, k)) then list_del_first c cl else watchers s d k.
Proof.
  intros Hcl. rewrite watchers_on_client, watchers_on_db.
  destruct (decide (wk_db wk = d)) as [<-|Hd].
  - rewrite unlinked_lookup. destruct (decide (ptr (key wk) = k)) as [<-|Hk].
    + by rewrite decide_True.
    + rewrite decide_False; [done|]. unfold wk_id. congruence.
  - rewrite decide_False; [done|]. unfold wk_id. congruence.
Qed.

Lemma unwatch_keys_watchers (c : nat) (wks : list watchedKey) :
  ∀ s, index_ok s → watched_keys (the_client s c) = wks →
  ∃ s', unwatch_keys c wks s = Some s'
    ∧ ∀ d k, watchers s' d k = filter (λ x, x ≠ c) (watchers s d k).
Proof.
  induction wks as [|wk rest IH]; intros s Hok Hwks.
  - exists s. split; [done|]. intros d k. symmetry. apply filter_absent.
    by apply unwatched_nowhere.
  - destruct (unwatch_turn_ok c wk rest s Hok Hwks) as (cl & Hcl & Hin & Hok1).
    simpl. rewrite Hcl, decide_True by done.
    destruct (IH _ Hok1) as (s' & Hrun & Hw).
    { by rewrite the_client_on_client. }
    exists s'. split; [done|]. intros d k.
    rewrite Hw, (unwatch_turn_watchers c wk rest cl s d k Hcl).
    case_decide as Hid; [|done].
    rewrite filter_del_first. unfold watchers. injection Hid as <- <-. by rewrite Hcl.
Qed.

Lemma unwatchAllKeys_watchers (c : nat) (s s' : redisServer) :
  index_ok s → unwatchAllKeys c s = Some s' →
  ∀ d k, watchers s' d k = filter (λ x, x ≠ c) (watchers s d k).
Proof.
  intros Hok Hrun. unfold unwatchAllKeys in Hrun. case_decide as Hlen.
  - injection Hrun as <-. intros d k. symmetry. apply filter_absent.
    apply unwatched_nowhere; [done|]. by apply nil_length_inv.
  - destruct (unwatch_keys_watchers c _ s Hok eq_refl) as (s'' & Hrun' & Hw).
    congruence.
Qed.

(** X1. On a well-formed index [unwatchAllKeys] returns; under every key it
    leaves the list of watchers without the client and with the others in
    their order; the client watches nothing, and no other client, no keyspace
    and nothing else of the server is written. *)
Theorem unwatchAllKeys_removes_client (c : nat) (s : redisServer) :
  index_ok s →
  ∃ s', unwatchAllKeys c s = Some s'
    ∧ (∀ d k, watchers s' d k = filter (λ x, x ≠ c) (watchers s d k))
    ∧ watched_keys (the_client s' c) = []
    ∧ (∀ c', c' ≠ c → the_client s' c' = the_client s c')
    ∧ (∀ d, store s' d = store s d)
    ∧ frame s' = frame s.
Proof.
  intros Hok.
  destruct (unwatchAllKeys_ok c s Hok) as (s' & Hrun & _ & Hfr & Hst & Hc & Hother).
  exists s'. split_and!; try done; [by apply (unwatchAllKeys_watchers c s) | by rewrite Hc].
Qed.

Lemma unwatchAllKeys_removes_client_witness :
  ∃ s', unwatchAllKeys 1 sample_shared = Some s'
    ∧ watchers s' 0 "a" = [2]
    ∧ watched_keys (the_client s' 1) = [].
Proof.
  destruct (unwatchAllKeys_removes_client 1 sample_shared)
    as (s' & Hrun & Hw & Hnil & _).
  - apply watchForKey_index_ok, watchForKey_index_ok, sample_start_index_ok.
  - exists s'. split_and!; [exact Hrun | | exact Hnil].
    rewrite Hw. by vm_compute.
Defined.

(** ** WATCH then UNWATCH *)

Lemma watchForKey_other (c c' : nat) (k : robj) (s : redisServer) :
  c ≠ c' → the_client (watchForKey c k s) c' = the_client s c'.
Proof.
  intros Hc. unfold watchForKey. destruct (already_watched _ _); [done|].
  by rewrite the_client_on_client_ne, the_client_on_db.
Qed.

Lemma watchForKey_store (c : nat) (k : robj) (s : redisServer) (d : nat) :
  store (watchForKey c k s) d = store s d.
Proof.
  unfold watchForKey. destruct (already_watched _ _); [done|].
  unfold store. rewrite the_db_on_client.
  destruct (decide (db (the_client s c) = d)) as [<-|Hd].
  - by rewrite the_db_on_db.
  - by rewrite the_db_on_db_ne.
Qed.

Lemma watchForKey_frame (c : nat) (k : robj) (s : redisServer) :
  frame (watchForKey c k s) = frame s.
Proof.
  unfold watchForKey. by destruct (already_watched _ _).
Qed.

Lemma watchForKey_watchers_others (c : nat) (k : robj) (s : redisServer) (d : nat)
    (k' : string) :
  filter (λ x, x ≠ c) (watchers (watchForKey c k s) d k')
  = filter (λ x, x ≠ c) (watchers s d k').
Proof.
  destruct (already_watched (the_client s c) k) eqn:Hw.
  - unfold watchForKey. by rewrite Hw.
  - rewrite watchForKey_watchers by done. case_decide; [|done].
    rewrite filter_app, filter_cons_False by (by intros ?).
    by rewrite filter_nil, app_nil_r.
Qed.

Lemma watch_loop_frame (c : nat) (keys : list robj) :
  ∀ s,
    let s' := foldl (λ s0 k, watchForKey c k s0) s keys in
    (∀ d k', filter (λ x, x ≠ c) (watchers s' d k') = filter (λ x, x ≠ c) (watchers s d k'))
    ∧ (∀ c', c ≠ c' → the_client s' c' = the_client s c')
    ∧ (∀ d, store s' d = store s d)
    ∧ frame s' = frame s.
Proof.
  induction keys as [|k keys IH]; intros s; simpl; [done|].
  destruct (IH (watchForKey c k s)) as (Hw & Hc & Hst & Hfr). split_and!.
  - intros d k'. by rewrite Hw, watchForKey_watchers_others.
  - intros c' Hc'. by rewrite Hc, watchForKey_other.
  - intros d. by rewrite Hst, watchForKey_store.
  - by rewrite Hfr, watchForKey_frame.
Qed.

(** ** No key is left with an empty list *)

Lemma same_index_pruned (s s' : redisServer) : same_index s s' → pruned s → pruned s'.
Proof.
  intros [Hd _] Hp d k cl. rewrite Hd. apply Hp.
Qed.

Lemma no_watch_pruned (s : redisServer) : no_watch s → pruned s.
Proof.
  intros [Hd _] d k cl. by rewrite Hd, lookup_empty.
Qed.

Lemma watchForKey_pruned (c : nat) (k : robj) (s : redisServer) :
  pruned s → pruned (watchForKey c k s).
Proof.
  intros Hp. unfold watchForKey. destruct (already_watched _ _); [done|].
  intros d k' cl. rewrite the_db_on_client.
  destruct (decide (db (the_client s c) = d)) as [<-|Hd].
  - rewrite the_db_on_db. simpl. destruct (decide (ptr k = k')) as [<-|Hk].
    + rewrite lookup_insert_eq. intros [= <-]. by destruct (default [] _).
    + rewrite lookup_insert_ne by done. apply Hp.
  - rewrite the_db_on_db_ne by done. apply Hp.
Qed.

Lemma unlinked_pruned (c : nat) (k k' : string) (cl cl' : list nat)
    (w : gmap string (list nat)) :
  (∀ k0 cl0, w !! k0 = Some cl0 → cl0 ≠ []) →
  unlinked c k cl w !! k' = Some cl' → cl' ≠ [].
Proof.
  intros Hw. unfold unlinked. case_decide as Hlen.
  - destruct (decide (k = k')) as [<-|Hk].
    + by rewrite lookup_delete_eq.
    + rewrite lookup_delete_ne by done. apply Hw.
  - destruct (decide (k = k')) as [<-|Hk].
    + rewrite lookup_insert_eq. intros [= <-] Hnil. by rewrite Hnil in Hlen.
    + rewrite lookup_insert_ne by done. apply Hw.
Qed.

Lemma unwatch_keys_pruned (c : nat) (wks : list watchedKey) :
  ∀ s s', pruned s → unwatch_keys c wks s = Some s' → pruned s'.
Proof.
  induction wks as [|wk rest IH]; intros s s' Hp; simpl.
  - by intros [= <-].
  - destruct (db_watched_keys (the_db s (wk_db wk)) !! ptr (key wk)) as [cl|]; [|done].
    case_decide; [|done]. apply IH.
    intros d k' cl'. rewrite the_db_on_client.
    destruct (decide (wk_db wk = d)) as [<-|Hd].
    + rewrite the_db_on_db. simpl. apply unlinked_pruned. apply Hp.
    + rewrite the_db_on_db_ne by done. apply Hp.
Qed.

Lemma unwatchAllKeys_pruned (c : nat) (s s' : redisServer) :
  pruned s → unwatchAllKeys c s = Some s' → pruned s'.
Proof.
  intros Hp. unfold unwatchAllKeys. case_decide.
  - by intros [= <-].
  - by apply unwatch_keys_pruned.
Qed.

(** Two pruned tables that list the same watchers under every key are the
    same table. *)
Lemma pruned_tables_eq (s s' : redisServer) (d : nat) :
  pruned s → pruned s' →
  (∀ k, watchers s' d k = watchers s d k) →
  db_watched_keys (the_db s' d) = db_watched_keys (the_db s d).
Proof.
  intros Hp Hp' Hw. apply map_eq. intros k. specialize (Hw k). unfold watchers in Hw.
  destruct (db_watched_keys (the_db s' d) !! k) as [cl'|] eqn:H1,
    (db_watched_keys (the_db s d) !! k) as [cl|] eqn:H2; simpl in Hw.
  - by subst.
  - subst cl'. by apply Hp' in H1.
  - subst cl. by apply Hp in H2.
  - done.
Qed.

(** What is kept by every event, once it is kept by the changes of the index
    and by the executor. *)
Section Preserved.
Context `{ServerH}.
Variable call : nat → Z → redisServer → redisServer.
Variable P : redisServer → Prop.
Hypothesis P_same : ∀ s s', same_index s s' → P s → P s'.
Hypothesis P_watch : ∀ c k s, P s → P (watchForKey c k s).
Hypothesis P_unwatch : ∀ c s s', P s → unwatchAllKeys c s = Some s' → P s'.
Hypothesis P_call : ∀ c fl s, P s → P (call c fl s).

Lemma on_client_preserves (c : nat) (f : client → client) (s : redisServer) :
  (∀ x, watched_keys (f x) = watched_keys x) → P s → P (on_client c f s).
Proof.
  intros Hf. apply P_same. by apply same_index_on_client.
Qed.

Lemma discardTransaction_preserves (c : nat) (s s' : redisServer) :
  P s → discardTransaction c s = Some s' → P s'.
Proof.
  intros Hp. unfold discardTransaction, initClientMultiState, freeClientMultiState.
  apply P_unwatch. apply on_client_preserves; [done|]. by apply on_client_preserves.
Qed.

Lemma exec_loop_preserves (fuel c : nat) :
  ∀ j mp s s' mp', P s → exec_loop call fuel c j mp s = Some (s', mp') → P s'.
Proof.
  induction fuel as [|fuel IH]; intros j mp s s' mp' Hp; simpl.
  - case_decide; [done|]. by intros [= <- _].
  - case_decide; [|by intros [= <- _]].
    destruct (exec_step call c j mp s) as [[s1 mp1]|] eqn:Hstep; [|done].
    apply IH. revert Hstep. unfold exec_step.
    destruct (commands (mstate (the_client s c)) !! j) as [mc|]; [|done].
    destruct (negb mp && negb _).
    + case_decide; [|done]. intros [= <- _].
      apply on_client_preserves; [done|]. apply P_call.
      apply (P_same _ _ (execCommandPropagateMulti_same_index c _)).
      by apply on_client_preserves.
    + case_decide; [|done]. intros [= <- _].
      apply on_client_preserves; [done|]. apply P_call.
      by apply on_client_preserves.
Qed.

Lemma execCommand_preserves (fuel c : nat) (s s' : redisServer) :
  P s → execCommand call fuel c s = Some s' → P s'.
Proof.
  intros Hp. unfold execCommand, addReplyError, addReply, addReplyMultiBulkLen.
  destruct (negb _).
  { intros [= <-]. by apply on_client_preserves. }
  destruct (has _ (Z.lor _ _)).
  { destruct (discardTransaction c _) as [s1|] eqn:Hrun; simpl; [|done].
    intros [= <-]. apply (P_same _ _ (handle_monitor_same_index c s1)).
    eapply discardTransaction_preserves; [|exact Hrun]. by apply on_client_preserves. }
  destruct (readonly_slave_gate c s).
  { destruct (discardTransaction c _) as [s1|] eqn:Hrun; simpl; [|done].
    intros [= <-]. apply (P_same _ _ (handle_monitor_same_index c s1)).
    eapply discardTransaction_preserves; [|exact Hrun]. by apply on_client_preserves. }
  destruct (unwatchAllKeys c s) as [s1|] eqn:Hrun1; simpl; [|done].
  destruct (exec_loop call fuel c 0 false _) as [[s3 mp]|] eqn:Hloop; [|done].
  destruct (discardTransaction c _) as [s5|] eqn:Hrun5; simpl; [|done].
  intros [= <-].
  assert (Hp5 : P s5).
  { eapply discardTransaction_preserves; [|exact Hrun5].
    apply on_client_preserves; [done|].
    eapply exec_loop_preserves; [|exact Hloop].
    apply on_client_preserves; [done|]. by apply (P_unwatch c s). }
  apply (P_same _ _ (handle_monitor_same_index c _)).
  destruct mp; [|done]. by apply (P_same s5); [apply exec_finish_same_index|].
Qed.

Lemma run_preserves (e : event) (s s' : redisServer) :
  P s → run call e s = Some s' → P s'.
Proof.
  intros Hp. destruct e; simpl.
  - intros [= <-]. by apply on_client_preserves.
  - intros [= <-]. by apply on_client_preserves.
  - intros [= <-]. apply (P_same s); [|done]. split; [|done].
    intros d'. destruct (decide (d = d')) as [<-|Hd].
    + by rewrite the_db_on_db.
    + by rewrite the_db_on_db_ne.
  - intros [= <-]. by apply (P_same s).
  - intros [= <-]. by apply P_watch.
  - intros [= <-]. unfold watchCommand, addReplyError, addReply. destruct (has _ _).
    + by apply on_client_preserves.
    + apply on_client_preserves; [done|].
      generalize (drop 1 (argv (the_client s c))) as keys. intros keys.
      revert s Hp. induction keys as [|k keys IH]; intros s Hp; simpl; [done|].
      by apply IH, P_watch.
  - by apply P_unwatch.
  - unfold unwatchCommand.
    destruct (unwatchAllKeys c s) as [s1|] eqn:Hrun; simpl; [|done].
    intros [= <-]. unfold addReply. apply on_client_preserves; [done|].
    apply on_client_preserves; [done|]. by apply (P_unwatch c s).
  - intros [= <-]. by apply (P_same s); [apply touchWatchedKey_same_index|].
  - intros [= <-]. by apply (P_same s); [apply touchWatchedKeysOnFlush_same_index|].
  - intros [= <-]. unfold multiCommand, addReplyError, addReply. destruct (has _ _).
    + by apply on_client_preserves.
    + apply on_client_preserves; [done|]. by apply on_client_preserves.
  - intros [= <-]. by apply on_client_preserves.
  - intros [= <-]. unfold flagTransaction. destruct (has _ _); [|done].
    by apply on_client_preserves.
  - unfold discardCommand, addReplyError, addReply. destruct (negb _).
    + intros [= <-]. by apply on_client_preserves.
    + destruct (discardTransaction c s) as [s1|] eqn:Hrun; simpl; [|done].
      intros [= <-]. apply on_client_preserves; [done|].
      by apply (discardTransaction_preserves c s).
  - by apply execCommand_preserves.
Qed.
End Preserved.

Section Pruned.
Context `{ServerH}.
Variable call : nat → Z → redisServer → redisServer.

Lemma stable_pruned (s : redisServer) : keeps_pruned call → stable call s → pruned s.
Proof.
  intros Hcall. induction 1 as [s Hno | e s s' _ IH Hrun].
  - by apply no_watch_pruned.
  - apply (run_preserves call pruned same_index_pruned watchForKey_pruned
             unwatchAllKeys_pruned Hcall e s s' IH Hrun).
Qed.

(** X3. At every stable point, under an executor that leaves no key with an
    empty list, no key of a table of watched keys holds an empty list of
    clients; this still holds after [watchForKey], and after [unwatchAllKeys]
    which drops the key when its last watcher goes. *)
Theorem watch_tables_pruned (s : redisServer) :
  keeps_pruned call →
  stable call s →
  pruned s
  ∧ (∀ c k, pruned (watchForKey c k s))
  ∧ (∀ c s', unwatchAllKeys c s = Some s' → pruned s').
Proof.
  intros Hcall Hst. pose proof (stable_pruned s Hcall Hst) as Hp. split_and!.
  - done.
  - intros c k. by apply watchForKey_pruned.
  - intros c s'. by apply unwatchAllKeys_pruned.
Qed.

(** X4. At every stable point, under an executor that keeps the index well
    formed, no list of watchers names a client twice and no client watches a
    pair of database and key bytes twice. *)
Theorem watch_lists_without_repeat (s : redisServer) :
  keeps_index call →
  stable call s →
  (∀ d k, NoDup (watchers s d k)) ∧ (∀ c, NoDup (watched_ids s c)).
Proof.
  intros Hcall Hst. apply (stable_index_ok call s Hcall Hst).
Qed.
End Pruned.

(** X2. For a client that watches nothing, on a well-formed index: watching
    any keys and then [unwatchAllKeys] gives back, under every key, the list
    of watchers there was, and the clients, the keyspaces and the rest of the
    server as they were; when no key was left with an empty list, the tables
    of watched keys are the ones there were. *)
Theorem watch_then_unwatch (c : nat) (keys : list robj) (s : redisServer) :
  index_ok s →
  watched_keys (the_client s c) = [] →
  ∃ s', unwatchAllKeys c (foldl (λ s0 k, watchForKey c k s0) s keys) = Some s'
    ∧ (∀ d k, watchers s' d k = watchers s d k)
    ∧ (∀ c', the_client s' c' = the_client s c')
    ∧ (∀ d, store s' d = store s d)
    ∧ frame s' = frame s
    ∧ (pruned s → ∀ d, db_watched_keys (the_db s' d) = db_watched_keys (the_db s d)).
Proof.
  intros Hok Hnil.
  set (s1 := foldl (λ s0 k, watchForKey c k s0) s keys).
  destruct (watch_loop_frame c keys s) as (Hw1 & Hc1 & Hst1 & Hfr1). fold s1 in Hw1, Hc1, Hst1, Hfr1.
  assert (Hok1 : index_ok s1) by by apply watch_loop_index_ok.
  destruct (unwatchAllKeys_ok c s1 Hok1) as (s' & Hrun & _ & Hfr & Hst & Hc & Hother).
  pose proof (unwatchAllKeys_watchers c s1 s' Hok1 Hrun) as Hw.
  assert (Hws : ∀ d k, watchers s' d k = watchers s d k).
  { intros d k. rewrite Hw, Hw1. apply filter_absent. by apply unwatched_nowhere. }
  exists s'. split_and!; [done | done | | | |].
  - intros c'. destruct (decide (c' = c)) as [->|Hc'].
    + rewrite Hc. destruct (watch_loop_client c c keys s) as [l Hl]. fold s1 in Hl.
      rewrite Hl, set_watched_keys_twice, <- Hnil. apply set_watched_keys_same.
    + rewrite Hother by done. by apply Hc1.
  - intros d. by rewrite Hst.
  - by rewrite Hfr.
  - intros Hp d. apply pruned_tables_eq; [done | | done].
    apply (unwatchAllKeys_pruned c s1); [|done]. unfold s1. clear -Hp.
    revert s Hp. induction keys as [|k keys IH]; intros s Hp; simpl; [done|].
    by apply IH, watchForKey_pruned.
Qed.

Lemma watch_then_unwatch_witness :
  ∃ s',
    unwatchAllKeys 1
      (foldl (λ s0 k, watchForKey 1 k s0) sample_start [str 11 "a"; str 12 "b"]) = Some s'
    ∧ (∀ d k, watchers s' d k = watchers sample_start d k)
    ∧ (∀ d, db_watched_keys (the_db s' d) = db_watched_keys (the_db sample_start d)).
Proof.
  destruct (watch_then_unwatch 1 [str 11 "a"; str 12 "b"] sample_start
              sample_start_index_ok)
    as (s' & Hrun & Hw & _ & _ & _ & Htab).
  - unfold the_client. simpl. by rewrite lookup_total_empty.
  - exists s'. split_and!; [exact Hrun | exact Hw |].
    apply Htab, no_watch_pruned, init_server_no_watch.
Defined.

Lemma sample_call_keeps_pruned : keeps_pruned sample_call.
Proof.
  intros c fl s. apply same_index_pruned, sample_call_same_index.
Qed.

Lemma watch_tables_pruned_witness :
  pruned sample_watching
  ∧ (∀ c k, pruned (watchForKey c k sample_watching))
  ∧ (∀ c s', unwatchAllKeys c sample_watching = Some s' → pruned s').
Proof.
  exact (@watch_tables_pruned sample_constants sample_call sample_watching
           sample_call_keeps_pruned sample_watching_stable).
Defined.

Lemma watch_lists_without_repeat_witness :
  (∀ d k, NoDup (watchers sample_watching d k))
  ∧ (∀ c, NoDup (watched_ids sample_watching c)).
Proof.
  exact (@watch_lists_without_repeat sample_constants sample_call sample_watching
           sample_call_keeps_index sample_watching_stable).
Defined.

(** ** A new watch goes to the tail *)

(** X5. [watchForKey] on a key the client does not watch yet in its database
    puts the client at the tail of the list under the key and the key at the
    tail of the list of the client; the list under any other key, the other
    clients, the keyspaces and the rest of the server are as they were. *)
Theorem watchForKey_appends (c : nat) (k : robj) (s : redisServer) :
  (db (the_client s c), ptr k) ∉ watched_ids s c →
  watchers (watchForKey c k s) (db (the_client s c)) (ptr k)
  = watchers s (db (the_client s c)) (ptr k) ++ [c]
  ∧ (∀ d k', (d, k') ≠ (db (the_client s c), ptr k) →
       watchers (watchForKey c k s) d k' = watchers s d k')
  ∧ watched_keys (the_client (watchForKey c k s) c)
    = watched_keys (the_client s c) ++ [{| key := k; wk_db := db (the_client s c) |}]
  ∧ (∀ c', c ≠ c' → the_client (watchForKey c k s) c' = the_client s c')
  ∧ (∀ d, store (watchForKey c k s) d = store s d)
  ∧ frame (watchForKey c k s) = frame s.
Proof.
  intros Hnew. apply already_watched_not in Hnew. split_and!.
  - by rewrite watchForKey_watchers, decide_True by done.
  - intros d k' Hne. by rewrite watchForKey_watchers, decide_False by done.
  - unfold watchForKey. rewrite Hnew. by rewrite the_client_on_client, the_client_on_db.
  - intros c' Hc'. by apply watchForKey_other.
  - apply watchForKey_store.
  - apply watchForKey_frame.
Qed.

Lemma watchForKey_appends_witness :
  watchers (watchForKey 1 (str 11 "a") (watchForKey 2 (str 14 "a") sample_start)) 0 "a"
  = [2; 1].
Proof.
  destruct (watchForKey_appends 1 (str 11 "a") (watchForKey 2 (str 14 "a") sample_start))
    as (Htail & _).
  - vm_compute. apply not_elem_of_nil.
  - refine (eq_trans Htail _). by vm_compute.
Defined.

(** ** The queue *)

Section Queue.
Context `{ServerH}.

Lemma queue_one_client (c : nat) (e : list robj * redisCommand) (s : redisServer) :
  the_client (queueMultiCommand c (on_client c (set_command e.1 e.2) s)) c
  = set_mstate
      {| commands := commands (mstate (the_client s c)) ++ [queued_entry e];
         cmd_flags := Z.lor (cmd_flags (mstate (the_client s c))) (rc_flags e.2) |}
      (set_command e.1 e.2 (the_client s c)).
Proof.
  unfold queueMultiCommand. by rewrite !the_client_on_client.
Qed.

(** X6. Queueing commands one after the other appends them to the queue of
    the client in the order they came, and ORs the flags of their descriptors
    into the flags of the queue, so that BI-6 is kept; the flag word and the
    watched keys of the client, the other clients and the databases are not
    written. *)
Theorem queue_keeps_order (c : nat) (l : list (list robj * redisCommand))
    (s : redisServer) :
  commands (mstate (the_client (queue_all c l s) c))
  = commands (mstate (the_client s c)) ++ (queued_entry <$> l)
  ∧ cmd_flags (mstate (the_client (queue_all c l s) c))
    = foldl (λ acc e, Z.lor acc (rc_flags e.2)) (cmd_flags (mstate (the_client s c))) l
  ∧ (queue_flags_ok (the_client s c) → queue_flags_ok (the_client (queue_all c l s) c))
  ∧ flags (the_client (queue_all c l s) c) = flags (the_client s c)
  ∧ watched_keys (the_client (queue_all c l s) c) = watched_keys (the_client s c)
  ∧ (∀ c', c' ≠ c → the_client (queue_all c l s) c' = the_client s c')
  ∧ server_db (queue_all c l s) = server_db s.
Proof.
  revert s. unfold queue_all. induction l as [|e l IH]; intros s; simpl.
  - rewrite app_nil_r. split_and!; done.
  - destruct (IH (queueMultiCommand c (on_client c (set_command e.1 e.2) s)))
      as (Hq & Hf & Hok & Hfl & Hwk & Hother & Hdb).
    rewrite queue_one_client in Hq, Hf, Hok, Hfl, Hwk. simpl in Hq, Hf, Hok, Hfl, Hwk.
    split_and!.
    + by rewrite Hq, <- app_assoc.
    + done.
    + intros Hflags. apply Hok. unfold queue_flags_ok, flags_of_queue in *. simpl.
      by rewrite foldl_app, <- Hflags.
    + done.
    + done.
    + intros c' Hc'. rewrite Hother by done. unfold queueMultiCommand.
      by rewrite !the_client_on_client_ne.
    + done.
Qed.
End Queue.

Lemma queue_keeps_order_witness :
  rc_name ∘ mc_cmd
    <$> commands (mstate (the_client
          (@queue_all sample_constants 1
             [([str 22 "SET"; str 23 "a"; str 24 "1"], set_desc);
              ([str 20 "GET"; str 21 "a"], get_desc)] sample_multi) 1))
  = ["set"; "get"]
  ∧ queue_flags_ok (the_client
      (@queue_all sample_constants 1
         [([str 22 "SET"; str 23 "a"; str 24 "1"], set_desc);
          ([str 20 "GET"; str 21 "a"], get_desc)] sample_multi) 1).
Proof.
  destruct (@queue_keeps_order sample_constants 1
              [([str 22 "SET"; str 23 "a"; str 24 "1"], set_desc);
               ([str 20 "GET"; str 21 "a"], get_desc)] sample_multi)
    as (Hq & _ & Hok & _).
  split.
  - rewrite Hq. by vm_compute.
  - apply Hok. by vm_compute.
Defined.

(** ** DISCARD and UNWATCH *)

Lemma frame_monitor_feed (s s' : redisServer) :
  frame s' = frame s → monitor_feed s' = monitor_feed s.
Proof.
  unfold frame. intros [= ? ? ? ? ? ? ? ? ? ?]. done.
Qed.

(** Clearing a mask leaves the bits outside of it. *)
Lemma has_cleared_other (x mask m : Z) :
  Z.land mask m = 0%Z → has (Z.land x (Z.lnot mask)) m = has x m.
Proof.
  intros Hd. unfold has. f_equal. f_equal. apply Z.bits_inj'. intros n Hn.
  rewrite !Z.land_spec, Z.lnot_spec by done.
  assert (Hb : Z.testbit (Z.land mask m) n = false) by by rewrite Hd, Z.bits_0.
  rewrite Z.land_spec in Hb.
  by destruct (Z.testbit x n), (Z.testbit mask n), (Z.testbit m n).
Qed.

Section Leaving.
Context `{ServerH}.

(** X7. DISCARD for a client in MULTI, on a well-formed index: it returns
    and replies OK; the queue and the three flags are cleared, every watch of
    the client is removed on both sides, and nothing is propagated, executed
    or fed to the monitors. *)
Theorem discardCommand_ends_transaction (c : nat) (s : redisServer) :
  index_ok s →
  has (flags (the_client s c)) CLIENT_MULTI = true →
  ∃ s', discardCommand c s = Some s'
    ∧ reply_buf (the_client s' c) = reply_buf (the_client s c) ++ [Reply shared_ok]
    ∧ idle_clean s' c
    ∧ nothing_ran c s s'
    ∧ monitor_feed s' = monitor_feed s
    ∧ index_ok s'.
Proof.
  intros Hok Hm.
  destruct (discardTransaction_ok c s Hok)
    as (s1 & Hrun & Hok1 & Hfr & Hst & Hother & _ & _ & _ & Hrep & Hms & Hwk & Hno
        & Hm1 & Hcas & Hexec).
  destruct (frame_fields _ _ Hfr) as (Hp & Hd & Hb & Hmh & _).
  exists (addReply c shared_ok s1). unfold discardCommand. rewrite Hm, Hrun. simpl.
  unfold addReply. split_and!; [done | | | | |].
  - by rewrite the_client_on_client, <- Hrep.
  - unfold idle_clean. rewrite the_client_on_client. simpl. split_and!; done.
  - unfold nothing_ran. simpl. split_and!; try done.
    intros c' Hc'. rewrite the_client_on_client_ne by done. by apply Hother.
  - simpl. by apply frame_monitor_feed.
  - by apply on_client_index_ok.
Qed.

(** X8. UNWATCH on a well-formed index: it returns and replies OK; the client
    watches nothing and is listed under no key; [CLIENT_DIRTY_CAS] is cleared
    and every flag bit outside of it is as it was, so that a client in MULTI
    stays in MULTI with its queue; no other client is written. *)
Theorem unwatchCommand_clears_watch (c : nat) (s : redisServer) :
  index_ok s →
  ∃ s', unwatchCommand c s = Some s'
    ∧ reply_buf (the_client s' c) = reply_buf (the_client s c) ++ [Reply shared_ok]
    ∧ watched_keys (the_client s' c) = []
    ∧ (∀ d k, c ∉ watchers s' d k)
    ∧ has (flags (the_client s' c)) CLIENT_DIRTY_CAS = false
    ∧ (∀ m, Z.land CLIENT_DIRTY_CAS m = 0%Z →
         has (flags (the_client s' c)) m = has (flags (the_client s c)) m)
    ∧ mstate (the_client s' c) = mstate (the_client s c)
    ∧ (∀ c', c' ≠ c → the_client s' c' = the_client s c')
    ∧ index_ok s'.
Proof.
  intros Hok.
  destruct (unwatchAllKeys_ok c s Hok) as (s1 & Hrun & Hok1 & Hfr & Hst & Hc & Hother).
  eexists. unfold unwatchCommand. rewrite Hrun. simpl. unfold addReply.
  split_and!; [done | | | | | | | |].
  - by rewrite !the_client_on_client, Hc.
  - by rewrite !the_client_on_client, Hc.
  - intros d k. change (c ∉ watchers s1 d k). apply unwatched_nowhere; [done|].
    by rewrite Hc.
  - rewrite !the_client_on_client. simpl. apply has_cleared, Z.land_diag.
  - intros m Hm. rewrite !the_client_on_client, Hc. simpl. by apply has_cleared_other.
  - by rewrite !the_client_on_client, Hc.
  - intros c' Hc'. rewrite !the_client_on_client_ne by done. by apply Hother.
  - apply on_client_index_ok; [done|]. by apply on_client_index_ok.
Qed.

Lemma queue_all_frame (c : nat) (l : list (list robj * redisCommand)) (s : redisServer) :
  frame (queue_all c l s) = frame s.
Proof.
  revert s. unfold queue_all. induction l as [|e l IH]; intros s; simpl; [done|].
  by rewrite IH.
Qed.

Lemma flagTransaction_frame (c : nat) (s : redisServer) :
  frame (flagTransaction c s) = frame s.
Proof.
  unfold flagTransaction. by destruct (has _ _).
Qed.

(** X9. [flagTransaction] outside MULTI gives back the state it was given.
    For a client in MULTI it makes the EXEC that follows, whatever is queued
    in between and whether [CLIENT_DIRTY_CAS] is set or not, reply the abort
    error and end the transaction without running a command. *)
Theorem flagTransaction_aborts_exec (call : nat → Z → redisServer → redisServer)
    (fuel c : nat) (l : list (list robj * redisCommand)) (s : redisServer) :
  (has (flags (the_client s c)) CLIENT_MULTI = false → flagTransaction c s = s)
  ∧ (index_ok s →
     CLIENT_DIRTY_EXEC ≠ 0%Z →
     has (flags (the_client s c)) CLIENT_MULTI = true →
     ∃ s', execCommand call fuel c (queue_all c l (flagTransaction c s)) = Some s'
       ∧ reply_buf (the_client s' c)
         = reply_buf (the_client s c) ++ [Reply shared_execaborterr]
       ∧ idle_clean s' c
       ∧ propagated s' = propagated s
       ∧ dirty s' = dirty s).
Proof.
  split.
  - intros Hm. unfold flagTransaction. by rewrite Hm.
  - intros Hok He Hm.
    set (s1 := flagTransaction c s).
    assert (Hx1 : the_client s1 c
      = set_flags (Z.lor (flags (the_client s c)) CLIENT_DIRTY_EXEC) (the_client s c)).
    { unfold s1, flagTransaction. rewrite Hm. by rewrite the_client_on_client. }
    assert (Hok1 : index_ok s1).
    { unfold s1, flagTransaction. rewrite Hm. by apply on_client_index_ok. }
    destruct (queue_all_client c c l s1) as [Hf2 Hr2].
    assert (Hok2 : index_ok (queue_all c l s1)) by by apply queue_all_index_ok.
    assert (Hm2 : has (flags (the_client (queue_all c l s1) c)) CLIENT_MULTI = true).
    { rewrite Hf2, Hx1. simpl. by apply has_lor_keep. }
    assert (He2 : has (flags (the_client (queue_all c l s1) c)) CLIENT_DIRTY_EXEC = true).
    { rewrite Hf2, Hx1. simpl. by apply has_set. }
    destruct (exec_dirty_ok call call fuel fuel c _ Hok2 Hm2 (or_introl He2))
      as (s' & Hrun & _ & Hrep & Hidle & (Hp & Hd & _) & _).
    exists s'. split_and!; [done | | done | |].
    + rewrite Hrep, He2, Hr2, Hx1. done.
    + rewrite Hp.
      destruct (frame_fields _ _ (queue_all_frame c l s1)) as (-> & _).
      unfold s1. by destruct (frame_fields _ _ (flagTransaction_frame c s)) as (-> & _).
    + rewrite Hd.
      destruct (frame_fields _ _ (queue_all_frame c l s1)) as (_ & -> & _).
      unfold s1. by destruct (frame_fields _ _ (flagTransaction_frame c s)) as (_ & -> & _).
Qed.
End Leaving.

Lemma discardCommand_ends_transaction_witness :
  ∃ s', @discardCommand sample_constants 1 sample_queued = Some s'
    ∧ reply_buf (the_client s' 1) = [Reply shared_ok]
    ∧ @idle_clean sample_constants s' 1.
Proof.
  destruct (@discardCommand_ends_transaction sample_constants 1 sample_queued
              sample_queued_index_ok eq_refl)
    as (s' & Hrun & Hrep & Hidle & _).
  exists s'. split_and!; [exact Hrun | exact Hrep | exact Hidle].
Defined.

Lemma unwatchCommand_clears_watch_witness :
  ∃ s', @unwatchCommand sample_constants 1 sample_shared = Some s'
    ∧ watched_keys (the_client s' 1) = []
    ∧ has (flags (the_client s' 1)) 32 = false.
Proof.
  destruct (@unwatchCommand_clears_watch sample_constants 1 sample_shared)
    as (s' & Hrun & _ & Hnil & _ & Hcas & _).
  - apply watchForKey_index_ok, watchForKey_index_ok, sample_start_index_ok.
  - exists s'. split_and!; [exact Hrun | exact Hnil | exact Hcas].
Defined.

Lemma flagTransaction_aborts_exec_witness :
  ∃ s',
    @execCommand sample_constants sample_call 0 1
      (@queue_all sample_constants 1 [([str 22 "SET"; str 23 "a"; str 24 "1"], set_desc)]
         (@flagTransaction sample_constants 1 sample_dirty)) = Some s'
    ∧ reply_buf (the_client s' 1) = [Reply shared_execaborterr].
Proof.
  destruct (@flagTransaction_aborts_exec sample_constants sample_call 0 1
              [([str 22 "SET"; str 23 "a"; str 24 "1"], set_desc)] sample_dirty)
    as (_ & Habort).
  destruct (Habort sample_dirty_index_ok) as (s' & Hrun & Hrep & _).
  - done.
  - done.
  - exists s'. split; [exact Hrun | exact Hrep].
Defined.

(** ** EXEC that runs the queue *)

Section Batch.
Context `{ServerH}.
Variable call : nat → Z → redisServer → redisServer.

Lemma exec_finish_rest (w : bool) (s : redisServer) :
  (∀ c, the_client (exec_finish w s) c = the_client s c)
  ∧ (∀ d, the_db (exec_finish w s) d = the_db s d)
  ∧ monitors (exec_finish w s) = monitors s
  ∧ loading (exec_finish w s) = loading s
  ∧ monitor_feed (exec_finish w s) = monitor_feed s.
Proof.
  unfold exec_finish, feedReplicationBacklog. simpl.
  destruct (_ && _); [|done]. by destruct (repl_backlog s).
Qed.

(** X10. EXEC for a client in MULTI that passes the two refusals, under an
    executor that leaves the queue alone and keeps the index well formed,
    with fuel for every entry: it returns; the client is IDLE with an empty
    queue, clean flags and nothing watched; the argument vector and the
    descriptor of the client are those of the EXEC command again, whatever the
    queued commands installed; and the monitors, if there are any and the
    server is not loading after the loop, are fed that argument vector once,
    after what the loop left in their feed. *)
Theorem exec_runs_batch (fuel c : nat) (s : redisServer) :
  keeps_queue call →
  keeps_index call →
  index_ok s →
  has (flags (the_client s c)) CLIENT_MULTI = true →
  has (flags (the_client s c)) CLIENT_DIRTY_CAS = false →
  has (flags (the_client s c)) CLIENT_DIRTY_EXEC = false →
  readonly_slave_gate c s = false →
  length (commands (mstate (the_client s c))) ≤ fuel →
  ∃ s1 s3 mp s',
    unwatchAllKeys c s = Some s1
    ∧ exec_loop call fuel c 0 false
        (addReplyMultiBulkLen c (count (mstate (the_client s1 c))) s1) = Some (s3, mp)
    ∧ execCommand call fuel c s = Some s'
    ∧ idle_clean s' c
    ∧ argv (the_client s' c) = argv (the_client s c)
    ∧ cmd (the_client s' c) = cmd (the_client s c)
    ∧ monitor_feed s'
      = (if negb (length (monitors s3) =? 0) && negb (loading s3)
         then monitor_feed s3
              ++ [{| m_client := c;
                     m_dbid := id (the_db s3 (db (the_client s3 c)));
                     m_argv := ptr <$> argv (the_client s c) |}]
         else monitor_feed s3)
    ∧ index_ok s'.
Proof.
  intros Hq Hi Hok Hmulti Hcas Hexec Hgate Hfuel.
  assert (Hany : has (flags (the_client s c)) (Z.lor CLIENT_DIRTY_CAS CLIENT_DIRTY_EXEC) = false).
  { by rewrite has_lor_mask, Hcas, Hexec. }
  destruct (unwatchAllKeys_ok c s Hok) as (s1 & Hrun1 & Hok1 & Hfr1 & Hst1 & Hc1 & Hother1).
  set (s2 := addReplyMultiBulkLen c (count (mstate (the_client s1 c))) s1).
  assert (Hok2 : index_ok s2) by by apply on_client_index_ok.
  assert (Hlen2 : length (commands (mstate (the_client s2 c)))
                  = length (commands (mstate (the_client s c)))).
  { unfold s2, addReplyMultiBulkLen. by rewrite the_client_on_client, Hc1. }
  destruct (exec_loop_total call c (length (commands (mstate (the_client s2 c)))) Hq
              fuel 0 false s2) as (s3 & mp & Hloop & Hidx3); [lia | lia |].
  set (s4 := on_client c (set_command (argv (the_client s1 c)) (cmd (the_client s1 c))) s3).
  assert (Hok4 : index_ok s4).
  { apply on_client_index_ok; [done | by apply Hidx3]. }
  destruct (discardTransaction_ok c s4 Hok4)
    as (s5 & Hrun5 & Hok5 & Hfr5 & Hst5 & _ & Hdb5 & Hargv5 & Hcmd5 & _ & Hms5 & Hwk5
        & Hno5 & Hm5 & Hcas5 & Hexec5).
  destruct (frame_fields _ _ Hfr5) as (_ & _ & _ & _ & Hl5 & Hmon5 & _).
  pose proof (frame_monitor_feed _ _ Hfr5) as Hfeed5.
  set (s6 := if mp then exec_finish (bool_decide (masterhost s = None)) s5 else s5).
  assert (H6 : (∀ c', the_client s6 c' = the_client s5 c')
               ∧ (∀ d, the_db s6 d = the_db s5 d)
               ∧ monitors s6 = monitors s5 ∧ loading s6 = loading s5
               ∧ monitor_feed s6 = monitor_feed s5).
  { unfold s6. destruct mp; [apply exec_finish_rest | done]. }
  destruct H6 as (Hc6 & Hd6 & Hmon6 & Hl6 & Hfeed6).
  assert (Hok6 : index_ok s6).
  { unfold s6. destruct mp; [|done].
    by apply (same_index_ok s5); [apply exec_finish_same_index|]. }
  assert (Hargv : argv (the_client s5 c) = argv (the_client s c)).
  { rewrite Hargv5. unfold s4. by rewrite the_client_on_client, Hc1. }
  exists s1, s3, mp, (handle_monitor c s6).
  split_and!; [done | done | | | | | |].
  - unfold execCommand. rewrite Hmulti, Hany, Hgate. simpl. rewrite Hrun1. simpl.
    fold s2. rewrite Hloop. fold s4. rewrite Hrun5. done.
  - unfold idle_clean. rewrite !handle_monitor_client, !Hc6. split_and!; try done.
    intros d k. rewrite handle_monitor_watchers. unfold watchers. rewrite Hd6. apply Hno5.
  - by rewrite handle_monitor_client, Hc6.
  - rewrite handle_monitor_client, Hc6, Hcmd5. unfold s4.
    by rewrite the_client_on_client, Hc1.
  - unfold handle_monitor, replicationFeedMonitors.
    rewrite Hmon6, Hl6, Hmon5, Hl5, Hc6, Hd6, Hfeed6, Hfeed5, Hargv, Hdb5.
    change (monitors s4) with (monitors s3). change (loading s4) with (loading s3).
    change (monitor_feed s4) with (monitor_feed s3).
    assert (Hid : id (the_db s5 (db (the_client s4 c)))
                  = id (the_db s3 (db (the_client s3 c)))).
    { pose proof (Hst5 (db (the_client s4 c))) as Hs. unfold store in Hs.
      injection Hs as _ ->. unfold s4. by rewrite the_client_on_client. }
    rewrite Hid. destruct (_ && _); [done | by rewrite Hfeed6, Hfeed5].
  - by apply (same_index_ok s6); [apply handle_monitor_same_index|].
Qed.
End Batch.

Lemma exec_runs_batch_witness :
  ∃ s', @execCommand sample_constants sample_call 3 1 sample_queued = Some s'
    ∧ @idle_clean sample_constants s' 1
    ∧ argv (the_client s' 1) = argv (the_client sample_queued 1).
Proof.
  destruct (@exec_runs_batch sample_constants sample_call 3 1 sample_queued
              sample_call_keeps_queue sample_call_keeps_index sample_queued_index_ok
              eq_refl eq_refl eq_refl eq_refl)
    as (s1 & s3 & mp & s' & _ & _ & Hrun & Hidle & Hargv & _).
  - vm_compute. lia.
  - exists s'. split_and!; [exact Hrun | exact Hidle | exact Hargv].
Defined.

(** ** The monitors and the state errors *)

Section Refusals.
Context `{ServerH}.

Lemma refuse_monitor_feed (c : nat) (r : replyItem) (s : redisServer) :
  index_ok s →
  ∃ s1, discardTransaction c (on_client c (push_reply r) s) = Some s1
    ∧ monitor_feed (handle_monitor c s1)
      = (if negb (length (monitors s) =? 0) && negb (loading s)
         then monitor_feed s
              ++ [{| m_client := c;
                     m_dbid := id (the_db s (db (the_client s c)));
                     m_argv := ptr <$> argv (the_client s c) |}]
         else monitor_feed s).
Proof.
  intros Hok.
  set (s0 := on_client c (push_reply r) s).
  assert (Hok0 : index_ok s0) by by apply on_client_index_ok.
  destruct (discardTransaction_ok c s0 Hok0)
    as (s1 & Hrun & _ & Hfr & Hst & _ & Hdb & Hargv & _).
  destruct (frame_fields _ _ Hfr) as (_ & _ & _ & _ & Hl & Hmon & _).
  pose proof (frame_monitor_feed _ _ Hfr) as Hfeed.
  exists s1. split; [done|].
  unfold handle_monitor, replicationFeedMonitors. rewrite Hl, Hmon, Hargv, Hdb.
  pose proof (Hst (db (the_client s0 c))) as Hs. unfold store in Hs.
  injection Hs as _ ->. unfold s0. rewrite the_client_on_client. simpl.
  destruct (_ && _); simpl; [by rewrite Hfeed | done].
Qed.

(** X11. When EXEC for a client in MULTI is refused, for a dirty flag or by
    the gate of the read-only slave, the monitors are still served: if there
    are monitors and the server is not loading, the argument vector of the
    EXEC command is appended once to their feed, with the number of the
    database of the client; otherwise the feed is as it was. *)
Theorem exec_refusal_feeds_monitors (call : nat → Z → redisServer → redisServer)
    (fuel c : nat) (s : redisServer) :
  index_ok s →
  has (flags (the_client s c)) CLIENT_MULTI = true →
  has (flags (the_client s c)) CLIENT_DIRTY_CAS = true
  ∨ has (flags (the_client s c)) CLIENT_DIRTY_EXEC = true
  ∨ readonly_slave_gate c s = true →
  ∃ s', execCommand call fuel c s = Some s'
    ∧ monitor_feed s'
      = (if negb (length (monitors s) =? 0) && negb (loading s)
         then monitor_feed s
              ++ [{| m_client := c;
                     m_dbid := id (the_db s (db (the_client s c)));
                     m_argv := ptr <$> argv (the_client s c) |}]
         else monitor_feed s).
Proof.
  intros Hok Hm Hwhy. unfold execCommand, addReply, addReplyError. rewrite Hm. simpl.
  destruct (has (flags (the_client s c)) (Z.lor CLIENT_DIRTY_CAS CLIENT_DIRTY_EXEC))
    eqn:Hany.
  - destruct (refuse_monitor_feed c
      (Reply (if has (flags (the_client s c)) CLIENT_DIRTY_EXEC
              then shared_execaborterr else shared_nullmultibulk)) s Hok)
      as (s1 & Hrun & Hfeed).
    rewrite Hrun. simpl. by eexists.
  - rewrite has_lor_mask in Hany. apply orb_false_iff in Hany as [Hcas Hexec].
    destruct Hwhy as [Hc | [He | Hgate]]; [congruence | congruence |].
    rewrite Hgate.
    destruct (refuse_monitor_feed c
      (ReplyError
         "Transaction contains write commands but instance is now a read-only slave. EXEC aborted.")
      s Hok) as (s1 & Hrun & Hfeed).
    rewrite Hrun. simpl. by eexists.
Qed.

Lemma addReplyError_only_replied (c : nat) (msg : string) (s : redisServer) :
  only_replied c (ReplyError msg) s (addReplyError c msg s).
Proof.
  unfold only_replied, addReplyError. split_and!; try done.
  - apply the_client_on_client.
  - intros c' Hc'. by apply the_client_on_client_ne.
Qed.

(** X12. The state errors write nothing but the reply: a MULTI or a WATCH by
    a client in MULTI, and an EXEC or a DISCARD by a client out of MULTI,
    append their error to what the client is sent and leave its flags, queue
    and watched keys, the other clients, the databases, the propagated
    stream and the feed of the monitors as they were. *)
Theorem state_errors_only_reply (call : nat → Z → redisServer → redisServer)
    (fuel c : nat) (s : redisServer) :
  (has (flags (the_client s c)) CLIENT_MULTI = true →
     only_replied c (ReplyError "MULTI calls can not be nested") s (multiCommand c s)
     ∧ only_replied c (ReplyError "WATCH inside MULTI is not allowed") s (watchCommand c s))
  ∧ (has (flags (the_client s c)) CLIENT_MULTI = false →
     (∃ s', execCommand call fuel c s = Some s'
        ∧ only_replied c (ReplyError "EXEC without MULTI") s s')
     ∧ (∃ s', discardCommand c s = Some s'
          ∧ only_replied c (ReplyError "DISCARD without MULTI") s s')).
Proof.
  split.
  - intros Hm. unfold multiCommand, watchCommand. rewrite Hm.
    split; apply addReplyError_only_replied.
  - intros Hm. unfold execCommand, discardCommand. rewrite Hm. simpl.
    split; eexists; (split; [done | apply addReplyError_only_replied]).
Qed.
End Refusals.

Lemma exec_refusal_feeds_monitors_witness :
  (monitor_feed <$> @execCommand sample_constants sample_call 0 1 sample_monitored)
  = Some [{| m_client := 1; m_dbid := 0; m_argv := [] |}].
Proof.
  destruct (@exec_refusal_feeds_monitors sample_constants sample_call 0 1 sample_monitored)
    as (s' & Hrun & Hfeed).
  - apply (same_index_ok sample_dirty); [done | apply sample_dirty_index_ok].
  - done.
  - by left.
  - rewrite Hrun. simpl. f_equal. refine (eq_trans Hfeed _). by vm_compute.
Defined.

Lemma state_errors_only_reply_witness :
  (∃ s', @execCommand sample_constants sample_call 0 1 sample_start = Some s'
     ∧ only_replied 1 (ReplyError "EXEC without MULTI") sample_start s')
  ∧ only_replied 1 (ReplyError "MULTI calls can not be nested") sample_multi
      (@multiCommand sample_constants 1 sample_multi).
Proof.
  destruct (@state_errors_only_reply sample_constants sample_call 0 1 sample_start)
    as (_ & Hout).
  destruct (@state_errors_only_reply sample_constants sample_call 0 1 sample_multi)
    as (Hin & _).
  split.
  - by destruct (Hout eq_refl) as (Hexec & _).
  - by destruct (Hin eq_refl) as (Hmulti & _).
Defined.

(** ** Touching twice *)

Lemma on_client_fixed (c : nat) (f : client → client) (s : redisServer) :
  client_heap s !! c = Some (the_client s c) →
  f (the_client s c) = the_client s c →
  on_client c f s = s.
Proof.
  intros Hin Hf. unfold on_client. rewrite Hf, insert_id by done. by destruct s.
Qed.

Lemma foldl_on_client_fixed (f : client → client) (cl : list nat) (s : redisServer) :
  (∀ c, c ∈ cl →
     client_heap s !! c = Some (the_client s c) ∧ f (the_client s c) = the_client s c) →
  foldl (λ s0 c, on_client c f s0) s cl = s.
Proof.
  induction cl as [|a cl IH]; intros Hfix; simpl; [done|].
  destruct (Hfix a) as [Ha Hf]; [apply list_elem_of_here|].
  rewrite on_client_fixed by done. apply IH. intros c Hc. apply Hfix.
  by apply list_elem_of_further.
Qed.

Lemma foldl_on_client_heap (f : client → client) (cl : list nat) :
  (∀ x, f (f x) = f x) →
  ∀ s c, c ∈ cl →
    client_heap (foldl (λ s0 c0, on_client c0 f s0) s cl) !! c
    = Some (the_client (foldl (λ s0 c0, on_client c0 f s0) s cl) c).
Proof.
  intros Hf. induction cl as [|a cl IH]; intros s c Hc; simpl.
  - by apply elem_of_nil in Hc.
  - destruct (decide (c ∈ cl)) as [Hin|Hin]; [by apply IH|].
    apply elem_of_cons in Hc as [->|Hc]; [|done].
    destruct (foldl_on_client f cl (on_client a f s) Hf) as (Hcl & _).
    rewrite Hcl, decide_False by done.
    assert (Hkeep : ∀ l s0, a ∉ l →
      client_heap (foldl (λ s1 c0, on_client c0 f s1) s0 l) !! a = client_heap s0 !! a).
    { clear. induction l as [|b l IHl]; intros s0 Hb; simpl; [done|].
      apply not_elem_of_cons in Hb as [Hab Hl]. rewrite IHl by done.
      unfold on_client. simpl. by rewrite lookup_insert_ne. }
    rewrite Hkeep by done. unfold on_client at 1. simpl. rewrite lookup_insert_eq.
    by rewrite the_client_on_client.
Qed.

Section TouchTwice.
Context `{ServerH}.

(** X13. [touchWatchedKey] on a key nobody is listed under gives back the
    state it was given, and touching a key twice is touching it once. *)
Theorem touchWatchedKey_idempotent (d : nat) (k : robj) (s : redisServer) :
  (watchers s d (ptr k) = [] → touchWatchedKey d k s = s)
  ∧ touchWatchedKey d k (touchWatchedKey d k s) = touchWatchedKey d k s.
Proof.
  split.
  - unfold watchers, touchWatchedKey. intros Hnil. case_decide; [done|].
    destruct (db_watched_keys (the_db s d) !! ptr k) as [cl|]; [|done].
    simpl in Hnil. by subst cl.
  - destruct (touchWatchedKey_clients d k s) as (_ & Hdb & _).
    unfold touchWatchedKey at 1. unfold the_db. rewrite Hdb. fold (the_db s d).
    unfold touchWatchedKey. case_decide; [done|].
    destruct (db_watched_keys (the_db s d) !! ptr k) as [cl|]; [|done].
    apply foldl_on_client_fixed. intros c Hc. split.
    + by apply foldl_on_client_heap; [apply set_dirty_cas_twice|].
    + destruct (foldl_on_client set_dirty_cas cl s set_dirty_cas_twice) as (Hcl & _).
      rewrite Hcl, decide_True by done. apply set_dirty_cas_twice.
Qed.
End TouchTwice.

(** ** MULTI then DISCARD *)

Lemma land_back (f a b c : Z) :
  Z.land f a = 0%Z → Z.land f b = 0%Z → Z.land f c = 0%Z →
  Z.land (Z.lor f a) (Z.lnot (Z.lor (Z.lor a b) c)) = f.
Proof.
  intros Ha Hb Hc. apply Z.bits_inj'. intros n Hn.
  rewrite Z.land_spec, Z.lnot_spec, !Z.lor_spec by done.
  assert (Ha' : Z.testbit (Z.land f a) n = false) by by rewrite Ha, Z.bits_0.
  assert (Hb' : Z.testbit (Z.land f b) n = false) by by rewrite Hb, Z.bits_0.
  assert (Hc' : Z.testbit (Z.land f c) n = false) by by rewrite Hc, Z.bits_0.
  rewrite Z.land_spec in Ha', Hb', Hc'.
  by destruct (Z.testbit f n), (Z.testbit a n), (Z.testbit b n), (Z.testbit c n).
Qed.

Section MultiDiscard.
Context `{ServerH}.

(** X14. For an idle client with clean flags, an empty queue and nothing
    watched, MULTI then DISCARD returns and changes nothing but what the
    client is sent, which gets two OK: the flag word of the client is the one
    it had, and the other clients, the databases and the rest of the server
    are untouched. *)
Theorem multi_then_discard (c : nat) (s : redisServer) :
  CLIENT_MULTI ≠ 0%Z →
  has (flags (the_client s c)) CLIENT_MULTI = false →
  has (flags (the_client s c)) CLIENT_DIRTY_CAS = false →
  has (flags (the_client s c)) CLIENT_DIRTY_EXEC = false →
  mstate (the_client s c) = {| commands := []; cmd_flags := 0 |} →
  watched_keys (the_client s c) = [] →
  ∃ s', discardCommand c (multiCommand c s) = Some s'
    ∧ the_client s' c
      = push_reply (Reply shared_ok) (push_reply (Reply shared_ok) (the_client s c))
    ∧ (∀ c', c' ≠ c → the_client s' c' = the_client s c')
    ∧ server_db s' = server_db s
    ∧ frame s' = frame s.
Proof.
  intros Hm0 Hm Hcas Hexec Hms Hwk.
  apply has_false in Hm, Hcas, Hexec.
  unfold multiCommand. rewrite (proj2 (has_false _ _) Hm).
  unfold discardCommand, addReply. rewrite !the_client_on_client. simpl.
  rewrite (has_set _ _ Hm0). simpl.
  unfold discardTransaction, initClientMultiState, freeClientMultiState, unwatchAllKeys.
  rewrite !the_client_on_client. simpl. rewrite Hwk. simpl.
  eexists. split; [done|]. split_and!.
  - rewrite !the_client_on_client. unfold push_reply, set_flags, set_mstate. simpl.
    rewrite land_back, Hms, Hwk by done. by rewrite <- app_assoc.
  - intros c' Hc'. by rewrite !the_client_on_client_ne.
  - done.
  - done.
Qed.
End MultiDiscard.

Lemma touchWatchedKey_idempotent_witness :
  @touchWatchedKey sample_constants 0 (str 40 "b") sample_watching = sample_watching
  ∧ @touchWatchedKey sample_constants 0 (str 40 "a")
      (@touchWatchedKey sample_constants 0 (str 41 "a") sample_watching)
    = @touchWatchedKey sample_constants 0 (str 41 "a") sample_watching.
Proof.
  destruct (@touchWatchedKey_idempotent sample_constants 0 (str 40 "b") sample_watching)
    as (Hnone & _).
  destruct (@touchWatchedKey_idempotent sample_constants 0 (str 41 "a") sample_watching)
    as (_ & Htwice).
  split; [apply Hnone; by vm_compute | exact Htwice].
Defined.

Lemma multi_then_discard_witness :
  ∃ s', @discardCommand sample_constants 1 (@multiCommand sample_constants 1 sample_start)
        = Some s'
    ∧ reply_buf (the_client s' 1) = [Reply shared_ok; Reply shared_ok]
    ∧ flags (the_client s' 1) = 0%Z.
Proof.
  destruct (@multi_then_discard sample_constants 1 sample_start)
    as (s' & Hrun & Hc & _); try done.
  exists s'. split_and!; [exact Hrun | by rewrite Hc | by rewrite Hc].
Defined.

(** ** The WATCH command *)

Lemma watchForKey_ids (c : nat) (k : robj) (s : redisServer) (p : nat * string) :
  p ∈ watched_ids (watchForKey c k s) c
  ↔ p ∈ watched_ids s c ∨ p = (db (the_client s c), ptr k).
Proof.
  destruct (already_watched (the_client s c) k) eqn:Hw.
  - unfold watchForKey. rewrite Hw. apply already_watched_spec in Hw.
    split; [by left|]. intros [Hp|Hp]; [done | by subst p].
  - rewrite watchForKey_watched_ids, decide_True by done.
    by rewrite elem_of_app, list_elem_of_singleton.
Qed.

Lemma watch_loop_ids (c : nat) (keys : list robj) :
  ∀ s p,
    p ∈ watched_ids (foldl (λ s0 k, watchForKey c k s0) s keys) c
    ↔ p ∈ watched_ids s c ∨ ∃ k, k ∈ keys ∧ p = (db (the_client s c), ptr k).
Proof.
  induction keys as [|k0 keys IH]; intros s p; simpl.
  - split; [by left|]. intros [?|(k & Hk & _)]; [done | by apply elem_of_nil in Hk].
  - rewrite IH, watchForKey_ids.
    destruct (watchForKey_client c c k0 s) as [l Hl].
    replace (db (the_client (watchForKey c k0 s) c)) with (db (the_client s c))
      by by rewrite Hl.
    split.
    + intros [[?| ->]|(k & Hk & ->)].
      * by left.
      * right. exists k0. split; [apply list_elem_of_here | done].
      * right. exists k. split; [by apply list_elem_of_further | done].
    + intros [?|(k & Hk & ->)]; [by left; left|].
      apply elem_of_cons in Hk as [->|Hk]; [by left; right|].
      right. by exists k.
Qed.

Section WatchCommand.
Context `{ServerH}.

(** X15. WATCH by a client out of MULTI, on a well-formed index: it replies
    OK; afterwards the client watches, in the database it is on, the bytes of
    each argument after the command name besides what it watched before, and
    nothing more; an argument repeated or watched already adds no entry;
    the flags of the client and the other clients are not written. *)
Theorem watchCommand_watches_arguments (c : nat) (s : redisServer) :
  index_ok s →
  has (flags (the_client s c)) CLIENT_MULTI = false →
  reply_buf (the_client (watchCommand c s) c)
  = reply_buf (the_client s c) ++ [Reply shared_ok]
  ∧ (∀ p, p ∈ watched_ids (watchCommand c s) c
          ↔ p ∈ watched_ids s c
            ∨ ∃ k, k ∈ drop 1 (argv (the_client s c))
                ∧ p = (db (the_client s c), ptr k))
  ∧ NoDup (watched_ids (watchCommand c s) c)
  ∧ flags (the_client (watchCommand c s) c) = flags (the_client s c)
  ∧ (∀ c', c' ≠ c → the_client (watchCommand c s) c' = the_client s c')
  ∧ index_ok (watchCommand c s).
Proof.
  intros Hok Hm.
  pose proof (watchCommand_index_ok c s Hok) as Hok'.
  unfold watchCommand in *. rewrite Hm in *. unfold addReply in *.
  set (keys := drop 1 (argv (the_client s c))) in *.
  destruct (watch_loop_client c c keys s) as [l Hl].
  split_and!.
  - by rewrite the_client_on_client, Hl.
  - intros p. rewrite <- watch_loop_ids. unfold watched_ids.
    by rewrite the_client_on_client.
  - apply Hok'.
  - by rewrite the_client_on_client, Hl.
  - intros c' Hc'. rewrite the_client_on_client_ne by done.
    destruct (watch_loop_frame c keys s) as (_ & Hother & _). by apply Hother.
  - done.
Qed.

(** X16. Once [unwatchAllKeys] has run for a client, on a well-formed index,
    no touch marks it: [touchWatchedKey] on any key of any database and
    [touchWatchedKeysOnFlush] for any database leave the client as it is. *)
Theorem unwatched_client_is_not_touched (c : nat) (s : redisServer) :
  index_ok s →
  ∃ s1, unwatchAllKeys c s = Some s1
    ∧ (∀ d k, the_client (touchWatchedKey d k s1) c = the_client s1 c)
    ∧ (∀ dbid, the_client (touchWatchedKeysOnFlush dbid s1) c = the_client s1 c).
Proof.
  intros Hok.
  destruct (unwatchAllKeys_ok c s Hok) as (s1 & Hrun & Hok1 & _ & _ & Hc & _).
  assert (Hnil : watched_keys (the_client s1 c) = []) by by rewrite Hc.
  exists s1. split_and!; [done | |].
  - intros d k. destruct (touchWatchedKey_clients d k s1) as (Ht & _).
    rewrite Ht, decide_False; [done|]. by apply unwatched_nowhere.
  - intros dbid. destruct (touchWatchedKeysOnFlush_clients dbid s1) as (Ht & _).
    rewrite Ht, Hnil. simpl. by rewrite andb_false_r.
Qed.
End WatchCommand.

Lemma watchCommand_watches_arguments_witness :
  watched_ids (@watchCommand sample_constants 1 sample_watch_two) 1 = [(0, "a"); (0, "b")]
  ∧ NoDup (watched_ids (@watchCommand sample_constants 1 sample_watch_two) 1).
Proof.
  destruct (@watchCommand_watches_arguments sample_constants 1 sample_watch_two)
    as (_ & _ & Hnodup & _).
  - apply on_client_index_ok; [done | apply sample_start_index_ok].
  - done.
  - split; [by vm_compute | exact Hnodup].
Defined.

Lemma unwatched_client_is_not_touched_witness :
  ∃ s1, unwatchAllKeys 1 sample_shared = Some s1
    ∧ the_client (@touchWatchedKey sample_constants 0 (str 40 "a") s1) 1 = the_client s1 1
    ∧ has (flags (the_client (@touchWatchedKey sample_constants 0 (str 40 "a") s1) 2)) 32
      = true.
Proof.
  destruct (@unwatched_client_is_not_touched sample_constants 1 sample_shared)
    as (s1 & Hrun & Htouch & _).
  - apply watchForKey_index_ok, watchForKey_index_ok, sample_start_index_ok.
  - exists s1. split_and!; [exact Hrun | apply Htouch |].
    vm_compute in Hrun. injection Hrun as <-. by vm_compute.
Defined.
